(** * Singleton holder, post-construction coordinator and collector registry

    A shallow embedding of [singleton.h] and [collectable.h].

    The C++ code works on process-wide mutable state (function-local
    statics, static class members, the objects themselves) and stops the
    process on a failed [assert].  It is embedded as computations in a
    state-and-failure monad over a record [World] that holds those pieces
    of state, and what [malloc] and [delete] have done to the storage of
    the singleton objects.  Client code that the templates call back into
    (the constructor and destructor bodies of [Type]) is a parameter of
    the operation that runs it, and so is the address [malloc] returns. *)

From stdpp Require Import base option list strings gmap.
From Stdlib Require Import ZArith Lia.

Local Open Scope Z_scope.

(** ** Data model *)

(** A class type, identified by its name ([Type] in the templates). *)
Definition tyid := string.

(** A non-null address.  A C++ pointer is an [option addr]; [None] is
    [nullptr]. *)
Definition addr := positive.

(** [template <typename Type> struct PointerWrapper] *)
Record PointerWrapper := mkPointerWrapper {
  initialized : bool;
  raw_pointer : option addr
}.

(** [template <typename Type> struct InstanceSafetyHelper]; the [std::mutex]
    is [true] while it is locked. *)
Record InstanceSafetyHelper := mkHelper {
  wrapper : PointerWrapper;
  mutex : bool
}.

(** [InstanceSafetyHelper() : wrapper{false, nullptr}, mutex() {}] *)
Definition InstanceSafetyHelper_ctor : InstanceSafetyHelper :=
  mkHelper (mkPointerWrapper false None) false.

(** The mutable state of the process.
    - [helpers]: the function-local static [helper] of
      [InstanceSafetyHelper<Type>::Helper], one per [Type], present once
      its initialisation has run;
    - [s_classes_under_construction], [s_construct_stack_size]: the static
      members of [SingletonPostConstructionHelper];
    - [stderr]: the pointers printed by the [fprintf] of
      [createInstance] and [Instance];
    - [postConstruction_calls]: the objects on which the virtual
      [postConstruction] has been called, in call order;
    - [m_container]: the [m_container] member of each live [Collector]
      object, by the address of the object;
    - [m_registered_in_collector]: the flag of each live
      [AutoCollectable<Type>] subobject, by [Type] and address.

    The last two fields are not variables of the program; they are what
    [malloc] and [delete] have done to the heap, as far as the program
    depends on it:
    - [live_entries]: the positions of [s_classes_under_construction]
      whose pointer is to storage that has not been freed since the
      pointer was pushed (the other entries dangle);
    - [allocated]: the types for whose instance [malloc] has returned
      storage that [delete] has not freed. *)
Record World := mkWorld {
  helpers : gmap string InstanceSafetyHelper;
  s_classes_under_construction : list addr;
  s_construct_stack_size : Z;
  stderr : list (option addr);
  postConstruction_calls : list addr;
  m_container : gmap positive (gset positive);
  m_registered_in_collector : gmap (string * positive) bool;
  live_entries : gset nat;
  allocated : gset string
}.

(** The state of a process in which nothing has run yet. *)
Definition initial_world : World :=
  mkWorld ∅ [] 0 [] [] ∅ ∅ ∅ ∅.

Definition set_helpers (f : gmap string InstanceSafetyHelper ->
                            gmap string InstanceSafetyHelper) (w : World) : World :=
  mkWorld (f (helpers w)) (s_classes_under_construction w)
          (s_construct_stack_size w) (stderr w) (postConstruction_calls w)
          (m_container w) (m_registered_in_collector w)
          (live_entries w) (allocated w).

Definition set_classes (l : list addr) (w : World) : World :=
  mkWorld (helpers w) l (s_construct_stack_size w) (stderr w)
          (postConstruction_calls w) (m_container w)
          (m_registered_in_collector w) (live_entries w) (allocated w).

Definition set_stack_size (n : Z) (w : World) : World :=
  mkWorld (helpers w) (s_classes_under_construction w) n (stderr w)
          (postConstruction_calls w) (m_container w)
          (m_registered_in_collector w) (live_entries w) (allocated w).

Definition set_stderr (l : list (option addr)) (w : World) : World :=
  mkWorld (helpers w) (s_classes_under_construction w)
          (s_construct_stack_size w) l (postConstruction_calls w)
          (m_container w) (m_registered_in_collector w)
          (live_entries w) (allocated w).

Definition set_calls (l : list addr) (w : World) : World :=
  mkWorld (helpers w) (s_classes_under_construction w)
          (s_construct_stack_size w) (stderr w) l (m_container w)
          (m_registered_in_collector w) (live_entries w) (allocated w).

Definition set_containers (f : gmap positive (gset positive) ->
                               gmap positive (gset positive)) (w : World) : World :=
  mkWorld (helpers w) (s_classes_under_construction w)
          (s_construct_stack_size w) (stderr w) (postConstruction_calls w)
          (f (m_container w)) (m_registered_in_collector w)
          (live_entries w) (allocated w).

Definition set_registered (f : gmap (string * positive) bool ->
                               gmap (string * positive) bool) (w : World) : World :=
  mkWorld (helpers w) (s_classes_under_construction w)
          (s_construct_stack_size w) (stderr w) (postConstruction_calls w)
          (m_container w) (f (m_registered_in_collector w))
          (live_entries w) (allocated w).

Definition set_live_entries (e : gset nat) (w : World) : World :=
  mkWorld (helpers w) (s_classes_under_construction w)
          (s_construct_stack_size w) (stderr w) (postConstruction_calls w)
          (m_container w) (m_registered_in_collector w) e (allocated w).

Definition set_allocated (a : gset string) (w : World) : World :=
  mkWorld (helpers w) (s_classes_under_construction w)
          (s_construct_stack_size w) (stderr w) (postConstruction_calls w)
          (m_container w) (m_registered_in_collector w) (live_entries w) a.

(** ** The monad of the embedding *)

(** What running a piece of the program from a given state gives:
    - [Ok a w]: it returns [a] and leaves the state [w];
    - [AssertFail w]: an [assert] failed and the process was stopped in
      state [w];
    - [Undefined]: the program left defined behaviour (signed overflow,
      relocking a [std::mutex] the thread holds, using a dead object). *)
Inductive outcome (A : Type) : Type :=
| Ok (a : A) (w : World)
| AssertFail (w : World)
| Undefined.
Arguments Ok {A} a w.
Arguments AssertFail {A} w.
Arguments Undefined {A}.

Definition M (A : Type) : Type := World -> outcome A.

Definition ret {A} (a : A) : M A := fun w => Ok a w.

Definition bind {A B} (m : M A) (k : A -> M B) : M B :=
  fun w => match m w with
           | Ok a w' => k a w'
           | AssertFail w' => AssertFail w'
           | Undefined => Undefined
           end.

Declare Scope prog_scope.
Delimit Scope prog_scope with prog.
Bind Scope prog_scope with M.
Notation "x <- m ;; k" := (bind m (fun x => k))
  (at level 20, m at level 99, k at level 200, only parsing) : prog_scope.
Notation "m ;; k" := (bind m (fun _ => k))
  (at level 100, k at level 200, right associativity, only parsing) : prog_scope.
Local Open Scope prog_scope.

Definition gets {A} (f : World -> A) : M A := fun w => Ok (f w) w.
Definition modify (f : World -> World) : M unit := fun w => Ok tt (f w).
Definition undefined {A} : M A := fun _ => Undefined.

(** [assert(b)] of [<cassert>], with assertions enabled. *)
Definition cassert (b : bool) : M unit :=
  fun w => if b then Ok tt w else AssertFail w.

(** A range-based [for] over a vector. *)
Definition for_each {A} (l : list A) (body : A -> M unit) : M unit :=
  (fix loop (l : list A) : M unit :=
     match l with
     | [] => ret tt
     | x :: l' => body x ;; loop l'
     end) l.

(** ** [SingletonPostConstructionHelper] *)

Definition INT_MAX : Z := 2147483647.

(** The virtual call [ptr->postConstruction()], for the entry at
    position [i] of the vector.  The call goes through the object: it is
    undefined when the storage of the object has been freed since the
    pointer was pushed.  The body in [SingletonBase] is empty and the
    overriding bodies are client code, which is not modelled; what the
    library does is the call, and the call is recorded.  (A body that
    constructed a singleton would change the vector [pop] is iterating
    over.) *)
Definition postConstruction (i : nat) (ptr : addr) : M unit :=
  live <- gets (fun w => bool_decide (i ∈ live_entries w)) ;;
  if live
  then modify (fun w => set_calls (postConstruction_calls w ++ [ptr]) w)
  else undefined.

(** [static void push(SingletonBase *pointer)].  The counter is an [int]:
    incrementing it at [INT_MAX] is undefined.  The pointer pushed is to
    storage that is allocated: the new entry is live. *)
Definition push (pointer : addr) : M unit :=
  n <- gets s_construct_stack_size ;;
  (if bool_decide (n = INT_MAX) then undefined else ret tt) ;;
  modify (set_stack_size (n + 1)) ;;
  modify (fun w =>
    set_live_entries
      ({[length (s_classes_under_construction w)]} ∪ live_entries w)
      (set_classes (s_classes_under_construction w ++ [pointer]) w)).

(** [static void pop()] *)
Definition pop : M unit :=
  n <- gets s_construct_stack_size ;;
  cassert (bool_decide (n > 0)) ;;
  modify (set_stack_size (n - 1)) ;;
  if bool_decide (n - 1 = 0) then
    l <- gets s_classes_under_construction ;;
    for_each (imap pair l) (fun e => postConstruction e.1 e.2) ;;
    modify (fun w => set_live_entries ∅ (set_classes [] w))
  else ret tt.

(** ** [PointerWrapper] *)

(** [Type *operator->()] and [operator Type *()] *)
Definition PointerWrapper_arrow (pw : PointerWrapper) : M (option addr) :=
  cassert (initialized pw) ;;
  ret (raw_pointer pw).

(** ** [InstanceSafetyHelper] *)

(** [static InstanceSafetyHelper *Helper()]: the first call initialises the
    function-local static; the pointer it returns is the key [T]. *)
Definition init_helper (T : tyid) (w : World) : World :=
  set_helpers (fun hs =>
    match hs !! T with
    | Some _ => hs
    | None => <[T := InstanceSafetyHelper_ctor]> hs
    end) w.

Definition Helper (T : tyid) : M unit := modify (init_helper T).

(** [*helper], read through the pointer [Helper()] returned. *)
Definition the_helper (T : tyid) (w : World) : InstanceSafetyHelper :=
  default InstanceSafetyHelper_ctor (helpers w !! T).

(** [helper->wrapper] *)
Definition the_wrapper (T : tyid) (w : World) : PointerWrapper :=
  wrapper (the_helper T w).

(** An assignment to a field of [helper->wrapper]. *)
Definition update_wrapper (T : tyid) (f : PointerWrapper -> PointerWrapper)
    (w : World) : World :=
  set_helpers (insert T (mkHelper (f (the_wrapper T w)) (mutex (the_helper T w)))) w.

Definition update_mutex (T : tyid) (b : bool) (w : World) : World :=
  set_helpers (insert T (mkHelper (the_wrapper T w) b)) w.

Definition with_raw_pointer (p : option addr) (pw : PointerWrapper) : PointerWrapper :=
  mkPointerWrapper (initialized pw) p.

Definition with_initialized (b : bool) (pw : PointerWrapper) : PointerWrapper :=
  mkPointerWrapper b (raw_pointer pw).

(** [helper->wrapper.raw_pointer = p] *)
Definition set_raw_pointer (T : tyid) (p : option addr) : M unit :=
  modify (update_wrapper T (with_raw_pointer p)).

(** [helper->wrapper.initialized = b] *)
Definition set_initialized (T : tyid) (b : bool) : M unit :=
  modify (update_wrapper T (with_initialized b)).

(** [helper->mutex.lock()]; a [std::mutex] is not recursive. *)
Definition lock (T : tyid) : M unit :=
  m <- gets (fun w => mutex (the_helper T w)) ;;
  if m then undefined else modify (update_mutex T true).

(** [helper->mutex.unlock()] *)
Definition unlock (T : tyid) : M unit :=
  m <- gets (fun w => mutex (the_helper T w)) ;;
  if m then modify (update_mutex T false) else undefined.

(** [~InstanceSafetyHelper()], run for each initialised static when the
    process exits. *)
Definition InstanceSafetyHelper_dtor (T : tyid) : M unit :=
  hs <- gets helpers ;;
  match hs !! T with
  | None => ret tt
  | Some h =>
      cassert (negb (initialized (wrapper h)) &&
               bool_decide (raw_pointer (wrapper h) = None)) ;;
      modify (set_helpers (delete T))
  end.

(** ** [Singleton] *)

(** [fprintf(stderr, "[SINGLETON] Constructed pointer at 0x%08p\n", p)] *)
Definition fprintf_stderr (p : option addr) : M unit :=
  modify (fun w => set_stderr (stderr w ++ [p]) w).

(** [malloc(sizeof(Type))], for the instance of [T]; the address it
    returns is a parameter of the caller. *)
Definition malloc (T : tyid) : M unit :=
  modify (fun w => set_allocated ({[T]} ∪ allocated w) w).

(** The deallocation that ends [delete p], for the instance of [T] at
    [p]: the storage is freed, and the entries of the vector that point to
    it dangle from now on. *)
Definition operator_delete (T : tyid) (p : option addr) : M unit :=
  modify (fun w =>
    set_live_entries
      (filter (fun i => s_classes_under_construction w !! i <> p)
              (live_entries w))
      (set_allocated (allocated w ∖ {[T]}) w)).

(** The construction sequence shared by [Instance] and [createInstance]:
    from [malloc] to [pop].  [data] is what [malloc] returns and [ctor] is
    what the constructor [Type(args...)] does. *)
Definition construct (T : tyid) (data : addr) (ctor : M unit) : M unit :=
  malloc T ;;
  set_raw_pointer T (Some data) ;;
  push data ;;
  ctor ;;
  set_raw_pointer T (Some data) ;;
  (p <- gets (fun w => raw_pointer (the_wrapper T w)) ;; fprintf_stderr p) ;;
  set_initialized T true ;;
  pop.

(** [static PointerWrapper<Type> Instance(ConstructorArguments... args)] *)
Definition Instance (T : tyid) (data : addr) (ctor : M unit) : M PointerWrapper :=
  Helper T ;;
  p <- gets (fun w => raw_pointer (the_wrapper T w)) ;;
  (if bool_decide (p = None) then
     lock T ;;
     p' <- gets (fun w => raw_pointer (the_wrapper T w)) ;;
     (if bool_decide (p' = None) then construct T data ctor else ret tt) ;;
     unlock T
   else ret tt) ;;
  gets (the_wrapper T).

(** [static PointerWrapper<Type> createInstance(ConstructorArguments... args)] *)
Definition createInstance (T : tyid) (data : addr) (ctor : M unit) : M PointerWrapper :=
  Helper T ;;
  p <- gets (fun w => raw_pointer (the_wrapper T w)) ;;
  cassert (bool_decide (p = None)) ;;
  lock T ;;
  p' <- gets (fun w => raw_pointer (the_wrapper T w)) ;;
  cassert (bool_decide (p' = None)) ;;
  construct T data ctor ;;
  unlock T ;;
  gets (the_wrapper T).

(** [~Singleton()] *)
Definition Singleton_dtor (T : tyid) : M unit :=
  Helper T ;;
  i <- gets (fun w => initialized (the_wrapper T w)) ;;
  cassert i ;;
  lock T ;;
  i' <- gets (fun w => initialized (the_wrapper T w)) ;;
  cassert i' ;;
  set_initialized T false ;;
  set_raw_pointer T None ;;
  unlock T.

(** [static void destructInstance()].  [delete] runs the destructor of
    [Type]: its body [dtor], then the destructor of the base class
    [Singleton<Type>]; then it frees the storage at the pointer it was
    given. *)
Definition destructInstance (T : tyid) (dtor : M unit) : M unit :=
  Helper T ;;
  pw <- gets (the_wrapper T) ;;
  cassert (bool_decide (raw_pointer pw <> None) && initialized pw) ;;
  dtor ;;
  Singleton_dtor T ;;
  operator_delete T (raw_pointer pw).

(** [static Type *getInstance()] *)
Definition getInstance (T : tyid) : M (option addr) :=
  Helper T ;;
  pw <- gets (the_wrapper T) ;;
  cassert (bool_decide (raw_pointer pw <> None) && initialized pw) ;;
  gets (fun w => raw_pointer (the_wrapper T w)).

(** [static Type *getInstanceDuringBuilding()] *)
Definition getInstanceDuringBuilding (T : tyid) : M (option addr) :=
  Helper T ;;
  pw <- gets (the_wrapper T) ;;
  cassert (bool_decide (raw_pointer pw <> None) && negb (initialized pw)) ;;
  gets (fun w => raw_pointer (the_wrapper T w)).

(** ** Client programs *)

(** Sequences of calls on the coordinator. *)
Inductive coord_op : Type :=
| Push (pointer : addr)
| Pop.

Definition run_coord_op (o : coord_op) : M unit :=
  match o with
  | Push pointer => push pointer
  | Pop => pop
  end.

(** The calls a client can make on the singleton interface.  A call that
    constructs carries the address [malloc] returns for it and the calls
    the constructor of [Type] makes; a call that destroys carries the calls
    the destructor of [Type] makes. *)
#[warnings="-register-all"]
Inductive action : Type :=
| CreateInstance (T : tyid) (data : addr) (ctor : list action)
| LazyInstance (T : tyid) (data : addr) (ctor : list action)
| GetInstance (T : tyid)
| GetInstanceDuringBuilding (T : tyid)
| DestructInstance (T : tyid) (dtor : list action).

Fixpoint run (a : action) : M unit :=
  match a with
  | CreateInstance T data ctor =>
      createInstance T data (for_each ctor run) ;; ret tt
  | LazyInstance T data ctor =>
      Instance T data (for_each ctor run) ;; ret tt
  | GetInstance T => getInstance T ;; ret tt
  | GetInstanceDuringBuilding T => getInstanceDuringBuilding T ;; ret tt
  | DestructInstance T dtor => destructInstance T (for_each dtor run)
  end.

(** ** [Collector] and [AutoCollectable] *)

(** The name of the class [Collector<Type>]. *)
Definition CollectorOf (Ty : tyid) : tyid := "Collector<" +:+ Ty +:+ ">".

(** The implicit default constructor of [Collector]: it builds the empty
    [m_container] of the object at [this]. *)
Definition Collector_ctor (this : addr) : M unit :=
  modify (set_containers (insert this ∅)).

(** The implicit destructor of [Collector] destroys [m_container]. *)
Definition Collector_dtor (this : addr) : M unit :=
  modify (set_containers (delete this)).

(** [bool insert(Type *c)] *)
Definition Collector_insert (this c : addr) : M bool :=
  mc <- gets (fun w => m_container w !! this) ;;
  match mc with
  | None => undefined
  | Some s =>
      let success := bool_decide (c ∉ (s : gset positive)) in
      modify (set_containers (insert this ({[c]} ∪ s))) ;;
      cassert success ;;
      ret true
  end.

(** [bool erase(Type *c)] *)
Definition Collector_erase (this c : addr) : M bool :=
  mc <- gets (fun w => m_container w !! this) ;;
  match mc with
  | None => undefined
  | Some s =>
      cassert (bool_decide (c ∈ (s : gset positive))) ;;
      modify (set_containers (insert this (s ∖ {[c]}))) ;;
      ret true
  end.

(** [const ItemContainer &container() const] *)
Definition Collector_container (this : addr) : M (gset positive) :=
  mc <- gets (fun w => m_container w !! this) ;;
  match mc with
  | None => undefined
  | Some s => ret s
  end.

(** [Collector<Type>::Instance()->member(...)]: the call of a member of
    the collector through the wrapper [Instance] returns; [cdata] is what
    [malloc] returns if [Instance] has to build the collector. *)
Definition through_Instance {A} (Ty : tyid) (cdata : addr)
    (member : addr -> M A) : M A :=
  pw <- Instance (CollectorOf Ty) cdata (Collector_ctor cdata) ;;
  c <- PointerWrapper_arrow pw ;;
  match c with
  | None => undefined
  | Some c => member c
  end.

(** [AutoCollectable()], run on the object at [this]. *)
Definition AutoCollectable_ctor (Ty : tyid) (cdata this : addr) : M unit :=
  modify (set_registered (insert (Ty, this) false)) ;;
  r <- through_Instance Ty cdata (fun c => Collector_insert c this) ;;
  modify (set_registered (insert (Ty, this) r)) ;;
  cassert r.

(** [~AutoCollectable()], after which the object at [this] is gone. *)
Definition AutoCollectable_dtor (Ty : tyid) (cdata this : addr) : M unit :=
  f <- gets (A := option bool)
         (fun w => m_registered_in_collector w !! (Ty, this)) ;;
  match f with
  | None => undefined
  | Some r =>
      (if r then
         r' <- through_Instance Ty cdata (fun c => Collector_erase c this) ;;
         modify (set_registered (insert (Ty, this) r'))
       else ret tt) ;;
      modify (set_registered (delete (Ty, this)))
  end.

(** [new Type[n]]: the elements, at the addresses [objs], are constructed
    in order. *)
Definition new_array (Ty : tyid) (cdata : addr) (objs : list addr) : M unit :=
  for_each objs (AutoCollectable_ctor Ty cdata).

(** [delete[] p]: the elements are destroyed in reverse order. *)
Definition delete_array (Ty : tyid) (cdata : addr) (objs : list addr) : M unit :=
  for_each (reverse objs) (AutoCollectable_dtor Ty cdata).

(** [Collector<Type>::Instance()->container()] *)
Definition members (Ty : tyid) (cdata : addr) : M (gset positive) :=
  through_Instance Ty cdata Collector_container.

(** ** Invariants, observations and the programs of the examples *)

(** The state after [malloc] and the assignment that follows it, and the
    state after the three statements that follow the constructor call. *)
Definition begin_construct (T : tyid) (data : addr) (w : World) : World :=
  update_wrapper T (with_raw_pointer (Some data))
    (set_allocated ({[T]} ∪ allocated w) w).

(** The state [push] leaves, and the state the last statement of
    [delete] leaves. *)
Definition pushed (pointer : addr) (w : World) : World :=
  set_live_entries
    ({[length (s_classes_under_construction w)]} ∪ live_entries w)
    (set_classes (s_classes_under_construction w ++ [pointer])
       (set_stack_size (s_construct_stack_size w + 1) w)).

Definition freed (T : tyid) (p : option addr) (w : World) : World :=
  set_live_entries
    (filter (fun i => s_classes_under_construction w !! i <> p)
            (live_entries w))
    (set_allocated (allocated w ∖ {[T]}) w).

Arguments pushed _ _ /.
Arguments freed _ _ _ /.

(** The positions of the queue whose pointer dangles. *)
Definition dangling (w : World) : list nat :=
  filter (fun i => i ∉ live_entries w)
         (seq 0 (length (s_classes_under_construction w))).

Definition end_construct (T : tyid) (data : addr) (w : World) : World :=
  update_wrapper T (with_initialized true)
    (set_stderr (stderr w ++ [Some data])
       (update_wrapper T (with_raw_pointer (Some data)) w)).

(** The data-model invariant of the coordinator, with the range of the
    [int] counter. *)
Definition coordinator_inv (w : World) : Prop :=
  0 <= s_construct_stack_size w <= INT_MAX /\
  (s_classes_under_construction w <> [] -> s_construct_stack_size w > 0).

(** The data model's [occupied] is, in the code, the test
    [raw_pointer != nullptr]. *)
Definition occupied (pw : PointerWrapper) : bool :=
  bool_decide (raw_pointer pw <> None).

(** [initialized] implies [occupied], for the holder of every type. *)
Definition holder_inv (w : World) : Prop :=
  forall T, initialized (the_wrapper T w) = true ->
            occupied (the_wrapper T w) = true.

(** [m] keeps [I]: from a state in [I] it ends, or is stopped by an
    assertion, in a state in [I]. *)
Definition preserves {A} (I : World -> Prop) (m : M A) : Prop :=
  forall w, I w ->
    match m w with
    | Ok _ w' | AssertFail w' => I w'
    | Undefined => True
    end.

(** Induction on a client program, with the hypothesis for the calls a
    constructor or destructor makes. *)
Section action_induction.
Variable P : action -> Prop.
Hypothesis HCreate : forall T data ctor,
  Forall P ctor -> P (CreateInstance T data ctor).
Hypothesis HLazy : forall T data ctor,
  Forall P ctor -> P (LazyInstance T data ctor).
Hypothesis HGet : forall T, P (GetInstance T).
Hypothesis HGetB : forall T, P (GetInstanceDuringBuilding T).
Hypothesis HDestruct : forall T dtor,
  Forall P dtor -> P (DestructInstance T dtor).

Fixpoint action_nested_ind (a : action) : P a :=
  let all :=
    fix all (l : list action) : Forall P l :=
      match l with
      | [] => Forall_nil_2 P
      | a' :: l' => Forall_cons_2 P a' l' (action_nested_ind a') (all l')
      end in
  match a with
  | CreateInstance T data ctor => HCreate T data ctor (all ctor)
  | LazyInstance T data ctor => HLazy T data ctor (all ctor)
  | GetInstance T => HGet T
  | GetInstanceDuringBuilding T => HGetB T
  | DestructInstance T dtor => HDestruct T dtor (all dtor)
  end.
End action_induction.

(** The constructions of a run: each node is a construction, by the
    address of the object, with the constructions its constructor made. *)
#[warnings="-register-all"]
Inductive ctree : Type :=
| CNode (data : addr) (nested : list ctree).

(** The order in which the constructions began. *)
Fixpoint preorder (t : ctree) : list addr :=
  match t with
  | CNode data nested => data :: flat_map preorder nested
  end.

(** The order in which the constructors completed. *)
Fixpoint postorder (t : ctree) : list addr :=
  match t with
  | CNode data nested => flat_map postorder nested ++ [data]
  end.

(** The order of the hooks as the specification has it: the hooks called between
    [w] and [w'] are the objects whose constructors completed between [w]
    and [w'], in the order of completion. *)
Definition hooks_in_completion_order (w w' : World) : Prop :=
  exists done_ : list addr,
    stderr w' = stderr w ++ (Some <$> done_) /\
    postConstruction_calls w' = postConstruction_calls w ++ done_.

(** What a run from [w] to [w'] that made the constructions [f] did to
    the coordinator and the log. *)
Definition coord_rel (f : list ctree) (w w' : World) : Prop :=
  coordinator_inv w' /\
  s_construct_stack_size w' = s_construct_stack_size w /\
  stderr w' = stderr w ++ (Some <$> flat_map postorder f) /\
  postConstruction_calls w' ++ s_classes_under_construction w' =
    postConstruction_calls w ++ s_classes_under_construction w
      ++ flat_map preorder f /\
  (s_construct_stack_size w > 0 ->
   postConstruction_calls w' = postConstruction_calls w).

(** Every returning run of [m] made constructions that are in [F]. *)
Definition traced (F : list ctree -> Prop) (m : M unit) : Prop :=
  forall w w', coordinator_inv w -> m w = Ok tt w' ->
    exists f, F f /\ coord_rel f w w'.

(** The constructions a returning run of a program can have made: one for
    each [CreateInstance], one or none for each [LazyInstance] (none when
    the holder was occupied), nested and ordered as the calls are. *)
Inductive constructions : action -> list ctree -> Prop :=
| constructions_create T data ctor f :
    constructions_all ctor f ->
    constructions (CreateInstance T data ctor) [CNode data f]
| constructions_lazy_built T data ctor f :
    constructions_all ctor f ->
    constructions (LazyInstance T data ctor) [CNode data f]
| constructions_lazy_kept T data ctor :
    constructions (LazyInstance T data ctor) []
| constructions_get T : constructions (GetInstance T) []
| constructions_get_building T :
    constructions (GetInstanceDuringBuilding T) []
| constructions_destruct T dtor f :
    constructions_all dtor f ->
    constructions (DestructInstance T dtor) f
with constructions_all : list action -> list ctree -> Prop :=
| constructions_nil : constructions_all [] []
| constructions_cons a l f1 f2 :
    constructions a f1 -> constructions_all l f2 ->
    constructions_all (a :: l) (f1 ++ f2).

(** Two states with the same coordinator and log. *)
Definition same_coord (w w' : World) : Prop :=
  s_classes_under_construction w' = s_classes_under_construction w /\
  s_construct_stack_size w' = s_construct_stack_size w /\
  stderr w' = stderr w /\
  postConstruction_calls w' = postConstruction_calls w.

(** The constructor of [A] creates [B]. *)
Definition nested_chain : action :=
  CreateInstance "A" 1%positive [CreateInstance "B" 2%positive []].

(** The members of the registry of [Ty], read off the state: the set of
    the collector the holder of [Collector<Ty>] points to, empty while
    there is none. *)
Definition registry (Ty : tyid) (w : World) : gset positive :=
  match raw_pointer (the_wrapper (CollectorOf Ty) w) with
  | Some c => default ∅ (m_container w !! c)
  | None => ∅
  end.

(** The instances of [Ty] alive in [w]. *)
Definition alive (Ty : tyid) (w : World) (x : addr) : Prop :=
  is_Some (m_registered_in_collector w !! (Ty, x)).

(** The holder of the collector of [Ty] between two operations: it is
    either empty or initialized and pointing to a collector object, its
    mutex is free, and the coordinator has room for one more level. *)
Definition collector_ready (Ty : tyid) (w : World) : Prop :=
  coordinator_inv w /\
  s_construct_stack_size w < INT_MAX /\
  mutex (the_helper (CollectorOf Ty) w) = false /\
  (forall c, raw_pointer (the_wrapper (CollectorOf Ty) w) = Some c ->
     initialized (the_wrapper (CollectorOf Ty) w) = true /\
     is_Some (m_container w !! c)).

(** The invariant of the registry of [Ty] between two operations: every
    live instance is flagged registered, and the registry holds exactly
    the live instances. *)
Definition collector_inv (Ty : tyid) (w : World) : Prop :=
  collector_ready Ty w /\
  (forall x b, m_registered_in_collector w !! (Ty, x) = Some b -> b = true) /\
  (forall x, x ∈ registry Ty w <-> alive Ty w x).

(** What [Collector<Ty>::Instance()] leaves. *)
Definition Instance_state (Ty : tyid) (cdata : addr) (w : World) : World :=
  match raw_pointer (the_wrapper (CollectorOf Ty) w) with
  | Some _ => w
  | None =>
      let e := end_construct (CollectorOf Ty) cdata
                 (set_containers (insert cdata ∅)
                    (pushed cdata
                       (begin_construct (CollectorOf Ty) cdata
                          (update_mutex (CollectorOf Ty) true
                             (init_helper (CollectorOf Ty) w))))) in
      update_mutex (CollectorOf Ty) false
        (if bool_decide (s_construct_stack_size w = 0)
         then set_live_entries ∅
                (set_classes []
                   (set_calls (postConstruction_calls w ++
                               s_classes_under_construction w ++ [cdata])
                      (set_stack_size 0 e)))
         else set_stack_size (s_construct_stack_size w) e)
  end.

(** The deepest nesting of constructions in a program. *)
Fixpoint height (a : action) : nat :=
  match a with
  | CreateInstance _ _ ctor | LazyInstance _ _ ctor =>
      S (foldr (fun a' h => Nat.max (height a') h) 0%nat ctor)
  | GetInstance _ | GetInstanceDuringBuilding _ => 0%nat
  | DestructInstance _ dtor =>
      foldr (fun a' h => Nat.max (height a') h) 0%nat dtor
  end.

(** The same for a sequence of calls. *)
Definition heights (l : list action) : nat :=
  foldr (fun a' h => Nat.max (height a') h) 0%nat l.

(** The holder of [T] is between [malloc] and the end of the constructor. *)
Definition under_construction (T : tyid) (w : World) : Prop :=
  raw_pointer (the_wrapper T w) <> None /\
  initialized (the_wrapper T w) = false.

(** A mutex is held only for a holder under construction. *)
Definition lock_inv (w : World) : Prop :=
  forall T, mutex (the_helper T w) = true -> under_construction T w.

(** The holders under construction in [w] are the same in [w']. *)
Definition keeps_building (w w' : World) : Prop :=
  forall T, under_construction T w -> the_helper T w' = the_helper T w.

(** The three invariants together. *)
Definition good (w : World) : Prop :=
  coordinator_inv w /\ holder_inv w /\ lock_inv w.

(** The data model's [occupied] is "storage has been allocated for the
    instance".  In the code the holder has no such field: the storage is
    what [malloc] returned and [delete] has not freed, and the holder has
    the pointer.  The two agree when the pointer of the holder of [T] is
    non-null exactly while storage is allocated for the instance of
    [T]. *)
Definition storage_inv (w : World) : Prop :=
  forall T, T ∈ allocated w <-> raw_pointer (the_wrapper T w) <> None.

(** The invariant of the holders: both halves. *)
Definition slot_inv (w : World) : Prop := holder_inv w /\ storage_inv w.

(** [m], run at a depth that leaves room for [h] more levels, keeps
    [good] and the depth and leaves the holders under construction alone;
    it leaves defined behaviour only when it is run at depth zero (where a
    [pop] can call the hooks). *)
Definition defined_run (h : nat) (m : M unit) : Prop :=
  forall w, good w -> s_construct_stack_size w + Z.of_nat h <= INT_MAX ->
    match m w with
    | Ok _ w' =>
        good w' /\
        s_construct_stack_size w' = s_construct_stack_size w /\
        keeps_building w w'
    | AssertFail _ => True
    | Undefined => s_construct_stack_size w = 0
    end.

(** A program that goes through every call of the interface. *)
Definition sample_program : list action :=
  [ CreateInstance "A" 1%positive
      [ CreateInstance "B" 2%positive []; GetInstanceDuringBuilding "A" ];
    GetInstance "A";
    DestructInstance "A" [ GetInstance "B" ];
    LazyInstance "A" 3%positive [ LazyInstance "B" 4%positive [] ] ].

(** The run of [test/collectable.int_item.cpp]: ten items are allocated,
    the registry is read through [getInstance], the items are deleted. *)
Definition int_item_test : M unit :=
  new_array "IntItem" 100%positive [1; 2; 3; 4; 5; 6; 7; 8; 9; 10]%positive ;;
  getInstance (CollectorOf "IntItem") ;;
  delete_array "IntItem" 100%positive [1; 2; 3; 4; 5; 6; 7; 8; 9; 10]%positive.

(** ** Definitions for the further properties *)

(** The state in which [createInstance] and [Instance] run the
    constructor of [T]: the holder exists, its mutex is held, its pointer
    is [data], and [data] has been pushed. *)
Definition ctor_state (T : tyid) (data : addr) (w : World) : World :=
  pushed data (begin_construct T data (update_mutex T true (init_helper T w))).

(** The objects a sequence of coordinator calls pushes, in order, and the
    number of [push] calls minus the number of [pop] calls. *)
Fixpoint pushes_of (ops : list coord_op) : list addr :=
  match ops with
  | [] => []
  | Push pointer :: ops' => pointer :: pushes_of ops'
  | Pop :: ops' => pushes_of ops'
  end.

Fixpoint balance (ops : list coord_op) : Z :=
  match ops with
  | [] => 0
  | Push _ :: ops' => balance ops' + 1
  | Pop :: ops' => balance ops' - 1
  end.

(** [T] is the type of some call of the program. *)
Fixpoint mentions (T : tyid) (a : action) : bool :=
  match a with
  | CreateInstance T' _ body | LazyInstance T' _ body
  | DestructInstance T' body =>
      bool_decide (T = T') || existsb (mentions T) body
  | GetInstance T' | GetInstanceDuringBuilding T' => bool_decide (T = T')
  end.


(** [m], run from a good state with room for [h] levels, leaves every
    mutex as it found it when it returns. *)
Definition balanced (h : nat) (m : M unit) : Prop :=
  forall w w', good w -> s_construct_stack_size w + Z.of_nat h <= INT_MAX ->
    m w = Ok tt w' ->
    forall T, mutex (the_helper T w') = mutex (the_helper T w).

(** Induction on a tree of constructions, with the hypothesis for the
    nested constructions. *)
Section ctree_induction.
Variable P : ctree -> Prop.
Hypothesis HNode : forall data nested, Forall P nested -> P (CNode data nested).

Fixpoint ctree_nested_ind (t : ctree) : P t :=
  match t with
  | CNode data nested =>
      HNode data nested
        ((fix all (l : list ctree) : Forall P l :=
            match l with
            | [] => Forall_nil_2 P
            | t' :: l' => Forall_cons_2 P t' l' (ctree_nested_ind t') (all l')
            end) nested)
  end.
End ctree_induction.

(** * Properties *)

(** ** The operations as functions of the state *)

Lemma World_eta (w : World) :
  mkWorld (helpers w) (s_classes_under_construction w)
          (s_construct_stack_size w) (stderr w) (postConstruction_calls w)
          (m_container w) (m_registered_in_collector w)
          (live_entries w) (allocated w) = w.
Proof. by destruct w. Qed.

Lemma for_each_nil {A} (body : A -> M unit) : for_each [] body = ret tt.
Proof. reflexivity. Qed.

Lemma for_each_cons {A} (x : A) l (body : A -> M unit) :
  for_each (x :: l) body = (body x ;; for_each l body).
Proof. reflexivity. Qed.

Lemma the_wrapper_present T w p :
  raw_pointer (the_wrapper T w) = Some p ->
  exists h, helpers w !! T = Some h.
Proof.
  unfold the_wrapper, the_helper.
  destruct (helpers w !! T) as [h|]; [eauto | discriminate].
Qed.

Lemma the_helper_init T T' w :
  the_helper T' (init_helper T w) = the_helper T' w.
Proof.
  unfold the_helper, init_helper; cbn.
  destruct (helpers w !! T) eqn:E; [done|].
  destruct (decide (T = T')) as [<-|Hne].
  - by rewrite lookup_insert_eq, E.
  - by rewrite lookup_insert_ne.
Qed.

Lemma the_wrapper_init T T' w :
  the_wrapper T' (init_helper T w) = the_wrapper T' w.
Proof. unfold the_wrapper. by rewrite the_helper_init. Qed.

Lemma init_helper_idem T w h :
  helpers w !! T = Some h -> init_helper T w = w.
Proof.
  intros Hh. unfold init_helper, set_helpers. rewrite Hh. apply World_eta.
Qed.

Lemma the_wrapper_update_eq T f w :
  the_wrapper T (update_wrapper T f w) = f (the_wrapper T w).
Proof.
  unfold the_wrapper at 1, the_helper, update_wrapper; cbn.
  by rewrite lookup_insert_eq.
Qed.

Lemma the_wrapper_update_ne T T' f w :
  T <> T' -> the_wrapper T' (update_wrapper T f w) = the_wrapper T' w.
Proof.
  intros Hne. unfold the_wrapper, the_helper, update_wrapper; cbn.
  by rewrite lookup_insert_ne.
Qed.

Lemma mutex_update_wrapper T T' f w :
  mutex (the_helper T' (update_wrapper T f w)) = mutex (the_helper T' w).
Proof.
  unfold the_helper at 1, update_wrapper; cbn.
  destruct (decide (T = T')) as [<-|Hne].
  - by rewrite lookup_insert_eq.
  - by rewrite lookup_insert_ne.
Qed.

Lemma the_wrapper_update_mutex T T' b w :
  the_wrapper T' (update_mutex T b w) = the_wrapper T' w.
Proof.
  unfold the_wrapper at 1, the_helper at 1, update_mutex; cbn.
  destruct (decide (T = T')) as [<-|Hne].
  - by rewrite lookup_insert_eq.
  - by rewrite lookup_insert_ne.
Qed.

Lemma mutex_update_mutex_eq T b w :
  mutex (the_helper T (update_mutex T b w)) = b.
Proof.
  unfold the_helper, update_mutex; cbn. by rewrite lookup_insert_eq.
Qed.

Lemma mutex_update_mutex_ne T T' b w :
  T <> T' ->
  mutex (the_helper T' (update_mutex T b w)) = mutex (the_helper T' w).
Proof.
  intros Hne. unfold the_helper, update_mutex; cbn. by rewrite lookup_insert_ne.
Qed.

Lemma construct_eq T data ctor w :
  construct T data ctor w =
  match push data (begin_construct T data w) with
  | Ok _ w1 =>
      match ctor w1 with
      | Ok _ w2 => pop (end_construct T data w2)
      | AssertFail w2 => AssertFail w2
      | Undefined => Undefined
      end
  | AssertFail w1 => AssertFail w1
  | Undefined => Undefined
  end.
Proof.
  unfold construct, bind at 1, malloc, modify at 1.
  unfold bind at 1, set_raw_pointer at 1, modify at 1.
  fold (begin_construct T data w).
  unfold bind at 1. destruct (push data _) as [[] w1|w1|]; [|done..].
  unfold bind at 1. destruct (ctor w1) as [[] w2|w2|]; [|done..].
  unfold bind, set_raw_pointer, set_initialized, modify, gets, fprintf_stderr.
  rewrite the_wrapper_update_eq. done.
Qed.

Lemma createInstance_eq T data ctor w :
  createInstance T data ctor w =
  match raw_pointer (the_wrapper T w) with
  | Some _ => AssertFail (init_helper T w)
  | None =>
      if mutex (the_helper T w) then Undefined
      else match construct T data ctor (update_mutex T true (init_helper T w)) with
           | Ok _ w' =>
               if mutex (the_helper T w')
               then Ok (the_wrapper T w') (update_mutex T false w')
               else Undefined
           | AssertFail w' => AssertFail w'
           | Undefined => Undefined
           end
  end.
Proof.
  cbv [createInstance bind Helper modify gets cassert lock unlock].
  rewrite the_wrapper_init.
  destruct (raw_pointer (the_wrapper T w)) as [p|] eqn:Hp.
  { by rewrite bool_decide_eq_false_2. }
  rewrite bool_decide_eq_true_2 by done. rewrite the_helper_init.
  destruct (mutex (the_helper T w)); [done|].
  rewrite the_wrapper_update_mutex, the_wrapper_init, Hp.
  rewrite bool_decide_eq_true_2 by done.
  destruct (construct _ _ _ _) as [[] w'|w'|]; [|done..].
  destruct (mutex (the_helper T w')); [|done].
  by rewrite the_wrapper_update_mutex.
Qed.

Lemma Instance_eq T data ctor w :
  Instance T data ctor w =
  match raw_pointer (the_wrapper T w) with
  | Some _ => Ok (the_wrapper T w) (init_helper T w)
  | None =>
      if mutex (the_helper T w) then Undefined
      else match construct T data ctor (update_mutex T true (init_helper T w)) with
           | Ok _ w' =>
               if mutex (the_helper T w')
               then Ok (the_wrapper T w') (update_mutex T false w')
               else Undefined
           | AssertFail w' => AssertFail w'
           | Undefined => Undefined
           end
  end.
Proof.
  cbv [Instance bind Helper modify gets lock unlock ret].
  rewrite the_wrapper_init.
  destruct (raw_pointer (the_wrapper T w)) as [p|] eqn:Hp.
  { rewrite bool_decide_eq_false_2 by done. by rewrite the_wrapper_init. }
  rewrite bool_decide_eq_true_2 by done. rewrite the_helper_init.
  destruct (mutex (the_helper T w)); [done|].
  rewrite the_wrapper_update_mutex, the_wrapper_init, Hp.
  rewrite bool_decide_eq_true_2 by done.
  destruct (construct _ _ _ _) as [[] w'|w'|]; [|done..].
  destruct (mutex (the_helper T w')); [|done].
  by rewrite the_wrapper_update_mutex.
Qed.

Lemma Singleton_dtor_eq T w :
  Singleton_dtor T w =
  if initialized (the_wrapper T w) then
    if mutex (the_helper T w) then Undefined
    else Ok tt (update_mutex T false
                  (update_wrapper T (with_raw_pointer None)
                     (update_wrapper T (with_initialized false)
                        (update_mutex T true (init_helper T w)))))
  else AssertFail (init_helper T w).
Proof.
  cbv [Singleton_dtor bind Helper modify gets cassert lock unlock
    set_initialized set_raw_pointer].
  rewrite the_wrapper_init.
  destruct (initialized (the_wrapper T w)) eqn:Hi; [|done].
  rewrite the_helper_init.
  destruct (mutex (the_helper T w)); [done|].
  rewrite the_wrapper_update_mutex, the_wrapper_init, Hi.
  by rewrite !mutex_update_wrapper, mutex_update_mutex_eq.
Qed.

Lemma destructInstance_eq T dtor w :
  destructInstance T dtor w =
  if bool_decide (raw_pointer (the_wrapper T w) <> None) &&
     initialized (the_wrapper T w)
  then match dtor (init_helper T w) with
       | Ok _ w1 =>
           match Singleton_dtor T w1 with
           | Ok _ w2 => Ok tt (freed T (raw_pointer (the_wrapper T w)) w2)
           | AssertFail w2 => AssertFail w2
           | Undefined => Undefined
           end
       | AssertFail w1 => AssertFail w1
       | Undefined => Undefined
       end
  else AssertFail (init_helper T w).
Proof.
  cbv [destructInstance bind Helper modify gets cassert operator_delete].
  rewrite the_wrapper_init. destruct (_ && _); [|done].
  destruct (dtor _) as [[] w1|w1|]; [|done..].
  by destruct (Singleton_dtor T w1) as [[] w2|w2|].
Qed.

Lemma getInstance_eq T w :
  getInstance T w =
  if bool_decide (raw_pointer (the_wrapper T w) <> None) &&
     initialized (the_wrapper T w)
  then Ok (raw_pointer (the_wrapper T w)) (init_helper T w)
  else AssertFail (init_helper T w).
Proof.
  cbv [getInstance bind Helper modify gets cassert].
  rewrite the_wrapper_init. destruct (_ && _); [|done].
  cbv beta iota. by rewrite the_wrapper_init.
Qed.

Lemma getInstanceDuringBuilding_eq T w :
  getInstanceDuringBuilding T w =
  if bool_decide (raw_pointer (the_wrapper T w) <> None) &&
     negb (initialized (the_wrapper T w))
  then Ok (raw_pointer (the_wrapper T w)) (init_helper T w)
  else AssertFail (init_helper T w).
Proof.
  cbv [getInstanceDuringBuilding bind Helper modify gets cassert].
  rewrite the_wrapper_init. destruct (_ && _); [|done].
  cbv beta iota. by rewrite the_wrapper_init.
Qed.

Lemma init_helper_occupied T w p :
  raw_pointer (the_wrapper T w) = Some p -> init_helper T w = w.
Proof.
  intros Hp. destruct (the_wrapper_present _ _ _ Hp) as [h Hh].
  by eapply init_helper_idem.
Qed.

(** ** The coordinator *)

Lemma dangling_nil w :
  dangling w = [] <->
  forall i, (i < length (s_classes_under_construction w))%nat ->
            i ∈ live_entries w.
Proof.
  unfold dangling. split.
  - intros H i Hi. destruct (decide (i ∈ live_entries w)) as [|Hn]; [done|].
    exfalso. apply (filter_nil_not_elem_of _ _ i H Hn), elem_of_seq. lia.
  - intros H.
    destruct (filter _ _) as [|i l] eqn:E; [done|]. exfalso.
    assert (Hi : i ∈ filter (fun i => i ∉ live_entries w)
                   (seq 0 (length (s_classes_under_construction w))))
      by (rewrite E; left).
    apply list_elem_of_filter in Hi as [Hn Hi%elem_of_seq].
    apply Hn, H. lia.
Qed.

Lemma dangling_ext w w' :
  s_classes_under_construction w' = s_classes_under_construction w ->
  live_entries w' = live_entries w ->
  dangling w' = dangling w.
Proof. unfold dangling. by intros -> ->. Qed.

Lemma for_each_postConstruction_from k l w :
  for_each (imap (fun i => pair (k + i)%nat) l)
           (fun e => postConstruction e.1 e.2) w =
  if bool_decide (Forall (fun i => i ∈ live_entries w) (seq k (length l)))
  then Ok tt (set_calls (postConstruction_calls w ++ l) w)
  else Undefined.
Proof.
  revert k w. induction l as [|p l IH]; intros k w.
  - cbn. unfold ret, set_calls. by rewrite app_nil_r, World_eta.
  - cbn [imap length seq]. rewrite for_each_cons.
    unfold bind at 1, postConstruction at 1, bind, gets; cbn [fst snd].
    rewrite Nat.add_0_r.
    destruct (decide (k ∈ live_entries w)) as [Hk|Hk].
    + rewrite (bool_decide_eq_true_2 _ Hk). unfold modify.
      rewrite (imap_ext _ (fun i => pair (S k + i)%nat) l)
        by (intros; cbn; f_equal; lia).
      rewrite IH. cbn [live_entries set_calls postConstruction_calls].
      destruct (decide (Forall (fun i => i ∈ live_entries w)
                               (seq (S k) (length l)))) as [Hl|Hl].
      * rewrite !bool_decide_eq_true_2 by (done || by constructor).
        unfold set_calls; cbn. by rewrite <- app_assoc.
      * rewrite !bool_decide_eq_false_2; [done| |done].
        by intros [_ ?]%Forall_cons.
    + rewrite (bool_decide_eq_false_2 _ Hk). unfold undefined.
      rewrite bool_decide_eq_false_2; [done|]. by intros [? _]%Forall_cons.
Qed.

Lemma for_each_postConstruction w :
  for_each (imap pair (s_classes_under_construction w))
           (fun e => postConstruction e.1 e.2) w =
  if bool_decide (dangling w = [])
  then Ok tt (set_calls (postConstruction_calls w ++
                         s_classes_under_construction w) w)
  else Undefined.
Proof.
  rewrite (for_each_postConstruction_from 0).
  assert (Hiff : Forall (fun i => i ∈ live_entries w)
                   (seq 0 (length (s_classes_under_construction w)))
                 <-> dangling w = []).
  { rewrite dangling_nil, Forall_forall. split.
    - intros H i Hi. apply H, elem_of_seq. lia.
    - intros H i Hi%elem_of_seq. apply H. lia. }
  by rewrite (bool_decide_ext _ _ Hiff).
Qed.

Lemma push_eq pointer w :
  push pointer w =
  if bool_decide (s_construct_stack_size w = INT_MAX) then Undefined
  else Ok tt (pushed pointer w).
Proof.
  unfold push, bind, gets. by destruct (bool_decide _).
Qed.

Lemma pop_eq w :
  pop w =
  if bool_decide (s_construct_stack_size w > 0) then
    if bool_decide (s_construct_stack_size w - 1 = 0) then
      if bool_decide (dangling w = []) then
        Ok tt (set_live_entries ∅
                 (set_classes []
                    (set_calls (postConstruction_calls w ++
                                s_classes_under_construction w)
                       (set_stack_size 0 w))))
      else Undefined
    else Ok tt (set_stack_size (s_construct_stack_size w - 1) w)
  else AssertFail w.
Proof.
  unfold pop, bind, gets, cassert, modify.
  destruct (bool_decide (_ > 0)); [|done].
  destruct (bool_decide (_ = 0)) eqn:E; [|done].
  apply bool_decide_eq_true in E. rewrite E.
  change (s_classes_under_construction (set_stack_size 0 w))
    with (s_classes_under_construction w).
  pose proof (for_each_postConstruction (set_stack_size 0 w)) as H.
  cbn [s_classes_under_construction set_stack_size] in H. rewrite H.
  rewrite (dangling_ext w (set_stack_size 0 w)) by done.
  by destruct (bool_decide (dangling w = [])).
Qed.

Lemma push_inv pointer w w' :
  coordinator_inv w -> push pointer w = Ok tt w' -> coordinator_inv w'.
Proof.
  intros [Hr Hq]. rewrite push_eq. case_bool_decide; [done|].
  intros [= <-]. unfold coordinator_inv; cbn. lia.
Qed.

Lemma pop_inv w :
  coordinator_inv w ->
  match pop w with
  | Ok _ w' | AssertFail w' => coordinator_inv w'
  | Undefined => dangling w <> []
  end.
Proof.
  intros [Hr Hq]. rewrite pop_eq. unfold coordinator_inv.
  unfold INT_MAX in *.
  repeat case_bool_decide; cbn; try done; (split; [lia|]); try done.
  all: intros H'; first [lia | by elim H'].
Qed.

Lemma dangling_pushed pointer w :
  dangling w = [] -> dangling (pushed pointer w) = [].
Proof.
  rewrite !dangling_nil. cbn. intros H i. rewrite length_app; cbn.
  intros Hi. rewrite elem_of_union, elem_of_singleton.
  destruct (decide (i = length (s_classes_under_construction w)));
    [by left | right; apply H; lia].
Qed.

Lemma initial_world_coordinator_inv : coordinator_inv initial_world.
Proof. unfold coordinator_inv, INT_MAX; cbn. split; [lia | done]. Qed.

Lemma pop_drains w w' :
  pop w = Ok tt w' ->
  s_construct_stack_size w' = 0 ->
  s_construct_stack_size w = 1 /\
  s_classes_under_construction w' = [] /\
  postConstruction_calls w' =
    postConstruction_calls w ++ s_classes_under_construction w.
Proof.
  rewrite pop_eq. repeat case_bool_decide; try done.
  - intros [= <-] _; cbn. split; [lia | done].
  - intros [= <-]; cbn. lia.
Qed.

Lemma coord_step_inv o w :
  coordinator_inv w ->
  match run_coord_op o w with
  | Ok _ w' =>
      coordinator_inv w' /\
      s_construct_stack_size w' <= s_construct_stack_size w + 1 /\
      (dangling w = [] -> dangling w' = [])
  | AssertFail w' => coordinator_inv w'
  | Undefined => s_construct_stack_size w = INT_MAX \/ dangling w <> []
  end.
Proof.
  intros Hinv. destruct o as [p|]; cbn [run_coord_op].
  - pose proof (push_inv p w) as Hp. rewrite push_eq in *.
    case_bool_decide; [by left|].
    split; [by eapply Hp|]. split; [cbn; lia | apply dangling_pushed].
  - pose proof (pop_inv w Hinv) as Hp. rewrite pop_eq in *.
    repeat case_bool_decide; try done; [|by right|].
    + split; [done|]. split; [cbn; lia | done].
    + split; [done|]. split; [cbn; lia | done].
Qed.

(** C4: from a state in which the coordinator's invariant holds (the
    depth is a non-negative [int] and the queue is non-empty only at a
    positive depth), every sequence of [push] and [pop] calls ends, or is
    stopped by the assertion of [pop], in a state in which it holds again;
    the sequence leaves defined behaviour only by overflowing the counter,
    or by calling the hook of an object that was queued in the first state
    and whose storage had been freed.  The [pop] that brings the depth
    back to zero calls the hooks of the whole queue and clears it in that
    same call. *)
Theorem coordinator_invariant_preserved (ops : list coord_op) (w : World)
    (Hinv : coordinator_inv w) :
  match for_each ops run_coord_op w with
  | Ok _ w' | AssertFail w' => coordinator_inv w'
  | Undefined =>
      INT_MAX < s_construct_stack_size w + Z.of_nat (length ops) \/
      dangling w <> []
  end /\
  (forall w', pop w = Ok tt w' -> s_construct_stack_size w' = 0 ->
     s_classes_under_construction w' = [] /\
     postConstruction_calls w' =
       postConstruction_calls w ++ s_classes_under_construction w).
Proof.
  split; [| intros w' Hp Hz; by destruct (pop_drains _ _ Hp Hz) as (_ & ? & ?)].
  revert w Hinv. induction ops as [|o ops IH]; intros w Hinv; [done|].
  rewrite for_each_cons. unfold bind.
  pose proof (coord_step_inv o w Hinv) as Hstep.
  destruct (run_coord_op o w) as [[] w1|w1|]; [| done |].
  - destruct Hstep as (Hinv1 & Hle & Hd). specialize (IH _ Hinv1).
    destruct (for_each ops run_coord_op w1); try done.
    destruct IH as [IH|IH]; [left; cbn [length]; lia|].
    right. intros H. by apply IH, Hd.
  - destruct Hstep as [Hstep|Hstep]; [left; cbn [length]; lia | by right].
Qed.

Lemma coordinator_invariant_preserved_witness :
  coordinator_inv initial_world /\
  exists w',
    for_each [Push 1; Push 2; Pop; Pop]%positive run_coord_op initial_world
    = Ok tt w' /\
    coordinator_inv w' /\
    postConstruction_calls w' = [1; 2]%positive.
Proof.
  assert (H0 : coordinator_inv initial_world).
  { unfold coordinator_inv, INT_MAX. simpl. split; [lia | intros H; by elim H]. }
  split; [exact H0|].
  pose proof (coordinator_invariant_preserved
                [Push 1; Push 2; Pop; Pop]%positive initial_world H0) as [H _].
  destruct (for_each _ run_coord_op initial_world) as [[] w'|w'|] eqn:E;
    [| vm_compute in E; discriminate E ..].
  exists w'. split; [reflexivity|]. split; [exact H|].
  vm_compute in E. injection E as <-. reflexivity.
Defined.

(** ** The holder of a singleton *)

Lemma the_helper_ext T w w' :
  helpers w = helpers w' -> the_helper T w = the_helper T w'.
Proof. unfold the_helper. by intros ->. Qed.

Lemma the_wrapper_ext T w w' :
  helpers w = helpers w' -> the_wrapper T w = the_wrapper T w'.
Proof. unfold the_wrapper. by intros ->%(the_helper_ext T). Qed.

Lemma push_helpers pointer w w' :
  push pointer w = Ok tt w' -> helpers w' = helpers w.
Proof. rewrite push_eq. case_bool_decide; [done|]. by intros [= <-]. Qed.

Lemma pop_helpers w w' :
  pop w = Ok tt w' -> helpers w' = helpers w.
Proof. rewrite pop_eq. repeat case_bool_decide; try done; by intros [= <-]. Qed.

Lemma construct_wrapper T data ctor w w' :
  construct T data ctor w = Ok tt w' ->
  the_wrapper T w' = mkPointerWrapper true (Some data).
Proof.
  rewrite construct_eq.
  destruct (push data _) as [[] w1|w1|]; [|done..].
  destruct (ctor w1) as [[] w2|w2|]; [|done..].
  intros Hpop%pop_helpers. rewrite (the_wrapper_ext _ _ _ Hpop).
  unfold end_construct. rewrite the_wrapper_update_eq.
  unfold set_stderr, the_wrapper at 1, the_helper; cbn [helpers].
  fold (the_helper T (update_wrapper T (with_raw_pointer (Some data)) w2)).
  fold (the_wrapper T (update_wrapper T (with_raw_pointer (Some data)) w2)).
  by rewrite the_wrapper_update_eq.
Qed.

Lemma createInstance_wrapper T data ctor w r w' :
  createInstance T data ctor w = Ok r w' ->
  r = mkPointerWrapper true (Some data) /\
  the_wrapper T w' = mkPointerWrapper true (Some data).
Proof.
  rewrite createInstance_eq.
  destruct (raw_pointer (the_wrapper T w)); [done|].
  destruct (mutex (the_helper T w)); [done|].
  destruct (construct _ _ _ _) as [[] w1|w1|] eqn:Hc; [|done..].
  apply construct_wrapper in Hc.
  destruct (mutex (the_helper T w1)); [|done].
  intros [= <- <-]. by rewrite the_wrapper_update_mutex.
Qed.

Lemma Singleton_dtor_wrapper T w w' :
  Singleton_dtor T w = Ok tt w' ->
  the_wrapper T w' = mkPointerWrapper false None.
Proof.
  rewrite Singleton_dtor_eq.
  destruct (initialized (the_wrapper T w)); [|done].
  destruct (mutex (the_helper T w)); [done|].
  intros [= <-].
  by rewrite the_wrapper_update_mutex, !the_wrapper_update_eq.
Qed.

Lemma destructInstance_wrapper T dtor w w' :
  destructInstance T dtor w = Ok tt w' ->
  the_wrapper T w' = mkPointerWrapper false None.
Proof.
  rewrite destructInstance_eq. destruct (_ && _); [|done].
  destruct (dtor _) as [[] w1|w1|]; [|done..].
  destruct (Singleton_dtor T w1) as [[] w2|w2|] eqn:Hs; [|done..].
  intros [= <-]. by apply Singleton_dtor_wrapper in Hs.
Qed.

Lemma getInstance_initialized T w p :
  the_wrapper T w = mkPointerWrapper true (Some p) ->
  getInstance T w = Ok (Some p) w.
Proof.
  intros Hw. rewrite getInstance_eq, Hw; cbn.
  rewrite (init_helper_occupied T w p) by by rewrite Hw. done.
Qed.

Lemma getInstance_empty T w :
  the_wrapper T w = mkPointerWrapper false None ->
  getInstance T w = AssertFail (init_helper T w).
Proof. intros Hw. by rewrite getInstance_eq, Hw. Qed.

(** C2: while the holder of [T] is still as its constructor left it,
    [getInstance] fails its assertion; once [createInstance] has returned,
    [getInstance] returns the address of the one instance and leaves the
    state as it is, so every later call returns that address again; once
    [destructInstance] has returned, [getInstance] fails its assertion
    again. *)
Theorem getInstance_lifecycle (T : tyid) (data : addr) (ctor dtor : M unit)
    (w0 w1 w2 : World) (r : PointerWrapper)
    (Hfresh : the_wrapper T w0 = mkPointerWrapper false None)
    (Hcreate : createInstance T data ctor w0 = Ok r w1)
    (Hdestroy : destructInstance T dtor w1 = Ok tt w2) :
  getInstance T w0 = AssertFail (init_helper T w0) /\
  raw_pointer r = Some data /\
  getInstance T w1 = Ok (Some data) w1 /\
  (getInstance T ;; getInstance T) w1 = Ok (Some data) w1 /\
  getInstance T w2 = AssertFail (init_helper T w2).
Proof.
  destruct (createInstance_wrapper _ _ _ _ _ _ Hcreate) as [-> Hw1].
  pose proof (getInstance_initialized _ _ _ Hw1) as Hget.
  split; [by apply getInstance_empty|].
  split; [done|]. split; [done|].
  split; [unfold bind; by rewrite Hget|].
  apply getInstance_empty. by eapply destructInstance_wrapper.
Qed.

Lemma getInstance_lifecycle_witness :
  exists w1 w2 r,
    getInstance "Config" initial_world =
      AssertFail (init_helper "Config" initial_world) /\
    raw_pointer r = Some 7%positive /\
    getInstance "Config" w1 = Ok (Some 7%positive) w1 /\
    (getInstance "Config" ;; getInstance "Config") w1 = Ok (Some 7%positive) w1 /\
    getInstance "Config" w2 = AssertFail (init_helper "Config" w2).
Proof.
  eexists _, _, _.
  apply (getInstance_lifecycle "Config" 7%positive (ret tt) (ret tt) initial_world).
  - reflexivity.
  - vm_compute. reflexivity.
  - vm_compute. reflexivity.
Defined.

(** C3: a [createInstance] call made while the holder of [T] holds a
    pointer fails its first assertion and leaves the whole state, the
    instance with it, as it was; this is the case of a second call that
    follows a [createInstance] that returned. *)
Theorem createInstance_twice (T : tyid) (d1 d2 : addr) (c1 c2 : M unit)
    (w w1 : World) (r : PointerWrapper)
    (Hfirst : createInstance T d1 c1 w = Ok r w1) :
  createInstance T d2 c2 w1 = AssertFail w1 /\
  the_wrapper T w1 = mkPointerWrapper true (Some d1) /\
  (forall w' p, raw_pointer (the_wrapper T w') = Some p ->
     createInstance T d2 c2 w' = AssertFail w').
Proof.
  assert (Hocc : forall w' p, raw_pointer (the_wrapper T w') = Some p ->
                   createInstance T d2 c2 w' = AssertFail w').
  { intros w' p Hp. rewrite createInstance_eq, Hp.
    by rewrite (init_helper_occupied _ _ _ Hp). }
  destruct (createInstance_wrapper _ _ _ _ _ _ Hfirst) as [_ Hw1].
  split; [|done]. apply (Hocc w1 d1). by rewrite Hw1.
Qed.

Lemma createInstance_twice_witness :
  exists w1,
    createInstance "Config" 9%positive (ret tt) w1 = AssertFail w1 /\
    the_wrapper "Config" w1 = mkPointerWrapper true (Some 7%positive) /\
    (forall w' p, raw_pointer (the_wrapper "Config" w') = Some p ->
       createInstance "Config" 9%positive (ret tt) w' = AssertFail w').
Proof.
  eexists.
  eapply (createInstance_twice "Config" 7%positive 9%positive (ret tt) (ret tt)
            initial_world).
  vm_compute. reflexivity.
Defined.

(** C9: [getInstanceDuringBuilding] returns exactly in the states in which
    the holder of [T] holds a pointer and is not marked initialized; it
    then returns that pointer and changes nothing.  In every other state
    (no pointer, or marked initialized) it fails its assertion. *)
Theorem getInstanceDuringBuilding_exactly (T : tyid) (w : World) :
  (forall p, the_wrapper T w = mkPointerWrapper false (Some p) ->
     getInstanceDuringBuilding T w = Ok (Some p) w) /\
  (raw_pointer (the_wrapper T w) = None \/ initialized (the_wrapper T w) = true ->
     getInstanceDuringBuilding T w = AssertFail (init_helper T w)) /\
  ((exists r w', getInstanceDuringBuilding T w = Ok r w') <->
   raw_pointer (the_wrapper T w) <> None /\ initialized (the_wrapper T w) = false).
Proof.
  rewrite getInstanceDuringBuilding_eq. split; [|split].
  - intros p Hw. rewrite Hw; cbn.
    rewrite (init_helper_occupied T w p) by by rewrite Hw. done.
  - intros [Hn | Hi].
    + rewrite Hn. by rewrite bool_decide_eq_false_2 by (intros H; by apply H).
    + rewrite Hi. by rewrite andb_false_r.
  - split.
    + intros (r & w' & Hr).
      destruct (bool_decide _) eqn:Hd; [|done].
      apply bool_decide_eq_true in Hd.
      destruct (initialized _); [done|]. done.
    + intros [Hn ->]. rewrite bool_decide_eq_true_2 by done. cbn. eauto.
Qed.

(** The state the theorem is about is the one a constructor sees: inside
    the constructor of [A], [getInstanceDuringBuilding] returns the storage
    of [A] and [getInstance] would fail. *)
Example getInstanceDuringBuilding_in_constructor :
  exists r w,
    createInstance "A" 5%positive
      (p <- getInstanceDuringBuilding "A" ;;
       cassert (bool_decide (p = Some 5%positive)))
      initial_world = Ok r w /\
  exists w',
    createInstance "A" 5%positive (getInstance "A" ;; ret tt) initial_world
    = AssertFail w'.
Proof.
  eexists _, _. split; [vm_compute; reflexivity|].
  eexists. vm_compute. reflexivity.
Qed.

(** C10: in a state in which the holder of [T] holds a pointer, [Instance]
    returns the wrapper as it is and leaves the whole state unchanged: the
    holder, the coordinator, the log and every object; nothing is
    allocated or constructed. *)
Theorem Instance_idempotent (T : tyid) (data : addr) (ctor : M unit)
    (w : World) (p : addr)
    (Hp : raw_pointer (the_wrapper T w) = Some p) :
  Instance T data ctor w = Ok (the_wrapper T w) w.
Proof.
  rewrite Instance_eq, Hp. by rewrite (init_helper_occupied _ _ _ Hp).
Qed.

Lemma Instance_idempotent_witness :
  exists r w1,
    createInstance "Config" 7%positive (ret tt) initial_world = Ok r w1 /\
    Instance "Config" 9%positive (createInstance "Other" 11%positive (ret tt) ;; ret tt) w1
    = Ok (the_wrapper "Config" w1) w1.
Proof.
  eexists _, _. split; [vm_compute; reflexivity|].
  apply (Instance_idempotent "Config" 9%positive _ _ 7%positive).
  vm_compute. reflexivity.
Defined.

(** C7: the destructor of the holder of [T], run at process exit, fails
    its assertion when the holder is marked initialized, and returns only
    when the holder is not marked initialized and holds no pointer.  After
    a [createInstance] that returned it fails; after the
    [destructInstance] that follows it returns. *)
Theorem holder_teardown (T : tyid) (data : addr) (ctor dtor : M unit)
    (w0 w1 w2 : World) (r : PointerWrapper)
    (Hcreate : createInstance T data ctor w0 = Ok r w1)
    (Hdestroy : destructInstance T dtor w1 = Ok tt w2) :
  InstanceSafetyHelper_dtor T w1 = AssertFail w1 /\
  InstanceSafetyHelper_dtor T w2 = Ok tt (set_helpers (delete T) w2) /\
  (forall w h, helpers w !! T = Some h ->
     (initialized (wrapper h) = true ->
        InstanceSafetyHelper_dtor T w = AssertFail w) /\
     ((exists w', InstanceSafetyHelper_dtor T w = Ok tt w') <->
      initialized (wrapper h) = false /\ raw_pointer (wrapper h) = None)).
Proof.
  assert (Heq : forall w h, helpers w !! T = Some h ->
            InstanceSafetyHelper_dtor T w =
            if negb (initialized (wrapper h)) &&
               bool_decide (raw_pointer (wrapper h) = None)
            then Ok tt (set_helpers (delete T) w) else AssertFail w).
  { intros w h Hh. cbv [InstanceSafetyHelper_dtor bind gets cassert modify].
    rewrite Hh. by destruct (_ && _). }
  destruct (createInstance_wrapper _ _ _ _ _ _ Hcreate) as [_ Hw1].
  split; [|split].
  - unfold the_wrapper, the_helper in Hw1.
    destruct (helpers w1 !! T) as [h|] eqn:Hh; [|done].
    cbn in Hw1. by rewrite (Heq _ _ Hh), Hw1.
  - pose proof (destructInstance_wrapper _ _ _ _ Hdestroy) as Hw2.
    revert Hdestroy. rewrite destructInstance_eq.
    destruct (_ && _); [|done].
    destruct (dtor _) as [[] w'|w'|]; [|done..].
    rewrite Singleton_dtor_eq.
    destruct (initialized (the_wrapper T w')); [|done].
    destruct (mutex (the_helper T w')); [done|].
    intros [= <-].
    erewrite Heq by (unfold update_mutex; cbn; apply lookup_insert_eq).
    cbn. by rewrite !the_wrapper_update_eq.
  - intros w h Hh. rewrite (Heq _ _ Hh). split.
    + by intros ->.
    + split.
      * intros [w' Hr]. destruct (initialized (wrapper h)); [done|].
        split; [done|]. cbn in Hr. by case_bool_decide.
      * intros [-> ->]. cbn. eauto.
Qed.

Lemma holder_teardown_witness :
  exists w1 w2,
    InstanceSafetyHelper_dtor "Config" w1 = AssertFail w1 /\
    InstanceSafetyHelper_dtor "Config" w2 = Ok tt (set_helpers (delete "Config") w2) /\
    (forall w h, helpers w !! "Config" = Some h ->
       (initialized (wrapper h) = true ->
          InstanceSafetyHelper_dtor "Config" w = AssertFail w) /\
       ((exists w', InstanceSafetyHelper_dtor "Config" w = Ok tt w') <->
        initialized (wrapper h) = false /\ raw_pointer (wrapper h) = None)).
Proof.
  eexists _, _.
  eapply (holder_teardown "Config" 7%positive (ret tt) (ret tt) initial_world).
  - vm_compute. reflexivity.
  - vm_compute. reflexivity.
Defined.

(** ** The holder invariant *)

Lemma holder_inv_ext w w' :
  helpers w = helpers w' -> holder_inv w -> holder_inv w'.
Proof.
  intros He Hinv T. rewrite <- (the_wrapper_ext T _ _ He). apply Hinv.
Qed.

Lemma holder_inv_init T w : holder_inv w -> holder_inv (init_helper T w).
Proof. intros Hinv T'. rewrite the_wrapper_init. apply Hinv. Qed.

Lemma holder_inv_update_mutex T b w :
  holder_inv w -> holder_inv (update_mutex T b w).
Proof. intros Hinv T'. rewrite the_wrapper_update_mutex. apply Hinv. Qed.

Lemma holder_inv_update_wrapper T f w :
  (initialized (f (the_wrapper T w)) = true ->
   occupied (f (the_wrapper T w)) = true) ->
  holder_inv w -> holder_inv (update_wrapper T f w).
Proof.
  intros Hf Hinv T'. destruct (decide (T = T')) as [<-|Hne].
  - by rewrite the_wrapper_update_eq.
  - rewrite the_wrapper_update_ne by done. apply Hinv.
Qed.

Lemma pop_helpers_all w :
  match pop w with
  | Ok _ w' | AssertFail w' => helpers w' = helpers w
  | Undefined => True
  end.
Proof. rewrite pop_eq. by repeat case_bool_decide. Qed.

Lemma preserves_ret {A} (I : World -> Prop) (a : A) : preserves I (ret a).
Proof. by intros w Hw. Qed.

Lemma preserves_bind {A B} (I : World -> Prop) (m : M A) (k : A -> M B) :
  preserves I m -> (forall a, preserves I (k a)) -> preserves I (bind m k).
Proof.
  intros Hm Hk w Hw. unfold bind. specialize (Hm w Hw).
  destruct (m w) as [a w1|w1|]; [|done..]. by apply Hk.
Qed.

Lemma preserves_for_each {A} (I : World -> Prop) (l : list A) body :
  Forall (fun x => preserves I (body x)) l -> preserves I (for_each l body).
Proof.
  induction 1 as [|x l Hx Hl IH].
  - rewrite for_each_nil. apply preserves_ret.
  - rewrite for_each_cons. apply preserves_bind; [done | by intros _].
Qed.

Lemma the_wrapper_set_stderr T l w :
  the_wrapper T (set_stderr l w) = the_wrapper T w.
Proof. reflexivity. Qed.

Lemma construct_holder_inv T data ctor :
  preserves holder_inv ctor -> preserves holder_inv (construct T data ctor).
Proof.
  intros Hctor w Hw. rewrite construct_eq.
  assert (Hb : holder_inv (begin_construct T data w)).
  { by apply holder_inv_update_wrapper. }
  destruct (push data _) as [[] w1|w1|] eqn:Hpush; [| |done].
  2:{ rewrite push_eq in Hpush. by case_bool_decide. }
  apply push_helpers in Hpush.
  assert (H1 : holder_inv w1) by (eapply holder_inv_ext; [symmetry|]; done).
  specialize (Hctor w1 H1).
  destruct (ctor w1) as [[] w2|w2|]; [|done..].
  assert (He : holder_inv (end_construct T data w2)).
  { unfold end_construct. apply holder_inv_update_wrapper.
    { intros _. rewrite the_wrapper_set_stderr, the_wrapper_update_eq.
      by apply bool_decide_eq_true_2. }
    eapply (holder_inv_ext (update_wrapper T (with_raw_pointer (Some data)) w2));
      [done|].
    by apply holder_inv_update_wrapper. }
  pose proof (pop_helpers_all (end_construct T data w2)) as Hpop.
  destruct (pop _) as [[] w3|w3|]; [| |done];
    (eapply holder_inv_ext; [symmetry; exact Hpop | done]).
Qed.

Lemma createInstance_holder_inv T data ctor :
  preserves holder_inv ctor -> preserves holder_inv (createInstance T data ctor).
Proof.
  intros Hctor w Hw. rewrite createInstance_eq.
  destruct (raw_pointer (the_wrapper T w)); [by apply holder_inv_init|].
  destruct (mutex (the_helper T w)); [done|].
  pose proof (construct_holder_inv T data ctor Hctor
                (update_mutex T true (init_helper T w))) as Hc.
  destruct (construct _ _ _ _) as [[] w1|w1|].
  - destruct (mutex (the_helper T w1)); [|done].
    apply holder_inv_update_mutex, Hc.
    by apply holder_inv_update_mutex, holder_inv_init.
  - by apply Hc, holder_inv_update_mutex, holder_inv_init.
  - done.
Qed.

Lemma Instance_holder_inv T data ctor :
  preserves holder_inv ctor -> preserves holder_inv (Instance T data ctor).
Proof.
  intros Hctor w Hw. rewrite Instance_eq.
  destruct (raw_pointer (the_wrapper T w)); [by apply holder_inv_init|].
  destruct (mutex (the_helper T w)); [done|].
  pose proof (construct_holder_inv T data ctor Hctor
                (update_mutex T true (init_helper T w))) as Hc.
  destruct (construct _ _ _ _) as [[] w1|w1|].
  - destruct (mutex (the_helper T w1)); [|done].
    apply holder_inv_update_mutex, Hc.
    by apply holder_inv_update_mutex, holder_inv_init.
  - by apply Hc, holder_inv_update_mutex, holder_inv_init.
  - done.
Qed.

Lemma Singleton_dtor_holder_inv T : preserves holder_inv (Singleton_dtor T).
Proof.
  intros w Hw. rewrite Singleton_dtor_eq.
  destruct (initialized (the_wrapper T w)); [|by apply holder_inv_init].
  destruct (mutex (the_helper T w)); [done|].
  apply holder_inv_update_mutex.
  apply holder_inv_update_wrapper.
  { by rewrite the_wrapper_update_eq. }
  apply holder_inv_update_wrapper; [done|].
  by apply holder_inv_update_mutex, holder_inv_init.
Qed.

Lemma destructInstance_holder_inv T dtor :
  preserves holder_inv dtor -> preserves holder_inv (destructInstance T dtor).
Proof.
  intros Hdtor w Hw. rewrite destructInstance_eq.
  destruct (_ && _); [|by apply holder_inv_init].
  specialize (Hdtor (init_helper T w) (holder_inv_init T w Hw)).
  destruct (dtor _) as [[] w1|w1|]; [|done..].
  pose proof (Singleton_dtor_holder_inv T w1 Hdtor) as Hs.
  by destruct (Singleton_dtor T w1) as [[] w2|w2|].
Qed.

Lemma getInstance_holder_inv T : preserves holder_inv (getInstance T).
Proof.
  intros w Hw. rewrite getInstance_eq.
  destruct (_ && _); by apply holder_inv_init.
Qed.

Lemma getInstanceDuringBuilding_holder_inv T :
  preserves holder_inv (getInstanceDuringBuilding T).
Proof.
  intros w Hw. rewrite getInstanceDuringBuilding_eq.
  destruct (_ && _); by apply holder_inv_init.
Qed.

Lemma run_holder_inv a : preserves holder_inv (run a).
Proof.
  induction a as [T data ctor IH|T data ctor IH|T|T|T dtor IH]
    using action_nested_ind; cbn [run].
  - apply preserves_bind; [|intros; apply preserves_ret].
    by apply createInstance_holder_inv, preserves_for_each.
  - apply preserves_bind; [|intros; apply preserves_ret].
    by apply Instance_holder_inv, preserves_for_each.
  - apply preserves_bind; [|intros; apply preserves_ret].
    apply getInstance_holder_inv.
  - apply preserves_bind; [|intros; apply preserves_ret].
    apply getInstanceDuringBuilding_holder_inv.
  - by apply destructInstance_holder_inv, preserves_for_each.
Qed.

Lemma initial_world_holder_inv : holder_inv initial_world.
Proof. intros T. unfold the_wrapper, the_helper; cbn. by rewrite lookup_empty. Qed.

(** ** The order of the post-construction hooks *)

Lemma same_coord_refl w : same_coord w w.
Proof. by repeat split. Qed.

Lemma same_coord_init T w : same_coord w (init_helper T w).
Proof. by repeat split. Qed.

Lemma same_coord_update_mutex T b w : same_coord w (update_mutex T b w).
Proof. by repeat split. Qed.

Lemma same_coord_update_wrapper T f w : same_coord w (update_wrapper T f w).
Proof. by repeat split. Qed.

Lemma same_coord_trans w1 w2 w3 :
  same_coord w1 w2 -> same_coord w2 w3 -> same_coord w1 w3.
Proof.
  intros (?&?&?&?) (?&?&?&?). repeat split; congruence.
Qed.

Lemma coordinator_inv_same w w' :
  same_coord w w' -> coordinator_inv w -> coordinator_inv w'.
Proof.
  intros (Hc&Hs&_&_). unfold coordinator_inv. by rewrite Hc, Hs.
Qed.

Lemma coord_rel_same_l f w0 w w' :
  same_coord w0 w -> coord_rel f w w' -> coord_rel f w0 w'.
Proof.
  intros (Hc&Hs&He&Hp) (?&?&?&?&?). unfold coord_rel.
  rewrite <- Hc, <- Hs, <- He, <- Hp. done.
Qed.

Lemma coord_rel_same_r f w w' w1 :
  coord_rel f w w' -> same_coord w' w1 -> coord_rel f w w1.
Proof.
  intros (?&?&?&?&?) Hs. pose proof Hs as (Hc'&Hs'&He'&Hp').
  unfold coord_rel. rewrite Hc', Hs', He', Hp'.
  split; [by eapply coordinator_inv_same|done].
Qed.

Lemma coord_rel_nil w : coordinator_inv w -> coord_rel [] w w.
Proof.
  intros Hinv. unfold coord_rel; cbn. by rewrite !app_nil_r.
Qed.

Lemma coord_rel_app f1 f2 w1 w2 w3 :
  coord_rel f1 w1 w2 -> coord_rel f2 w2 w3 -> coord_rel (f1 ++ f2) w1 w3.
Proof.
  intros (I2&S2&E2&P2&Q2) (I3&S3&E3&P3&Q3). unfold coord_rel.
  rewrite !flat_map_app, fmap_app.
  split; [done|]. split; [congruence|].
  split; [by rewrite E3, E2, <- app_assoc|].
  split; [by rewrite P3, app_assoc, P2, <- !app_assoc|].
  intros Hpos. rewrite Q3, Q2 by lia. done.
Qed.

Lemma traced_for_each (l : list action) :
  Forall (fun a => traced (constructions a) (run a)) l ->
  traced (constructions_all l) (for_each l run).
Proof.
  induction 1 as [|a l Ha Hl IH]; intros w w' Hinv.
  - rewrite for_each_nil. intros [= <-]. exists [].
    split; [constructor | by apply coord_rel_nil].
  - rewrite for_each_cons. unfold bind.
    destruct (run a w) as [[] w1|w1|] eqn:E1; [|done..]. intros E2.
    destruct (Ha _ _ Hinv E1) as (f1 & HF1 & Hf1).
    destruct (IH _ _ (proj1 Hf1) E2) as (f2 & HF2 & Hf2).
    exists (f1 ++ f2). split; [by constructor | by eapply coord_rel_app].
Qed.

Lemma flat_map_postorder_singleton data f :
  flat_map postorder [CNode data f] = flat_map postorder f ++ [data].
Proof. cbn. by rewrite app_nil_r. Qed.

Lemma flat_map_preorder_singleton data f :
  flat_map preorder [CNode data f] = data :: flat_map preorder f.
Proof. cbn. by rewrite app_nil_r. Qed.

Lemma construct_traced F T data ctor w w' :
  traced F ctor -> coordinator_inv w ->
  construct T data ctor w = Ok tt w' ->
  exists f, F f /\ coord_rel [CNode data f] w w'.
Proof.
  intros Hctor Hinv. rewrite construct_eq, push_eq.
  change (s_construct_stack_size (begin_construct T data w))
    with (s_construct_stack_size w).
  change (s_classes_under_construction (begin_construct T data w))
    with (s_classes_under_construction w).
  case_bool_decide as Hmax; [done|].
  set (w1 := pushed _ _).
  destruct (ctor w1) as [[] w2|?|] eqn:Ec; [|done..].
  destruct Hinv as [Hr Hq].
  assert (Hinv1 : coordinator_inv w1).
  { unfold coordinator_inv, w1; cbn. split; [lia | intros _; lia]. }
  destruct (Hctor _ _ Hinv1 Ec) as (f & HF & I2 & S2 & E2 & P2 & Q2).
  unfold w1 in S2, E2, P2, Q2. cbn in S2, E2, P2, Q2.
  specialize (Q2 ltac:(lia)).
  rewrite pop_eq.
  change (s_construct_stack_size (end_construct T data w2))
    with (s_construct_stack_size w2).
  change (s_classes_under_construction (end_construct T data w2))
    with (s_classes_under_construction w2).
  change (postConstruction_calls (end_construct T data w2))
    with (postConstruction_calls w2).
  rewrite S2. rewrite bool_decide_eq_true_2 by lia.
  case_bool_decide as Hz; [case_bool_decide as Hd; [|done]|];
    intros [= <-]; exists f; (split; [done|]);
    unfold coord_rel;
    rewrite flat_map_postorder_singleton, flat_map_preorder_singleton, fmap_app;
    cbn.
  - assert (Hs0 : s_construct_stack_size w = 0) by lia.
    split. { unfold coordinator_inv, INT_MAX; cbn. split; [lia | intros H; by elim H]. }
    split; [lia|].
    split. { by rewrite E2, <- app_assoc. }
    split. { rewrite app_nil_r, P2, <- !app_assoc. done. }
    lia.
  - split. { unfold coordinator_inv; cbn. split; [lia | intros _; lia]. }
    split; [lia|].
    split. { by rewrite E2, <- app_assoc. }
    split. { rewrite P2, <- !app_assoc. done. }
    done.
Qed.

Lemma locked_construct_traced F T data ctor w w1 :
  traced F ctor -> coordinator_inv w ->
  construct T data ctor (update_mutex T true (init_helper T w)) = Ok tt w1 ->
  exists f, F f /\ coord_rel [CNode data f] w (update_mutex T false w1).
Proof.
  intros Hctor Hinv Ec.
  apply (construct_traced F) in Ec as (f & HF & Hf); [|done|].
  - exists f. split; [done|].
    eapply coord_rel_same_r; [|apply same_coord_update_mutex].
    eapply coord_rel_same_l; [|exact Hf].
    eapply same_coord_trans;
      [apply same_coord_init | apply same_coord_update_mutex].
  - eapply coordinator_inv_same; [|exact Hinv].
    eapply same_coord_trans;
      [apply same_coord_init | apply same_coord_update_mutex].
Qed.

Lemma createInstance_traced F T data ctor w r w' :
  traced F ctor -> coordinator_inv w ->
  createInstance T data ctor w = Ok r w' ->
  exists f, F f /\ coord_rel [CNode data f] w w'.
Proof.
  intros Hctor Hinv. rewrite createInstance_eq.
  destruct (raw_pointer (the_wrapper T w)); [done|].
  destruct (mutex (the_helper T w)); [done|].
  destruct (construct _ _ _ _) as [[] w1|w1|] eqn:Ec; [|done..].
  destruct (mutex (the_helper T w1)); [|done]. intros [= <- <-].
  by eapply locked_construct_traced.
Qed.

Lemma Instance_traced F T data ctor w r w' :
  traced F ctor -> coordinator_inv w ->
  Instance T data ctor w = Ok r w' ->
  coord_rel [] w w' \/ exists f, F f /\ coord_rel [CNode data f] w w'.
Proof.
  intros Hctor Hinv. rewrite Instance_eq.
  destruct (raw_pointer (the_wrapper T w)).
  { intros [= <- <-]. left.
    eapply coord_rel_same_r; [by apply coord_rel_nil | apply same_coord_init]. }
  destruct (mutex (the_helper T w)); [done|].
  destruct (construct _ _ _ _) as [[] w1|w1|] eqn:Ec; [|done..].
  destruct (mutex (the_helper T w1)); [|done]. intros [= <- <-].
  right. by eapply locked_construct_traced.
Qed.

Lemma Singleton_dtor_traced T w w' :
  coordinator_inv w -> Singleton_dtor T w = Ok tt w' -> coord_rel [] w w'.
Proof.
  intros Hinv. rewrite Singleton_dtor_eq.
  destruct (initialized (the_wrapper T w)); [|done].
  destruct (mutex (the_helper T w)); [done|]. intros [= <-].
  eapply coord_rel_same_r; [by apply coord_rel_nil|].
  by repeat split.
Qed.

Lemma destructInstance_traced F T dtor :
  traced F dtor -> traced F (destructInstance T dtor).
Proof.
  intros Hdtor w w' Hinv. rewrite destructInstance_eq.
  destruct (_ && _); [|done].
  destruct (dtor _) as [[] w1|w1|] eqn:Ed; [|done..].
  destruct (Singleton_dtor T w1) as [[] w2|w2|] eqn:Es; [|done..].
  intros [= <-].
  apply Hdtor in Ed as (f & HF & Hf);
    [|by eapply coordinator_inv_same; [apply same_coord_init|]].
  apply Singleton_dtor_traced in Es; [|apply Hf].
  exists f. split; [done|].
  eapply coord_rel_same_l; [apply same_coord_init|].
  eapply (coord_rel_same_r _ _ w2); [|by repeat split].
  rewrite <- (app_nil_r f). by eapply coord_rel_app.
Qed.

Lemma run_traced a : traced (constructions a) (run a).
Proof.
  induction a as [T data ctor IH|T data ctor IH|T|T|T dtor IH]
    using action_nested_ind; cbn [run].
  - intros w w' Hinv. unfold bind at 1.
    destruct (createInstance _ _ _ _) as [r w1|w1|] eqn:Ec; [|done..].
    intros [= <-].
    apply (createInstance_traced (constructions_all ctor)) in Ec
      as (f & HF & Hf); [| by apply traced_for_each | done].
    exists [CNode data f]. split; [by constructor | done].
  - intros w w' Hinv. unfold bind at 1.
    destruct (Instance _ _ _ _) as [r w1|w1|] eqn:Ec; [|done..].
    intros [= <-].
    apply (Instance_traced (constructions_all ctor)) in Ec
      as [Hf | (f & HF & Hf)]; [| | by apply traced_for_each | done].
    + exists []. split; [constructor | done].
    + exists [CNode data f]. split; [by constructor | done].
  - intros w w' Hinv. unfold bind. rewrite getInstance_eq.
    destruct (_ && _); [|done]. intros [= <-]. exists [].
    split; [constructor|].
    eapply coord_rel_same_r; [by apply coord_rel_nil | apply same_coord_init].
  - intros w w' Hinv. unfold bind. rewrite getInstanceDuringBuilding_eq.
    destruct (_ && _); [|done]. intros [= <-]. exists [].
    split; [constructor|].
    eapply coord_rel_same_r; [by apply coord_rel_nil | apply same_coord_init].
  - intros w w' Hinv Hrun.
    apply (destructInstance_traced (constructions_all dtor)) in Hrun
      as (f & HF & Hf); [| by apply traced_for_each | done].
    exists f. split; [by constructor | done].
Qed.

(** C1, as stated, fails on the chain in which the constructor of [A]
    creates [B]: the constructor of [B] completes first and that of [A]
    second, and when the depth is back at zero the hook of [A], the
    outermost caller, is called first and the hook of [B] last. *)
Lemma hooks_not_in_completion_order :
  exists w',
    run nested_chain initial_world = Ok tt w' /\
    s_construct_stack_size w' = 0 /\
    stderr w' = [Some 2; Some 1]%positive /\
    postConstruction_calls w' = [1; 2]%positive /\
    last (postConstruction_calls w') <> Some 1%positive /\
    ~ hooks_in_completion_order initial_world w'.
Proof.
  eexists. split; [vm_compute; reflexivity|].
  split; [reflexivity|]. split; [reflexivity|]. split; [reflexivity|].
  split; [by cbn|].
  intros (done_ & He & Hc). cbn in He, Hc. subst done_. discriminate He.
Qed.

(** C1, amended: a [createInstance] call made at depth zero that returns
    leaves the depth at zero and the queue empty, and the hooks called
    during it are those of the object it constructed and of every object
    constructed inside its constructor, each once, in the order in which
    the constructions began (the order of the queue, the pre-order of the
    tree of the calls): the hook of the outermost caller is called first.
    The constructors complete in the post-order of that tree, the
    outermost last. *)
Theorem hooks_run_in_start_order (T : tyid) (data : addr) (ctor : list action)
    (w w' : World) (r : PointerWrapper)
    (Hinv : coordinator_inv w)
    (Hzero : s_construct_stack_size w = 0)
    (Hrun : createInstance T data (for_each ctor run) w = Ok r w') :
  s_construct_stack_size w' = 0 /\
  s_classes_under_construction w' = [] /\
  exists nested : list ctree,
    constructions_all ctor nested /\
    stderr w' = stderr w ++ (Some <$> postorder (CNode data nested)) /\
    postConstruction_calls w' =
      postConstruction_calls w ++ preorder (CNode data nested).
Proof.
  apply (createInstance_traced (constructions_all ctor)) in Hrun
    as (f & HF & I' & S' & E' & P' & _);
    [| apply traced_for_each, Forall_forall; intros a _; apply run_traced
     | done].
  assert (Hq : forall v, coordinator_inv v -> s_construct_stack_size v = 0 ->
                 s_classes_under_construction v = []).
  { intros v [_ Hv] Hv0. destruct (s_classes_under_construction v); [done|].
    specialize (Hv ltac:(done)). lia. }
  rewrite flat_map_postorder_singleton in E'.
  rewrite flat_map_preorder_singleton in P'.
  rewrite (Hq w), (Hq w'), app_nil_r in P' by (done || lia).
  split; [lia|]. split; [apply Hq; [done|lia]|].
  exists f. by split.
Qed.

Lemma hooks_run_in_start_order_witness :
  exists w',
    s_construct_stack_size w' = 0 /\
    s_classes_under_construction w' = [] /\
    exists nested : list ctree,
      constructions_all
        [CreateInstance "B" 2%positive [CreateInstance "C" 3%positive []];
         CreateInstance "D" 4%positive []] nested /\
      stderr w' = stderr initial_world
                    ++ (Some <$> postorder (CNode 1%positive nested)) /\
      postConstruction_calls w' =
        postConstruction_calls initial_world ++ preorder (CNode 1%positive nested).
Proof.
  eexists.
  eapply (hooks_run_in_start_order "A" 1%positive
            [CreateInstance "B" 2%positive [CreateInstance "C" 3%positive []];
             CreateInstance "D" 4%positive []]
            initial_world).
  - unfold coordinator_inv, INT_MAX. simpl. split; [lia | intros H; by elim H].
  - reflexivity.
  - vm_compute. reflexivity.
Defined.

Example hooks_of_a_tree :
  exists w',
    run (CreateInstance "A" 1%positive
           [CreateInstance "B" 2%positive [CreateInstance "C" 3%positive []];
            CreateInstance "D" 4%positive []]) initial_world = Ok tt w' /\
    stderr w' = [Some 3; Some 2; Some 4; Some 1]%positive /\
    postConstruction_calls w' = [1; 2; 3; 4]%positive.
Proof. eexists. split; [vm_compute; reflexivity|]. by split. Qed.

(** ** The collector *)

Lemma Collector_insert_present this c s w :
  m_container w !! this = Some s -> c ∈ s ->
  Collector_insert this c w = AssertFail w.
Proof.
  intros Hs Hin. cbv [Collector_insert bind gets modify cassert ret].
  rewrite Hs. rewrite bool_decide_eq_false_2 by (intros Hn; by apply Hn).
  f_equal. unfold set_containers.
  rewrite (subseteq_union_1_L {[c]} s) by by apply singleton_subseteq_l.
  rewrite insert_id by done. apply World_eta.
Qed.

Lemma Collector_insert_fresh this c s w :
  m_container w !! this = Some s -> c ∉ s ->
  Collector_insert this c w =
  Ok true (set_containers (insert this ({[c]} ∪ s)) w).
Proof.
  intros Hs Hn. cbv [Collector_insert bind gets modify cassert ret].
  rewrite Hs. by rewrite bool_decide_eq_true_2.
Qed.

Lemma Collector_erase_absent this c s w :
  m_container w !! this = Some s -> c ∉ s ->
  Collector_erase this c w = AssertFail w.
Proof.
  intros Hs Hn. cbv [Collector_erase bind gets modify cassert ret].
  rewrite Hs. by rewrite bool_decide_eq_false_2.
Qed.

Lemma Collector_erase_member this c s w :
  m_container w !! this = Some s -> c ∈ s ->
  Collector_erase this c w =
  Ok true (set_containers (insert this (s ∖ {[c]})) w).
Proof.
  intros Hs Hin. cbv [Collector_erase bind gets modify cassert ret].
  rewrite Hs. by rewrite bool_decide_eq_true_2.
Qed.

(** C6: on a collector whose set is [s], [insert] of an element of [s]
    and [erase] of a non-element fail their assertion and leave the state
    as it was; [insert] of a non-element returns and the set is then
    [s] with the element added; [erase] of an element returns and the set
    is then [s] without it. *)
Theorem collector_register_deregister (this c : addr) (s : gset positive)
    (w : World) (Hs : m_container w !! this = Some s) :
  (c ∈ s -> Collector_insert this c w = AssertFail w) /\
  (c ∉ s -> exists w',
     Collector_insert this c w = Ok true w' /\
     m_container w' !! this = Some ({[c]} ∪ s) /\
     size ({[c]} ∪ s) = S (size s)) /\
  (c ∉ s -> Collector_erase this c w = AssertFail w) /\
  (c ∈ s -> exists w',
     Collector_erase this c w = Ok true w' /\
     m_container w' !! this = Some (s ∖ {[c]}) /\
     (c ∉ s ∖ {[c]}) /\
     S (size (s ∖ {[c]})) = size s).
Proof.
  split; [by apply Collector_insert_present|].
  split; [|split; [by apply Collector_erase_absent|]].
  - intros Hn. rewrite (Collector_insert_fresh _ _ _ _ Hs Hn).
    eexists. split; [done|]. cbn. rewrite lookup_insert_eq. split; [done|].
    rewrite size_union by by apply disjoint_singleton_l.
    by rewrite size_singleton.
  - intros Hin. rewrite (Collector_erase_member _ _ _ _ Hs Hin).
    eexists. split; [done|]. cbn. rewrite lookup_insert_eq. split; [done|].
    split; [apply not_elem_of_difference; right; by apply elem_of_singleton|].
    rewrite size_difference by by apply singleton_subseteq_l.
    rewrite size_singleton.
    assert (size s <> 0)%nat; [|lia].
    apply size_non_empty_iff. intros He. rewrite He in Hin.
    by apply not_elem_of_empty in Hin.
Qed.

Lemma collector_register_deregister_witness :
  let w := set_containers (insert 1%positive {[5%positive]}) initial_world in
  let s : gset positive := {[5%positive]} in
  (5%positive ∈ s -> Collector_insert 1%positive 5%positive w = AssertFail w) /\
  (6%positive ∉ s -> exists w',
     Collector_insert 1%positive 6%positive w = Ok true w' /\
     m_container w' !! 1%positive = Some ({[6%positive]} ∪ s) /\
     size ({[6%positive]} ∪ s) = S (size s)) /\
  (6%positive ∉ s -> Collector_erase 1%positive 6%positive w = AssertFail w) /\
  (5%positive ∈ s -> exists w',
     Collector_erase 1%positive 5%positive w = Ok true w' /\
     m_container w' !! 1%positive = Some (s ∖ {[5%positive]}) /\
     (5%positive ∉ s ∖ {[5%positive]}) /\
     S (size (s ∖ {[5%positive]})) = size s).
Proof.
  intros w s.
  pose proof (collector_register_deregister 1%positive 5%positive s w eq_refl)
    as (H1 & _ & _ & H4).
  pose proof (collector_register_deregister 1%positive 6%positive s w eq_refl)
    as (_ & H2 & H3 & _).
  exact (conj H1 (conj H2 (conj H3 H4))).
Defined.

Lemma Instance_Collector Ty cdata w :
  coordinator_inv w ->
  s_construct_stack_size w < INT_MAX ->
  mutex (the_helper (CollectorOf Ty) w) = false ->
  Instance (CollectorOf Ty) cdata (Collector_ctor cdata) w =
  Ok (the_wrapper (CollectorOf Ty) (Instance_state Ty cdata w))
     (Instance_state Ty cdata w).
Proof.
  intros [Hr Hq] Hlt Hm. rewrite Instance_eq. unfold Instance_state.
  destruct (raw_pointer (the_wrapper (CollectorOf Ty) w)) as [c|] eqn:Hp.
  { by rewrite (init_helper_occupied _ _ _ Hp). }
  rewrite Hm, construct_eq, push_eq.
  change (s_construct_stack_size (begin_construct _ _ (update_mutex _ _ (init_helper _ ?v))))
    with (s_construct_stack_size v).
  rewrite bool_decide_eq_false_2 by lia.
  cbv [Collector_ctor modify]. rewrite pop_eq.
  set (b := begin_construct _ _ _).
  set (e := end_construct _ _ _).
  change (s_construct_stack_size e) with (s_construct_stack_size w + 1).
  rewrite bool_decide_eq_true_2 by lia.
  replace (s_construct_stack_size w + 1 - 1) with (s_construct_stack_size w) by lia.
  assert (Hme : forall v, helpers v = helpers e ->
            mutex (the_helper (CollectorOf Ty) v) = true).
  { intros v ->%(the_helper_ext (CollectorOf Ty)). unfold e, end_construct.
    rewrite mutex_update_wrapper.
    change (the_helper (CollectorOf Ty) (set_stderr ?l ?v))
      with (the_helper (CollectorOf Ty) v).
    rewrite mutex_update_wrapper.
    change (the_helper (CollectorOf Ty) (set_containers ?f (pushed ?p ?v)))
      with (the_helper (CollectorOf Ty) v).
    unfold b, begin_construct.
    rewrite mutex_update_wrapper.
    change (the_helper (CollectorOf Ty) (set_allocated ?a ?v))
      with (the_helper (CollectorOf Ty) v).
    by rewrite mutex_update_mutex_eq. }
  case_bool_decide as Hz.
  - rewrite bool_decide_eq_true_2.
    2:{ apply dangling_nil.
        change (s_classes_under_construction e)
          with (s_classes_under_construction w ++ [cdata]).
        change (live_entries e)
          with ({[length (s_classes_under_construction w)]} ∪ live_entries w).
        destruct (decide (s_classes_under_construction w = [])) as [Hn|Hn];
          [|specialize (Hq Hn); lia].
        rewrite Hn. intros i Hi. cbn in Hi.
        apply elem_of_union_l, elem_of_singleton. cbn. lia. }
    rewrite Hme by done. rewrite the_wrapper_update_mutex.
    reflexivity.
  - rewrite Hme by done. by rewrite the_wrapper_update_mutex.
Qed.

Lemma PointerWrapper_eta pw :
  mkPointerWrapper (initialized pw) (raw_pointer pw) = pw.
Proof. by destruct pw. Qed.

Lemma Instance_state_collector Ty cdata w :
  collector_ready Ty w ->
  exists c,
    the_wrapper (CollectorOf Ty) (Instance_state Ty cdata w)
      = mkPointerWrapper true (Some c) /\
    m_container (Instance_state Ty cdata w) !! c = Some (registry Ty w) /\
    mutex (the_helper (CollectorOf Ty) (Instance_state Ty cdata w)) = false /\
    coordinator_inv (Instance_state Ty cdata w) /\
    s_construct_stack_size (Instance_state Ty cdata w) = s_construct_stack_size w /\
    m_registered_in_collector (Instance_state Ty cdata w)
      = m_registered_in_collector w.
Proof.
  intros (Hci & Hlt & Hm & Hp).
  unfold Instance_state, registry.
  destruct (raw_pointer (the_wrapper (CollectorOf Ty) w)) as [c|] eqn:Hc.
  - destruct (Hp c eq_refl) as [Hi [s Hs]]. exists c.
    rewrite Hs. split; [|done].
    by rewrite <- (PointerWrapper_eta (the_wrapper _ w)), Hi, Hc.
  - exists cdata. set (e := end_construct _ _ _).
    assert (He : the_wrapper (CollectorOf Ty) e = mkPointerWrapper true (Some cdata)).
    { unfold e, end_construct. rewrite the_wrapper_update_eq.
      rewrite the_wrapper_set_stderr. by rewrite the_wrapper_update_eq. }
    destruct Hci as [Hr Hq].
    case_bool_decide as Hz.
    + rewrite the_wrapper_update_mutex, mutex_update_mutex_eq.
      split; [exact He|]. split; [cbn; by rewrite lookup_insert_eq|].
      split; [done|].
      split. { unfold coordinator_inv, INT_MAX; cbn. split; [lia | intros H; by elim H]. }
      split; [cbn; lia | done].
    + rewrite the_wrapper_update_mutex, mutex_update_mutex_eq.
      split; [exact He|]. split; [cbn; by rewrite lookup_insert_eq|].
      split; [done|].
      split. { unfold coordinator_inv; cbn. split; [lia | intros _; lia]. }
      split; [cbn; lia | done].
Qed.

Lemma through_Instance_eq {A} Ty cdata (member : addr -> M A) w :
  collector_ready Ty w ->
  exists c,
    through_Instance Ty cdata member w = member c (Instance_state Ty cdata w) /\
    the_wrapper (CollectorOf Ty) (Instance_state Ty cdata w)
      = mkPointerWrapper true (Some c) /\
    m_container (Instance_state Ty cdata w) !! c = Some (registry Ty w).
Proof.
  intros Hready.
  destruct (Instance_state_collector Ty cdata w Hready) as (c & Hw & Hc & _).
  exists c. split; [|done].
  destruct Hready as (Hci & Hlt & Hm & _).
  cbv [through_Instance bind]. rewrite Instance_Collector by done.
  rewrite Hw. done.
Qed.

Lemma collector_ready_same w w' Ty :
  same_coord w w' -> helpers w' = helpers w ->
  (forall c, is_Some (m_container w !! c) -> is_Some (m_container w' !! c)) ->
  collector_ready Ty w -> collector_ready Ty w'.
Proof.
  intros Hsame Hh Hc (Hci & Hlt & Hm & Hp).
  pose proof Hsame as (_ & Hs & _ & _).
  unfold collector_ready.
  rewrite (the_helper_ext _ _ _ Hh), (the_wrapper_ext _ _ _ Hh), Hs.
  split; [by eapply coordinator_inv_same|]. split; [done|]. split; [done|].
  intros c Hcp. destruct (Hp c Hcp). split; [done | by apply Hc].
Qed.

Lemma Instance_state_ready Ty cdata w :
  collector_ready Ty w -> collector_ready Ty (Instance_state Ty cdata w).
Proof.
  intros Hready.
  destruct (Instance_state_collector Ty cdata w Hready)
    as (c & Hw & Hc & Hm & Hci & Hs & _).
  destruct Hready as (_ & Hlt & _ & _).
  unfold collector_ready. rewrite Hw, Hs.
  split; [done|]. split; [done|]. split; [done|].
  intros c' [= <-]. split; [done | by rewrite Hc].
Qed.

Lemma registry_eq Ty w c s :
  the_wrapper (CollectorOf Ty) w = mkPointerWrapper true (Some c) ->
  m_container w !! c = Some s -> registry Ty w = s.
Proof. intros Hw Hc. unfold registry. by rewrite Hw; cbn; rewrite Hc. Qed.

Lemma AutoCollectable_ctor_spec Ty cdata x w :
  collector_inv Ty w -> ~ alive Ty w x ->
  exists w',
    AutoCollectable_ctor Ty cdata x w = Ok tt w' /\
    collector_inv Ty w' /\
    registry Ty w' = {[x]} ∪ registry Ty w /\
    (forall y, alive Ty w' y <-> y = x \/ alive Ty w y).
Proof.
  intros (Hready & Hflags & Hreg) Hx.
  set (w0 := set_registered (insert (Ty, x) false) w).
  assert (Hready0 : collector_ready Ty w0).
  { eapply collector_ready_same; [apply same_coord_refl| | |exact Hready]; done. }
  destruct (through_Instance_eq Ty cdata (fun c => Collector_insert c x) w0 Hready0)
    as (c & Heq & Hw & Hc).
  change (registry Ty w0) with (registry Ty w) in Hc.
  assert (Hxs : x ∉ registry Ty w) by (by rewrite Hreg).
  cbv [AutoCollectable_ctor bind modify]. fold w0. rewrite Heq.
  rewrite (Collector_insert_fresh _ _ _ _ Hc Hxs). cbn [cassert].
  set (w1 := Instance_state Ty cdata w0) in *.
  eexists. split; [reflexivity|].
  set (w3 := set_registered _ _).
  assert (Hm1 : m_registered_in_collector w1 = m_registered_in_collector w0).
  { by destruct (Instance_state_collector Ty cdata w0 Hready0)
      as (? & _ & _ & _ & _ & _ & ?). }
  assert (Hm3 : forall y, m_registered_in_collector w3 !! (Ty, y) =
                  if decide (y = x) then Some true
                  else m_registered_in_collector w !! (Ty, y)).
  { intros y. unfold w3; cbn. rewrite Hm1. unfold w0; cbn.
    case_decide as Hy; [subst y; by rewrite lookup_insert_eq|].
    rewrite !lookup_insert_ne by congruence. done. }
  assert (Hr3 : registry Ty w3 = {[x]} ∪ registry Ty w).
  { apply (registry_eq Ty w3 c); [exact Hw|]. cbn. by rewrite lookup_insert_eq. }
  assert (Ha3 : forall y, alive Ty w3 y <-> y = x \/ alive Ty w y).
  { intros y. unfold alive. rewrite Hm3. case_decide as Hy.
    - split; [by left | eauto].
    - split; [by right | by intros [|]]. }
  split; [|split; [|done]]; [|done].
  split; [|split].
  - eapply (collector_ready_same w1); [done|done| |by apply Instance_state_ready].
    intros c' Hc'. cbn.
    destruct (decide (c = c')) as [<-|Hne];
      [by rewrite lookup_insert_eq | by rewrite lookup_insert_ne].
  - intros y b. rewrite Hm3. case_decide; [congruence | apply Hflags].
  - intros y. rewrite Hr3, Ha3, elem_of_union, elem_of_singleton, Hreg. done.
Qed.

Lemma AutoCollectable_dtor_spec Ty cdata x w :
  collector_inv Ty w -> alive Ty w x ->
  exists w',
    AutoCollectable_dtor Ty cdata x w = Ok tt w' /\
    collector_inv Ty w' /\
    registry Ty w' = registry Ty w ∖ {[x]} /\
    (forall y, alive Ty w' y <-> y <> x /\ alive Ty w y).
Proof.
  intros (Hready & Hflags & Hreg) [b Hb].
  pose proof (Hflags _ _ Hb) as ->.
  destruct (through_Instance_eq Ty cdata (fun c => Collector_erase c x) w Hready)
    as (c & Heq & Hw & Hc).
  assert (Hxs : x ∈ registry Ty w) by (rewrite Hreg; by exists true).
  cbv [AutoCollectable_dtor bind gets]. rewrite Hb, Heq.
  rewrite (Collector_erase_member _ _ _ _ Hc Hxs). cbv [modify].
  set (w1 := Instance_state Ty cdata w) in *.
  eexists. split; [reflexivity|].
  set (w3 := set_registered _ _).
  assert (Hm1 : m_registered_in_collector w1 = m_registered_in_collector w).
  { by destruct (Instance_state_collector Ty cdata w Hready)
      as (? & _ & _ & _ & _ & _ & ?). }
  assert (Hm3 : forall y, m_registered_in_collector w3 !! (Ty, y) =
                  if decide (y = x) then None
                  else m_registered_in_collector w !! (Ty, y)).
  { intros y. unfold w3; cbn. rewrite Hm1.
    case_decide as Hy; [subst y; by rewrite lookup_delete_eq|].
    rewrite lookup_delete_ne, lookup_insert_ne by congruence. done. }
  assert (Hr3 : registry Ty w3 = registry Ty w ∖ {[x]}).
  { apply (registry_eq Ty w3 c); [exact Hw|]. cbn. by rewrite lookup_insert_eq. }
  assert (Ha3 : forall y, alive Ty w3 y <-> y <> x /\ alive Ty w y).
  { intros y. unfold alive. rewrite Hm3. case_decide as Hy.
    - split; [by intros [? ?] | by intros [? _]].
    - split; [done | by intros [_ ?]]. }
  split; [|split; [|done]]; [|done].
  split; [|split].
  - eapply (collector_ready_same w1); [done|done| |by apply Instance_state_ready].
    intros c' Hc'. cbn.
    destruct (decide (c = c')) as [<-|Hne];
      [by rewrite lookup_insert_eq | by rewrite lookup_insert_ne].
  - intros y b. rewrite Hm3. case_decide; [done | apply Hflags].
  - intros y. rewrite Hr3, Ha3, elem_of_difference, elem_of_singleton, Hreg.
    tauto.
Qed.

Lemma members_spec Ty cdata w :
  collector_inv Ty w ->
  exists w',
    members Ty cdata w = Ok (registry Ty w) w' /\
    collector_inv Ty w' /\
    registry Ty w' = registry Ty w.
Proof.
  intros (Hready & Hflags & Hreg).
  destruct (through_Instance_eq Ty cdata Collector_container w Hready)
    as (c & Heq & Hw & Hc).
  unfold members. rewrite Heq. cbv [Collector_container bind gets ret].
  rewrite Hc. eexists. split; [reflexivity|].
  assert (Hr : registry Ty (Instance_state Ty cdata w) = registry Ty w)
    by by apply (registry_eq Ty _ c).
  split; [|done].
  split; [by apply Instance_state_ready|].
  destruct (Instance_state_collector Ty cdata w Hready)
    as (? & _ & _ & _ & _ & _ & Hm).
  unfold alive. rewrite Hr, Hm. done.
Qed.

Lemma new_array_spec Ty cdata objs w :
  collector_inv Ty w -> NoDup objs ->
  (forall x, x ∈ objs -> ~ alive Ty w x) ->
  exists w',
    new_array Ty cdata objs w = Ok tt w' /\
    collector_inv Ty w' /\
    registry Ty w' = list_to_set objs ∪ registry Ty w.
Proof.
  unfold new_array. revert w.
  induction objs as [|x l IH]; intros w Hinv Hnd Hfresh.
  - exists w. rewrite for_each_nil. split; [done|]. split; [done|].
    cbn. by rewrite (left_id_L ∅ (∪)).
  - apply NoDup_cons in Hnd as [Hx Hnd].
    destruct (AutoCollectable_ctor_spec Ty cdata x w Hinv)
      as (w1 & Hrun & Hinv1 & Hreg1 & Halive1).
    { apply Hfresh. by left. }
    destruct (IH w1 Hinv1 Hnd) as (w' & Hrun' & Hinv' & Hreg').
    { intros y Hy. rewrite Halive1. intros [-> | Hal]; [done|].
      apply (Hfresh y); [by right | done]. }
    exists w'. rewrite for_each_cons. unfold bind. rewrite Hrun.
    split; [done|]. split; [done|].
    rewrite Hreg', Hreg1. cbn.
    rewrite (assoc_L (∪)), (comm_L (∪) (list_to_set l) {[x]}). done.
Qed.

Lemma delete_each_spec Ty cdata l w :
  collector_inv Ty w -> NoDup l ->
  (forall x, x ∈ l -> alive Ty w x) ->
  exists w',
    for_each l (AutoCollectable_dtor Ty cdata) w = Ok tt w' /\
    collector_inv Ty w' /\
    registry Ty w' = registry Ty w ∖ list_to_set l.
Proof.
  revert w. induction l as [|x l IH]; intros w Hinv Hnd Hal.
  - exists w. rewrite for_each_nil. split; [done|]. split; [done|].
    cbn. by rewrite difference_empty_L.
  - apply NoDup_cons in Hnd as [Hx Hnd].
    destruct (AutoCollectable_dtor_spec Ty cdata x w Hinv)
      as (w1 & Hrun & Hinv1 & Hreg1 & Halive1).
    { apply Hal. by left. }
    destruct (IH w1 Hinv1 Hnd) as (w' & Hrun' & Hinv' & Hreg').
    { intros y Hy. rewrite Halive1. split; [by intros -> | apply Hal; by right]. }
    exists w'. rewrite for_each_cons. unfold bind. rewrite Hrun.
    split; [done|]. split; [done|].
    rewrite Hreg', Hreg1. cbn. apply set_eq. intros y.
    rewrite !elem_of_difference, elem_of_union. tauto.
Qed.

Lemma initial_world_collector_inv Ty : collector_inv Ty initial_world.
Proof.
  assert (Hw : forall T, the_helper T initial_world = InstanceSafetyHelper_ctor).
  { intros T. unfold the_helper; cbn. by rewrite lookup_empty. }
  split; [|split].
  - unfold collector_ready, the_wrapper. rewrite Hw.
    split; [apply initial_world_coordinator_inv|].
    split; [by unfold INT_MAX|]. by split.
  - intros x b. cbn. by rewrite lookup_empty.
  - intros x. unfold registry, alive, the_wrapper. rewrite Hw. cbn.
    rewrite lookup_empty. split; [by intros ?%not_elem_of_empty | by intros [? ?]].
Qed.

(** C5: in a state in which the registry of [Ty] holds exactly the live
    instances and none is alive, constructing the instances at the
    distinct addresses [objs] (an array or not, of any length, zero too)
    returns, and the registry then holds exactly [objs], as many members
    as instances.  Destroying one of them returns, removes that address and
    no other, and the count is one less.  Destroying them all, in the
    order of [delete[]], returns and leaves the registry empty.  In each
    of these states the registry, a set, holds exactly the live
    instances. *)
Theorem registry_tracks_instances (Ty : tyid) (cdata : addr) (objs : list addr)
    (w : World)
    (Hinv : collector_inv Ty w)
    (Hnone : forall x, ~ alive Ty w x)
    (Hdistinct : NoDup objs) :
  exists w1,
    new_array Ty cdata objs w = Ok tt w1 /\
    collector_inv Ty w1 /\
    (exists w1', members Ty cdata w1 = Ok (list_to_set objs) w1') /\
    size (list_to_set objs : gset positive) = length objs /\
    (forall x, x ∈ objs ->
       exists w2,
         AutoCollectable_dtor Ty cdata x w1 = Ok tt w2 /\
         collector_inv Ty w2 /\
         (exists w2', members Ty cdata w2 = Ok (list_to_set objs ∖ {[x]}) w2') /\
         S (size (list_to_set objs ∖ {[x]} : gset positive)) = length objs /\
         (forall y, y ∈ (list_to_set objs ∖ {[x]} : gset positive) <->
                    y ∈ objs /\ y <> x)) /\
    (exists w3,
       delete_array Ty cdata objs w1 = Ok tt w3 /\
       collector_inv Ty w3 /\
       (forall y, ~ alive Ty w3 y) /\
       exists w3', members Ty cdata w3 = Ok ∅ w3').
Proof.
  assert (Hr0 : registry Ty w = ∅).
  { apply set_eq. intros y. destruct Hinv as (_ & _ & Hreg). rewrite Hreg.
    split; [by intros ?%Hnone | by intros ?%not_elem_of_empty]. }
  destruct (new_array_spec Ty cdata objs w Hinv Hdistinct)
    as (w1 & Hrun & Hinv1 & Hreg1); [by intros x _|].
  rewrite Hr0, (right_id_L ∅ (∪)) in Hreg1.
  assert (Halive1 : forall x, x ∈ objs -> alive Ty w1 x).
  { intros x Hx. destruct Hinv1 as (_ & _ & Hreg). rewrite <- Hreg, Hreg1.
    by apply elem_of_list_to_set. }
  assert (Hsize : size (list_to_set objs : gset positive) = length objs)
    by by apply size_list_to_set.
  exists w1. split; [done|]. split; [done|].
  split. { destruct (members_spec Ty cdata w1 Hinv1) as (w1' & Hm & _).
           rewrite Hreg1 in Hm. eauto. }
  split; [done|]. split.
  - intros x Hx.
    destruct (AutoCollectable_dtor_spec Ty cdata x w1 Hinv1 (Halive1 x Hx))
      as (w2 & Hrun2 & Hinv2 & Hreg2 & _).
    rewrite Hreg1 in Hreg2.
    exists w2. split; [done|]. split; [done|].
    split. { destruct (members_spec Ty cdata w2 Hinv2) as (w2' & Hm & _).
             rewrite Hreg2 in Hm. eauto. }
    split.
    + rewrite size_difference
        by (apply singleton_subseteq_l; by apply elem_of_list_to_set).
      rewrite size_singleton, Hsize.
      assert (length objs <> 0)%nat; [|lia].
      destruct objs; [by apply not_elem_of_nil in Hx | done].
    + intros y. rewrite elem_of_difference, elem_of_singleton.
      by rewrite elem_of_list_to_set.
  - destruct (delete_each_spec Ty cdata (reverse objs) w1 Hinv1)
      as (w3 & Hrun3 & Hinv3 & Hreg3).
    { by rewrite reverse_Permutation. }
    { intros x Hx. apply Halive1. by apply elem_of_reverse. }
    assert (Hr3 : registry Ty w3 = ∅).
    { rewrite Hreg3, Hreg1. apply set_eq. intros y.
      rewrite elem_of_difference, !elem_of_list_to_set, elem_of_reverse.
      split; [tauto | by intros ?%not_elem_of_empty]. }
    exists w3. split; [done|]. split; [done|]. split.
    + intros y Hy. destruct Hinv3 as (_ & _ & Hreg). rewrite <- Hreg, Hr3 in Hy.
      by apply not_elem_of_empty in Hy.
    + destruct (members_spec Ty cdata w3 Hinv3) as (w3' & Hm & _).
      rewrite Hr3 in Hm. eauto.
Qed.

Lemma registry_tracks_instances_witness :
  exists w1,
    new_array "IntItem" 100%positive [1; 2; 3; 4; 5; 6; 7; 8; 9; 10]%positive
      initial_world = Ok tt w1 /\
    (exists w1', members "IntItem" 100%positive w1
                 = Ok (list_to_set [1; 2; 3; 4; 5; 6; 7; 8; 9; 10]%positive) w1') /\
    exists w3,
      delete_array "IntItem" 100%positive [1; 2; 3; 4; 5; 6; 7; 8; 9; 10]%positive w1
      = Ok tt w3 /\
      exists w3', members "IntItem" 100%positive w3 = Ok ∅ w3'.
Proof.
  destruct (registry_tracks_instances "IntItem" 100%positive
              [1; 2; 3; 4; 5; 6; 7; 8; 9; 10]%positive initial_world)
    as (w1 & Hnew & _ & Hm & _ & _ & (w3 & Hdel & _ & _ & Hm3)).
  - apply initial_world_collector_inv.
  - intros x [b Hb]. vm_compute in Hb. discriminate Hb.
  - apply (bool_decide_unpack _). vm_compute. exact I.
  - exists w1. split; [exact Hnew|]. split; [exact Hm|].
    exists w3. split; [exact Hdel | exact Hm3].
Defined.

(** ** Defined behaviour of client programs *)

Lemma the_helper_update_wrapper_eq T f w :
  the_helper T (update_wrapper T f w) =
  mkHelper (f (the_wrapper T w)) (mutex (the_helper T w)).
Proof. unfold the_helper at 1, update_wrapper; cbn. by rewrite lookup_insert_eq. Qed.

Lemma the_helper_update_wrapper_ne T T' f w :
  T <> T' -> the_helper T' (update_wrapper T f w) = the_helper T' w.
Proof.
  intros Hne. unfold the_helper, update_wrapper; cbn. by rewrite lookup_insert_ne.
Qed.

Lemma the_helper_update_mutex_eq T b w :
  the_helper T (update_mutex T b w) = mkHelper (the_wrapper T w) b.
Proof. unfold the_helper at 1, update_mutex; cbn. by rewrite lookup_insert_eq. Qed.

Lemma the_helper_update_mutex_ne T T' b w :
  T <> T' -> the_helper T' (update_mutex T b w) = the_helper T' w.
Proof.
  intros Hne. unfold the_helper, update_mutex; cbn. by rewrite lookup_insert_ne.
Qed.

Lemma the_helper_pushed T pointer w :
  the_helper T (pushed pointer w) = the_helper T w.
Proof. reflexivity. Qed.

Lemma the_helper_freed T T' p w :
  the_helper T' (freed T p w) = the_helper T' w.
Proof. reflexivity. Qed.

Lemma the_helper_begin_construct_eq T data w :
  the_helper T (begin_construct T data w) =
  mkHelper (with_raw_pointer (Some data) (the_wrapper T w))
           (mutex (the_helper T w)).
Proof. unfold begin_construct. by rewrite the_helper_update_wrapper_eq. Qed.

Lemma the_helper_begin_construct_ne T T' data w :
  T <> T' -> the_helper T' (begin_construct T data w) = the_helper T' w.
Proof.
  intros Hne. unfold begin_construct.
  by rewrite the_helper_update_wrapper_ne.
Qed.

Lemma lock_inv_init T w : lock_inv w -> lock_inv (init_helper T w).
Proof.
  intros Hl T'. unfold under_construction.
  rewrite the_helper_init, the_wrapper_init. apply Hl.
Qed.

Lemma good_init T w : good w -> good (init_helper T w).
Proof.
  intros (Hc & Hh & Hl). split; [|split].
  - by eapply coordinator_inv_same; [apply same_coord_init|].
  - by apply holder_inv_init.
  - by apply lock_inv_init.
Qed.

Lemma keeps_building_init T w : keeps_building w (init_helper T w).
Proof. intros T' _. apply the_helper_init. Qed.

Lemma keeps_building_refl w : keeps_building w w.
Proof. by intros T _. Qed.

Lemma keeps_building_trans w1 w2 w3 :
  keeps_building w1 w2 -> keeps_building w2 w3 -> keeps_building w1 w3.
Proof.
  intros H12 H23 T Hu. rewrite <- (H12 T Hu). apply H23.
  unfold under_construction, the_wrapper in *. by rewrite (H12 T Hu).
Qed.

Lemma defined_run_ret h : defined_run h (ret tt).
Proof. intros w Hg _. split; [done|]. split; [done | apply keeps_building_refl]. Qed.

Lemma defined_run_bind h1 h2 (m1 m2 : M unit) :
  defined_run h1 m1 -> defined_run h2 m2 ->
  defined_run (Nat.max h1 h2) (m1 ;; m2).
Proof.
  intros H1 H2 w Hg Hb. unfold bind.
  specialize (H1 w Hg ltac:(lia)).
  destruct (m1 w) as [[] w1|w1|]; [|done..].
  destruct H1 as (Hg1 & Hs1 & Hk1).
  specialize (H2 w1 Hg1 ltac:(lia)).
  destruct (m2 w1) as [[] w2|w2|]; [|done|lia].
  destruct H2 as (Hg2 & Hs2 & Hk2).
  split; [done|]. split; [lia | by eapply keeps_building_trans].
Qed.

Lemma defined_run_for_each (l : list action) :
  Forall (fun a => defined_run (height a) (run a)) l ->
  defined_run (heights l) (for_each l run).
Proof.
  induction 1 as [|a l Ha Hl IH].
  - rewrite for_each_nil. apply defined_run_ret.
  - rewrite for_each_cons. by apply defined_run_bind.
Qed.

Lemma locked_construct_defined h T data ctor w :
  defined_run h ctor -> good w ->
  raw_pointer (the_wrapper T w) = None ->
  s_construct_stack_size w + Z.of_nat (S h) <= INT_MAX ->
  mutex (the_helper T w) = false /\
  match construct T data ctor (update_mutex T true (init_helper T w)) with
  | Ok _ w1 =>
      mutex (the_helper T w1) = true /\
      good (update_mutex T false w1) /\
      s_construct_stack_size w1 = s_construct_stack_size w /\
      keeps_building w (update_mutex T false w1)
  | AssertFail _ => True
  | Undefined => s_construct_stack_size w = 0
  end.
Proof.
  intros Hctor (Hci & Hhi & Hli) Hp Hb.
  assert (Hm : mutex (the_helper T w) = false).
  { destruct (mutex (the_helper T w)) eqn:E; [|done].
    by destruct (Hli T E) as [? _]. }
  assert (Hi : initialized (the_wrapper T w) = false).
  { destruct (initialized (the_wrapper T w)) eqn:E; [|done].
    specialize (Hhi T E). unfold occupied in Hhi.
    apply bool_decide_eq_true in Hhi. done. }
  split; [done|].
  set (w0 := update_mutex T true (init_helper T w)).
  assert (Hw0 : the_helper T w0 = mkHelper (mkPointerWrapper false None) true).
  { unfold w0. rewrite the_helper_update_mutex_eq, the_wrapper_init.
    by rewrite <- (PointerWrapper_eta (the_wrapper T w)), Hi, Hp. }
  assert (Hw0' : forall T', T <> T' -> the_helper T' w0 = the_helper T' w).
  { intros T' Hne. unfold w0.
    by rewrite the_helper_update_mutex_ne, the_helper_init. }
  rewrite construct_eq, push_eq.
  change (s_construct_stack_size (begin_construct T data w0))
    with (s_construct_stack_size w).
  change (s_classes_under_construction (begin_construct T data w0))
    with (s_classes_under_construction w).
  rewrite bool_decide_eq_false_2 by lia.
  set (w1 := pushed _ _).
  assert (Hw1 : the_helper T w1 = mkHelper (mkPointerWrapper false (Some data)) true).
  { unfold w1.
    change (the_helper T (pushed ?p ?v)) with (the_helper T v).
    unfold begin_construct. rewrite the_helper_update_wrapper_eq.
    unfold the_wrapper.
    change (the_helper T (set_allocated ?a ?v)) with (the_helper T v).
    by rewrite Hw0. }
  assert (Hw1' : forall T', T <> T' -> the_helper T' w1 = the_helper T' w).
  { intros T' Hne. unfold w1.
    change (the_helper T' (pushed ?p ?v)) with (the_helper T' v).
    unfold begin_construct.
    rewrite the_helper_update_wrapper_ne by done.
    change (the_helper T' (set_allocated ?a ?v)) with (the_helper T' v).
    by apply Hw0'. }
  assert (Hg1 : good w1).
  { destruct Hci as [Hr Hq]. split; [|split].
    - unfold coordinator_inv, w1; cbn. split; [lia | intros _; lia].
    - intros T'. unfold the_wrapper. destruct (decide (T = T')) as [<-|Hne].
      + by rewrite Hw1.
      + rewrite (Hw1' _ Hne). apply Hhi.
    - intros T'. unfold under_construction, the_wrapper.
      destruct (decide (T = T')) as [<-|Hne].
      + by rewrite Hw1.
      + rewrite (Hw1' _ Hne). apply Hli. }
  specialize (Hctor w1 Hg1).
  change (s_construct_stack_size w1) with (s_construct_stack_size w + 1) in Hctor.
  specialize (Hctor ltac:(lia)).
  destruct (ctor w1) as [[] w2|w2|]; [|done|].
  2:{ exfalso. change (s_construct_stack_size w1)
        with (s_construct_stack_size w + 1) in Hctor.
      destruct Hci as [Hr _]. lia. }
  destruct Hctor as ((Hci2 & Hhi2 & Hli2) & Hs2 & Hk2).
  assert (Hw2 : the_helper T w2 = mkHelper (mkPointerWrapper false (Some data)) true).
  { rewrite <- Hw1. apply Hk2. unfold under_construction, the_wrapper.
    by rewrite Hw1. }
  set (e := end_construct T data w2).
  assert (He : the_helper T e = mkHelper (mkPointerWrapper true (Some data)) true).
  { unfold e, end_construct. rewrite the_helper_update_wrapper_eq.
    rewrite the_wrapper_set_stderr, the_wrapper_update_eq.
    change (the_helper T (set_stderr ?l ?v)) with (the_helper T v).
    rewrite mutex_update_wrapper. unfold the_wrapper. by rewrite Hw2. }
  assert (He' : forall T', T <> T' -> the_helper T' e = the_helper T' w2).
  { intros T' Hne. unfold e, end_construct.
    rewrite the_helper_update_wrapper_ne by done.
    change (the_helper T' (set_stderr ?l ?v)) with (the_helper T' v).
    by rewrite the_helper_update_wrapper_ne. }
  assert (Hcie : coordinator_inv e) by exact Hci2.
  pose proof (pop_inv e Hcie) as Hpi.
  pose proof (pop_helpers_all e) as Hph.
  assert (Hps : forall w3, pop e = Ok tt w3 ->
                  s_construct_stack_size w3 = s_construct_stack_size w).
  { intros w3. rewrite pop_eq.
    change (s_construct_stack_size e) with (s_construct_stack_size w2).
    rewrite Hs2. change (s_construct_stack_size w1) with (s_construct_stack_size w + 1).
    repeat case_bool_decide; try done; intros [= <-]; cbn; lia. }
  destruct (pop e) as [[] w3|w3|] eqn:Epop.
  2:{ rewrite pop_eq in Epop.
      change (s_construct_stack_size e) with (s_construct_stack_size w2) in Epop.
      rewrite Hs2 in Epop.
      change (s_construct_stack_size w1) with (s_construct_stack_size w + 1) in Epop.
      destruct Hci as [Hr _].
      rewrite bool_decide_eq_true_2 in Epop by lia.
      by repeat case_bool_decide. }
  2:{ rewrite pop_eq in Epop.
      change (s_construct_stack_size e) with (s_construct_stack_size w2) in Epop.
      rewrite Hs2 in Epop.
      change (s_construct_stack_size w1) with (s_construct_stack_size w + 1) in Epop.
      repeat case_bool_decide; try done. lia. }
  assert (Hh3 : forall T', the_helper T' w3 = the_helper T' e)
    by (intros T'; by apply the_helper_ext).
  split; [by rewrite Hh3, He|].
  split; [|split; [by apply Hps|]].
  - split; [|split].
    + by eapply coordinator_inv_same; [apply same_coord_update_mutex|].
    + intros T'. rewrite the_wrapper_update_mutex. unfold the_wrapper.
      rewrite Hh3. destruct (decide (T = T')) as [<-|Hne].
      * by rewrite He.
      * rewrite (He' _ Hne). apply Hhi2.
    + intros T'. unfold under_construction.
      rewrite the_wrapper_update_mutex.
      destruct (decide (T = T')) as [<-|Hne].
      * by rewrite mutex_update_mutex_eq.
      * rewrite mutex_update_mutex_ne by done. unfold the_wrapper.
        rewrite Hh3, (He' _ Hne). apply Hli2.
  - intros T' [Hu1 Hu2].
    assert (Hne : T <> T') by (intros <-; by rewrite Hp in Hu1).
    rewrite the_helper_update_mutex_ne, Hh3, (He' _ Hne) by done.
    rewrite <- (Hw1' _ Hne). apply Hk2.
    unfold under_construction, the_wrapper. by rewrite (Hw1' _ Hne).
Qed.

Lemma createInstance_defined h T data ctor :
  defined_run h ctor ->
  defined_run (S h) (createInstance T data ctor ;; ret tt).
Proof.
  intros Hctor w Hg Hb. unfold bind. rewrite createInstance_eq.
  destruct (raw_pointer (the_wrapper T w)) eqn:Hp; [done|].
  destruct (locked_construct_defined h T data ctor w Hctor Hg Hp Hb) as [-> Hc].
  destruct (construct _ _ _ _) as [[] w1|w1|]; [|done..].
  destruct Hc as (-> & Hg1 & Hs1 & Hk1). by cbn.
Qed.

Lemma Instance_defined h T data ctor :
  defined_run h ctor ->
  defined_run (S h) (Instance T data ctor ;; ret tt).
Proof.
  intros Hctor w Hg Hb. unfold bind. rewrite Instance_eq.
  destruct (raw_pointer (the_wrapper T w)) eqn:Hp.
  { cbn. split; [by apply good_init|]. split; [done | apply keeps_building_init]. }
  destruct (locked_construct_defined h T data ctor w Hctor Hg Hp Hb) as [-> Hc].
  destruct (construct _ _ _ _) as [[] w1|w1|]; [|done..].
  destruct Hc as (-> & Hg1 & Hs1 & Hk1). by cbn.
Qed.

Lemma getInstance_defined T : defined_run 0 (getInstance T ;; ret tt).
Proof.
  intros w Hg _. unfold bind. rewrite getInstance_eq.
  destruct (_ && _); [|done]. cbn.
  split; [by apply good_init|]. split; [done | apply keeps_building_init].
Qed.

Lemma getInstanceDuringBuilding_defined T :
  defined_run 0 (getInstanceDuringBuilding T ;; ret tt).
Proof.
  intros w Hg _. unfold bind. rewrite getInstanceDuringBuilding_eq.
  destruct (_ && _); [|done]. cbn.
  split; [by apply good_init|]. split; [done | apply keeps_building_init].
Qed.

Lemma destructInstance_defined h T dtor :
  defined_run h dtor -> defined_run h (destructInstance T dtor).
Proof.
  intros Hdtor w Hg Hb. rewrite destructInstance_eq.
  destruct (bool_decide _ && _) eqn:Hcond; [|done].
  apply andb_true_iff in Hcond as [_ Hi].
  specialize (Hdtor (init_helper T w) (good_init T w Hg) Hb).
  destruct (dtor _) as [[] w1|w1|]; [|done..].
  destruct Hdtor as ((Hci1 & Hhi1 & Hli1) & Hs1 & Hk1).
  pose proof (Singleton_dtor_holder_inv T w1 Hhi1) as Hhi'.
  rewrite Singleton_dtor_eq in *.
  destruct (initialized (the_wrapper T w1)) eqn:Hi1; [|done].
  destruct (mutex (the_helper T w1)) eqn:Hm1.
  { destruct (Hli1 T Hm1) as [_ Hf]. congruence. }
  set (w' := update_mutex T false _) in *.
  cbv beta iota.
  cut (good w' /\ s_construct_stack_size w' = s_construct_stack_size w /\
       keeps_building w w').
  { intros (Hg' & Hs' & Hk').
    split; [exact Hg'|]. split; [exact Hs' | exact Hk']. }
  assert (Hne : forall T', T <> T' -> the_helper T' w' = the_helper T' w1).
  { intros T' Hne. unfold w'.
    rewrite the_helper_update_mutex_ne, !the_helper_update_wrapper_ne by done.
    by rewrite the_helper_update_mutex_ne, the_helper_init. }
  split; [split; [|split]|split].
  - exact Hci1.
  - exact Hhi'.
  - intros T'. destruct (decide (T = T')) as [<-|Hn].
    + unfold w'. by rewrite mutex_update_mutex_eq.
    + unfold under_construction, the_wrapper. rewrite (Hne _ Hn). apply Hli1.
  - exact Hs1.
  - intros T' [Hu1 Hu2].
    assert (Hn : T <> T') by (intros <-; congruence).
    rewrite (Hne _ Hn), <- (the_helper_init T T' w). apply Hk1.
    unfold under_construction. by rewrite the_wrapper_init.
Qed.

Lemma run_defined a : defined_run (height a) (run a).
Proof.
  induction a as [T data ctor IH|T data ctor IH|T|T|T dtor IH]
    using action_nested_ind; cbn [run height].
  - by apply createInstance_defined, defined_run_for_each.
  - by apply Instance_defined, defined_run_for_each.
  - apply getInstance_defined.
  - apply getInstanceDuringBuilding_defined.
  - by apply destructInstance_defined, defined_run_for_each.
Qed.

Lemma run_all_defined prog : defined_run (heights prog) (for_each prog run).
Proof.
  apply defined_run_for_each, Forall_forall. intros a _. apply run_defined.
Qed.

Lemma initial_world_good : good initial_world.
Proof.
  split; [apply initial_world_coordinator_inv|].
  split; [apply initial_world_holder_inv|].
  intros T. unfold the_helper; cbn. by rewrite lookup_empty.
Qed.

(** ** The test program *)

(** After the run of the test the registry is empty.  The program never
    calls [destructInstance] on the collector, so the destructor of its
    holder fails at exit; after an explicit [destructInstance] it
    returns. *)
Example int_item_test_teardown :
  exists w,
    int_item_test initial_world = Ok tt w /\
    registry "IntItem" w = ∅ /\
    InstanceSafetyHelper_dtor (CollectorOf "IntItem") w = AssertFail w /\
    exists w',
      destructInstance (CollectorOf "IntItem") (Collector_dtor 100%positive) w
      = Ok tt w' /\
      InstanceSafetyHelper_dtor (CollectorOf "IntItem") w'
      = Ok tt (set_helpers (delete (CollectorOf "IntItem")) w').
Proof.
  eexists. split; [vm_compute; reflexivity|].
  split; [vm_compute; reflexivity|].
  split; [vm_compute; reflexivity|].
  eexists. split; vm_compute; reflexivity.
Qed.

(** * Further properties *)

(** ** A construction, step by step *)

Lemma createInstance_runs_ctor T data ctor w :
  raw_pointer (the_wrapper T w) = None ->
  mutex (the_helper T w) = false ->
  s_construct_stack_size w <> INT_MAX ->
  createInstance T data ctor w =
  match ctor (ctor_state T data w) with
  | Ok _ w2 =>
      match pop (end_construct T data w2) with
      | Ok _ w3 =>
          if mutex (the_helper T w3)
          then Ok (the_wrapper T w3) (update_mutex T false w3)
          else Undefined
      | AssertFail w3 => AssertFail w3
      | Undefined => Undefined
      end
  | AssertFail w2 => AssertFail w2
  | Undefined => Undefined
  end.
Proof.
  intros Hp Hm Hs. rewrite createInstance_eq, Hp, Hm, construct_eq, push_eq.
  change (s_construct_stack_size (begin_construct T data (update_mutex T true (init_helper T w))))
    with (s_construct_stack_size w).
  rewrite bool_decide_eq_false_2 by done.
  fold (ctor_state T data w).
  destruct (ctor _) as [[] w2|w2|]; [|done..].
  by destruct (pop _) as [[] w3|w3|].
Qed.

Lemma the_helper_ctor_state_eq T data w :
  the_helper T (ctor_state T data w) =
  mkHelper (mkPointerWrapper (initialized (the_wrapper T w)) (Some data)) true.
Proof.
  unfold ctor_state.
  rewrite the_helper_pushed, the_helper_begin_construct_eq.
  by rewrite the_wrapper_update_mutex, the_wrapper_init, mutex_update_mutex_eq.
Qed.

Lemma the_helper_ctor_state_ne T T' data w :
  T <> T' -> the_helper T' (ctor_state T data w) = the_helper T' w.
Proof.
  intros Hne. unfold ctor_state.
  rewrite the_helper_pushed, the_helper_begin_construct_ne by done.
  rewrite the_helper_update_mutex_ne by done.
  apply the_helper_init.
Qed.

Lemma init_helper_ctor_state T data w :
  init_helper T (ctor_state T data w) = ctor_state T data w.
Proof.
  apply (init_helper_occupied T _ data).
  unfold the_wrapper. by rewrite the_helper_ctor_state_eq.
Qed.

Lemma Instance_on_empty T data ctor w :
  raw_pointer (the_wrapper T w) = None ->
  Instance T data ctor w = createInstance T data ctor w.
Proof. intros Hempty. by rewrite Instance_eq, createInstance_eq, Hempty. Qed.

(** X1: on a holder with no pointer, the lazy accessor [Instance] does
    exactly what [createInstance] does: the same result, the same final
    state, the same failure. *)
Theorem Instance_constructs_as_createInstance (T : tyid) (data : addr)
    (ctor : M unit) (w : World)
    (Hempty : raw_pointer (the_wrapper T w) = None) :
  Instance T data ctor w = createInstance T data ctor w.
Proof. by apply Instance_on_empty. Qed.

Lemma Instance_constructs_as_createInstance_witness :
  Instance "Config" 7%positive (createInstance "Log" 8%positive (ret tt) ;; ret tt)
    initial_world
  = createInstance "Config" 7%positive
      (createInstance "Log" 8%positive (ret tt) ;; ret tt) initial_world.
Proof.
  apply (Instance_constructs_as_createInstance "Config" 7%positive).
  reflexivity.
Defined.

Lemma own_type_in_ctor_state T data w :
  the_wrapper T w = mkPointerWrapper false None ->
  getInstance T (ctor_state T data w) = AssertFail (ctor_state T data w) /\
  getInstanceDuringBuilding T (ctor_state T data w)
    = Ok (Some data) (ctor_state T data w) /\
  (forall d c, createInstance T d c (ctor_state T data w)
               = AssertFail (ctor_state T data w)) /\
  (forall dt, destructInstance T dt (ctor_state T data w)
              = AssertFail (ctor_state T data w)) /\
  (forall d c, Instance T d c (ctor_state T data w)
               = Ok (mkPointerWrapper false (Some data)) (ctor_state T data w)).
Proof.
  intros Hempty.
  assert (Hw : the_wrapper T (ctor_state T data w) = mkPointerWrapper false (Some data)).
  { unfold the_wrapper at 1. by rewrite the_helper_ctor_state_eq, Hempty. }
  rewrite getInstance_eq, getInstanceDuringBuilding_eq.
  split; [|split; [|split; [|split]]].
  - by rewrite Hw, init_helper_ctor_state.
  - by rewrite Hw, init_helper_ctor_state.
  - intros d c. by rewrite createInstance_eq, Hw, init_helper_ctor_state.
  - intros dt. by rewrite destructInstance_eq, Hw, init_helper_ctor_state.
  - intros d c. by rewrite Instance_eq, Hw, init_helper_ctor_state.
Qed.

(** X2: the constructor of [T], run by [createInstance] on an empty holder,
    cannot use [T] through the checked interface: a constructor that starts
    with [getInstance], [createInstance] or [destructInstance] on its own
    type stops [createInstance] at that assertion, in the state in which
    the constructor was entered; only [getInstanceDuringBuilding] returns
    there, with the address of the storage. *)
Theorem own_type_inside_constructor (T : tyid) (data : addr) (w : World)
    (Hempty : the_wrapper T w = mkPointerWrapper false None)
    (Hfree : mutex (the_helper T w) = false)
    (Hroom : s_construct_stack_size w <> INT_MAX) :
  (forall k : M unit,
     createInstance T data (getInstance T ;; k) w
     = AssertFail (ctor_state T data w)) /\
  (forall d c (k : M unit),
     createInstance T data (createInstance T d c ;; k) w
     = AssertFail (ctor_state T data w)) /\
  (forall dt (k : M unit),
     createInstance T data (destructInstance T dt ;; k) w
     = AssertFail (ctor_state T data w)) /\
  getInstanceDuringBuilding T (ctor_state T data w)
    = Ok (Some data) (ctor_state T data w).
Proof.
  destruct (own_type_in_ctor_state T data w Hempty) as (Hg & Hb & Hc & Hd & _).
  assert (Hp : raw_pointer (the_wrapper T w) = None) by by rewrite Hempty.
  split; [|split; [|split]]; [| | |done].
  - intros k. rewrite createInstance_runs_ctor by done.
    unfold bind at 1. by rewrite Hg.
  - intros d c k. rewrite createInstance_runs_ctor by done.
    unfold bind at 1. by rewrite Hc.
  - intros dt k. rewrite createInstance_runs_ctor by done.
    unfold bind at 1. by rewrite Hd.
Qed.

Lemma own_type_inside_constructor_witness :
  createInstance "A" 5%positive (getInstance "A" ;; ret tt) initial_world
  = AssertFail (ctor_state "A" 5%positive initial_world) /\
  getInstanceDuringBuilding "A" (ctor_state "A" 5%positive initial_world)
  = Ok (Some 5%positive) (ctor_state "A" 5%positive initial_world).
Proof.
  destruct (own_type_inside_constructor "A" 5%positive initial_world)
    as (H1 & _ & _ & H4).
  - reflexivity.
  - reflexivity.
  - vm_compute. discriminate.
  - split; [apply H1 | exact H4].
Defined.

(** X3: the recursion check of [PointerWrapper].  The wrapper a returning
    [createInstance] gives dereferences to the instance.  The wrapper
    [Instance] gives inside the constructor of the same type is not marked
    initialized, and dereferencing it stops the construction at the
    assertion of [operator->]. *)
Theorem PointerWrapper_detects_recursion (T : tyid) (data : addr) (w : World)
    (Hempty : the_wrapper T w = mkPointerWrapper false None)
    (Hfree : mutex (the_helper T w) = false)
    (Hroom : s_construct_stack_size w <> INT_MAX) :
  (forall d c (k : option addr -> M unit),
     createInstance T data
       (pw <- Instance T d c ;; p <- PointerWrapper_arrow pw ;; k p) w
     = AssertFail (ctor_state T data w)) /\
  (forall ctor r w',
     createInstance T data ctor w = Ok r w' ->
     PointerWrapper_arrow r w' = Ok (Some data) w').
Proof.
  destruct (own_type_in_ctor_state T data w Hempty) as (_ & _ & _ & _ & Hi).
  assert (Hp : raw_pointer (the_wrapper T w) = None) by by rewrite Hempty.
  split.
  - intros d c k. rewrite createInstance_runs_ctor by done.
    unfold bind at 1. by rewrite Hi.
  - intros ctor r w' Hc.
    by destruct (createInstance_wrapper _ _ _ _ _ _ Hc) as [-> _].
Qed.

Lemma PointerWrapper_detects_recursion_witness :
  createInstance "A" 5%positive
    (pw <- Instance "A" 6%positive (ret tt) ;;
     p <- PointerWrapper_arrow pw ;; ret tt) initial_world
  = AssertFail (ctor_state "A" 5%positive initial_world) /\
  exists r w',
    createInstance "A" 5%positive (ret tt) initial_world = Ok r w' /\
    PointerWrapper_arrow r w' = Ok (Some 5%positive) w'.
Proof.
  destruct (PointerWrapper_detects_recursion "A" 5%positive initial_world)
    as (H1 & H2).
  - reflexivity.
  - reflexivity.
  - vm_compute. discriminate.
  - split; [apply H1|].
    eexists _, _. split; [vm_compute; reflexivity|].
    eapply (H2 (ret tt)). vm_compute. reflexivity.
Defined.

(** X4: the recursion reference of the documentation of
    [PointerWrapper]: the constructor of [A] asks for [B] through
    [Instance], and the constructor of [B] calls [A::getInstance].  With
    both holders empty, the assertion of [getInstance] stops the program
    inside the constructor of [B], with both holders under
    construction. *)
Theorem recursion_reference_detected (A B : tyid) (dA dB : addr)
    (kA kB : M unit) (w : World)
    (Hdiff : A <> B)
    (HemptyA : the_wrapper A w = mkPointerWrapper false None)
    (HemptyB : raw_pointer (the_wrapper B w) = None)
    (HfreeA : mutex (the_helper A w) = false)
    (HfreeB : mutex (the_helper B w) = false)
    (Hroom : s_construct_stack_size w + 1 < INT_MAX) :
  createInstance A dA (Instance B dB (getInstance A ;; kB) ;; kA) w
  = AssertFail (ctor_state B dB (ctor_state A dA w)) /\
  under_construction A (ctor_state B dB (ctor_state A dA w)) /\
  raw_pointer (the_wrapper B (ctor_state B dB (ctor_state A dA w))) = Some dB.
Proof.
  assert (HpA : raw_pointer (the_wrapper A w) = None) by by rewrite HemptyA.
  set (w1 := ctor_state A dA w).
  set (w2 := ctor_state B dB w1).
  assert (HA2 : the_helper A w2 = mkHelper (mkPointerWrapper false (Some dA)) true).
  { unfold w2. rewrite the_helper_ctor_state_ne by done.
    unfold w1. by rewrite the_helper_ctor_state_eq, HemptyA. }
  assert (Hg : getInstance A w2 = AssertFail w2).
  { rewrite getInstance_eq. unfold the_wrapper. rewrite HA2; cbn.
    f_equal. apply (init_helper_occupied A w2 dA).
    unfold the_wrapper. by rewrite HA2. }
  split; [|split].
  - rewrite createInstance_runs_ctor by (done || lia). fold w1.
    unfold bind at 1.
    rewrite Instance_on_empty
      by (unfold the_wrapper, w1; by rewrite the_helper_ctor_state_ne).
    rewrite createInstance_runs_ctor.
    + fold w2. unfold bind at 1. by rewrite Hg.
    + unfold the_wrapper, w1. by rewrite the_helper_ctor_state_ne.
    + unfold w1. by rewrite the_helper_ctor_state_ne.
    + unfold w1, ctor_state; cbn. lia.
  - unfold under_construction, the_wrapper. by rewrite HA2.
  - unfold the_wrapper, w2. by rewrite the_helper_ctor_state_eq.
Qed.

Lemma recursion_reference_detected_witness :
  createInstance "A" 1%positive
    (Instance "B" 2%positive (getInstance "A" ;; ret tt) ;; ret tt) initial_world
  = AssertFail (ctor_state "B" 2%positive (ctor_state "A" 1%positive initial_world)).
Proof.
  apply (recursion_reference_detected "A" "B" 1%positive 2%positive
           (ret tt) (ret tt) initial_world); try reflexivity.
  discriminate.
Defined.

(** ** Destruction and re-creation *)

Lemma dangling_top w :
  coordinator_inv w -> s_construct_stack_size w = 0 -> dangling w = [].
Proof.
  intros [_ Hq] Hz. apply dangling_nil.
  destruct (decide (s_classes_under_construction w = [])) as [->|Hn];
    [cbn; lia | specialize (Hq Hn); lia].
Qed.

Lemma dangling_ctor_state T data w :
  dangling w = [] -> dangling (ctor_state T data w) = [].
Proof.
  intros H. unfold ctor_state. apply dangling_pushed.
  by rewrite (dangling_ext w).
Qed.

Lemma pop_end_construct T data w2 :
  s_construct_stack_size w2 > 0 ->
  (s_construct_stack_size w2 = 1 -> dangling w2 = []) ->
  exists w3,
    pop (end_construct T data w2) = Ok tt w3 /\
    helpers w3 = helpers (end_construct T data w2) /\
    s_construct_stack_size w3 = s_construct_stack_size w2 - 1 /\
    stderr w3 = stderr w2 ++ [Some data] /\
    m_container w3 = m_container w2 /\
    m_registered_in_collector w3 = m_registered_in_collector w2.
Proof.
  intros Hpos Hd. rewrite pop_eq.
  change (s_construct_stack_size (end_construct T data w2))
    with (s_construct_stack_size w2).
  rewrite bool_decide_eq_true_2 by done.
  rewrite (dangling_ext w2 (end_construct T data w2)) by done.
  case_bool_decide as Hz;
    [rewrite bool_decide_eq_true_2 by (apply Hd; lia)|];
    eexists; (split; [reflexivity|]); cbn;
    repeat split; try done; lia.
Qed.

Lemma the_helper_end_construct_eq T data w2 :
  the_helper T (end_construct T data w2) =
  mkHelper (mkPointerWrapper true (Some data)) (mutex (the_helper T w2)).
Proof.
  unfold end_construct. rewrite the_helper_update_wrapper_eq.
  rewrite the_wrapper_set_stderr, the_wrapper_update_eq.
  change (the_helper T (set_stderr ?l ?v)) with (the_helper T v).
  by rewrite mutex_update_wrapper.
Qed.

Lemma the_helper_end_construct_ne T T' data w2 :
  T <> T' -> the_helper T' (end_construct T data w2) = the_helper T' w2.
Proof.
  intros Hne. unfold end_construct.
  rewrite the_helper_update_wrapper_ne by done.
  change (the_helper T' (set_stderr ?l ?v)) with (the_helper T' v).
  by rewrite the_helper_update_wrapper_ne.
Qed.

Lemma createInstance_plain T data w :
  raw_pointer (the_wrapper T w) = None ->
  mutex (the_helper T w) = false ->
  coordinator_inv w ->
  s_construct_stack_size w < INT_MAX ->
  exists w',
    createInstance T data (ret tt) w = Ok (mkPointerWrapper true (Some data)) w' /\
    the_helper T w' = mkHelper (mkPointerWrapper true (Some data)) false /\
    (forall T', T <> T' -> the_helper T' w' = the_helper T' w) /\
    s_construct_stack_size w' = s_construct_stack_size w /\
    stderr w' = stderr w ++ [Some data].
Proof.
  intros Hp Hm Hinv Hlt. pose proof Hinv as [Hr _].
  rewrite createInstance_runs_ctor by (done || lia).
  cbv [ret].
  destruct (pop_end_construct T data (ctor_state T data w))
    as (w3 & -> & Hh & Hs & He & _).
  { unfold ctor_state; cbn. lia. }
  { intros Hone. apply dangling_ctor_state, dangling_top; [done|].
    unfold ctor_state in Hone; cbn in Hone. lia. }
  assert (H3 : forall T', the_helper T' w3 =
                 the_helper T' (end_construct T data (ctor_state T data w)))
    by (intros T'; by apply the_helper_ext).
  assert (HT : the_helper T w3 = mkHelper (mkPointerWrapper true (Some data)) true).
  { by rewrite H3, the_helper_end_construct_eq, the_helper_ctor_state_eq. }
  rewrite HT. unfold the_wrapper at 1. rewrite HT. cbn.
  eexists. split; [reflexivity|].
  split. { rewrite the_helper_update_mutex_eq. unfold the_wrapper. by rewrite HT. }
  split. { intros T' Hne. rewrite the_helper_update_mutex_ne, H3 by done.
           rewrite the_helper_end_construct_ne by done.
           by apply the_helper_ctor_state_ne. }
  split; [cbn; rewrite Hs; unfold ctor_state; cbn; lia|].
  cbn. rewrite He. done.
Qed.

Lemma destructInstance_leaves T dtor w w' :
  destructInstance T dtor w = Ok tt w' ->
  the_helper T w' = InstanceSafetyHelper_ctor /\
  exists h, helpers w' !! T = Some h.
Proof.
  rewrite destructInstance_eq. destruct (_ && _); [|done].
  destruct (dtor _) as [[] w1|w1|]; [|done..].
  rewrite Singleton_dtor_eq.
  destruct (initialized (the_wrapper T w1)); [|done].
  destruct (mutex (the_helper T w1)); [done|]. intros [= <-].
  split.
  - change (the_helper T (set_live_entries ?e (set_allocated ?a ?v)))
      with (the_helper T v).
    rewrite the_helper_update_mutex_eq.
    by rewrite !the_wrapper_update_eq.
  - unfold update_mutex; cbn. rewrite lookup_insert_eq. eauto.
Qed.

(** X5: [destructInstance] needs an initialized instance.  On a holder
    that is not marked initialized (never created, or under construction)
    it fails its assertion before the destructor of [Type] runs.  After a
    [destructInstance] that returned, the holder is as new with its mutex
    free, and a second [destructInstance] fails and changes nothing. *)
Theorem destructInstance_once (T : tyid) (dtor : M unit) (w1 w2 : World)
    (Hdestroy : destructInstance T dtor w1 = Ok tt w2) :
  the_helper T w2 = InstanceSafetyHelper_ctor /\
  (forall dtor', destructInstance T dtor' w2 = AssertFail w2) /\
  (forall dtor' w, initialized (the_wrapper T w) = false ->
     destructInstance T dtor' w = AssertFail (init_helper T w)).
Proof.
  destruct (destructInstance_leaves _ _ _ _ Hdestroy) as [Hh [h Hl]].
  split; [done|]. split.
  - intros dtor'. rewrite destructInstance_eq. unfold the_wrapper.
    rewrite Hh; cbn. f_equal. by eapply init_helper_idem.
  - intros dtor' w Hi. rewrite destructInstance_eq, Hi.
    by rewrite andb_false_r.
Qed.

Lemma destructInstance_once_witness :
  exists r w1 w2,
    createInstance "Config" 7%positive (ret tt) initial_world = Ok r w1 /\
    destructInstance "Config" (ret tt) w1 = Ok tt w2 /\
    the_helper "Config" w2 = InstanceSafetyHelper_ctor /\
    destructInstance "Config" (ret tt) w2 = AssertFail w2 /\
    destructInstance "Config" (ret tt) initial_world
    = AssertFail (init_helper "Config" initial_world).
Proof.
  assert (Hrun : exists r w1 w2,
            createInstance "Config" 7%positive (ret tt) initial_world = Ok r w1 /\
            destructInstance "Config" (ret tt) w1 = Ok tt w2).
  { eexists _, _, _. split; [vm_compute; reflexivity | vm_compute; reflexivity]. }
  destruct Hrun as (r & w1 & w2 & Hc & Hd).
  destruct (destructInstance_once "Config" (ret tt) w1 w2 Hd) as (H1 & H2 & H3).
  exists r, w1, w2. split; [exact Hc|]. split; [exact Hd|].
  split; [exact H1|]. split; [apply H2|]. apply H3. reflexivity.
Defined.

(** X6: a singleton can be created again after it was destroyed: after a
    [destructInstance] that returned, in a state in which the
    coordinator's invariant holds and the counter has room, a
    [createInstance] whose constructor makes no call returns, and
    [getInstance] then returns the new address. *)
Theorem createInstance_after_destructInstance (T : tyid) (data : addr)
    (dtor : M unit) (w1 w2 : World)
    (Hdestroy : destructInstance T dtor w1 = Ok tt w2)
    (Hinv : coordinator_inv w2)
    (Hroom : s_construct_stack_size w2 < INT_MAX) :
  exists w3,
    createInstance T data (ret tt) w2 = Ok (mkPointerWrapper true (Some data)) w3 /\
    getInstance T w3 = Ok (Some data) w3 /\
    s_construct_stack_size w3 = s_construct_stack_size w2.
Proof.
  destruct (destructInstance_leaves _ _ _ _ Hdestroy) as [Hh _].
  destruct (createInstance_plain T data w2) as (w3 & Hc & H3 & _ & Hs & _).
  { unfold the_wrapper. by rewrite Hh. }
  { by rewrite Hh. }
  { done. }
  { done. }
  exists w3. split; [done|]. split; [|done].
  apply getInstance_initialized. unfold the_wrapper. by rewrite H3.
Qed.

Lemma createInstance_after_destructInstance_witness :
  exists r w1 w2 w3,
    createInstance "Config" 7%positive (ret tt) initial_world = Ok r w1 /\
    destructInstance "Config" (ret tt) w1 = Ok tt w2 /\
    createInstance "Config" 9%positive (ret tt) w2
    = Ok (mkPointerWrapper true (Some 9%positive)) w3 /\
    getInstance "Config" w3 = Ok (Some 9%positive) w3.
Proof.
  assert (Hrun : exists r w1 w2,
            createInstance "Config" 7%positive (ret tt) initial_world = Ok r w1 /\
            destructInstance "Config" (ret tt) w1 = Ok tt w2 /\
            coordinator_inv w2 /\
            s_construct_stack_size w2 < INT_MAX).
  { eexists _, _, _. split; [vm_compute; reflexivity|].
    split; [vm_compute; reflexivity|].
    split; [|vm_compute; reflexivity].
    unfold coordinator_inv, INT_MAX. simpl.
    split; [lia | intros H; by elim H]. }
  destruct Hrun as (r & w1 & w2 & Hc & Hd & Hi & Hr).
  destruct (createInstance_after_destructInstance "Config" 9%positive
              (ret tt) w1 w2 Hd Hi Hr) as (w3 & Hc3 & Hg & _).
  exists r, w1, w2, w3. split; [exact Hc|]. split; [exact Hd|].
  split; [exact Hc3 | exact Hg].
Defined.

(** ** The coordinator, call by call *)

(** X7: over any sequence of [push] and [pop] calls that returns, no
    object is lost or called twice: the hooks called so far followed by
    the queue are what they were, followed by the pushed objects in the
    order they were pushed; the depth moves by the pushes minus the pops.
    So when the depth is back at zero every pushed object has had its
    hook called, in push order. *)
Theorem push_pop_accounting (ops : list coord_op) (w w' : World)
    (Hinv : coordinator_inv w)
    (Hrun : for_each ops run_coord_op w = Ok tt w') :
  postConstruction_calls w' ++ s_classes_under_construction w' =
    postConstruction_calls w ++ s_classes_under_construction w ++ pushes_of ops /\
  s_construct_stack_size w' = s_construct_stack_size w + balance ops /\
  (s_construct_stack_size w' = 0 ->
   s_classes_under_construction w' = [] /\
   postConstruction_calls w' =
     postConstruction_calls w ++ s_classes_under_construction w ++ pushes_of ops).
Proof.
  assert (Hmain : coordinator_inv w' /\
    postConstruction_calls w' ++ s_classes_under_construction w' =
      postConstruction_calls w ++ s_classes_under_construction w ++ pushes_of ops /\
    s_construct_stack_size w' = s_construct_stack_size w + balance ops).
  { revert w Hinv Hrun. induction ops as [|o ops IH]; intros w Hinv.
    - rewrite for_each_nil. intros [= <-]. cbn. rewrite app_nil_r.
      split; [done|]. split; [done | lia].
    - rewrite for_each_cons. unfold bind.
      pose proof (coord_step_inv o w Hinv) as Hstep.
      destruct (run_coord_op o w) as [[] w1|w1|] eqn:E; [|done..].
      destruct Hstep as [Hinv1 _]. intros Hrun.
      destruct (IH _ Hinv1 Hrun) as (Hinv' & Hc & Hs).
      split; [done|]. rewrite Hc, Hs.
      destruct o as [p|]; cbn [run_coord_op pushes_of balance] in *.
      + rewrite push_eq in E. case_bool_decide; [done|].
        injection E as <-. cbn. rewrite <- !app_assoc. split; [done | lia].
      + rewrite pop_eq in E. destruct Hinv as [Hr Hq].
        repeat case_bool_decide; try done; injection E as <-; cbn.
        * rewrite <- ?app_assoc. split; [done | lia].
        * split; [done | lia]. }
  destruct Hmain as (Hinv' & Hc & Hs). split; [done|]. split; [done|].
  intros Hz. destruct Hinv' as [_ Hq].
  destruct (s_classes_under_construction w') as [|p l] eqn:El.
  - by rewrite app_nil_r in Hc.
  - specialize (Hq ltac:(done)). lia.
Qed.

Lemma push_pop_accounting_witness :
  exists w',
    for_each [Push 1; Push 2; Pop; Push 3; Pop; Pop]%positive run_coord_op
      initial_world = Ok tt w' /\
    s_construct_stack_size w' = 0 /\
    postConstruction_calls w' = [1; 2; 3]%positive.
Proof.
  assert (Hrun : exists w',
     for_each [Push 1; Push 2; Pop; Push 3; Pop; Pop]%positive run_coord_op
       initial_world = Ok tt w').
  { eexists. vm_compute. reflexivity. }
  destruct Hrun as [w' Hrun]. exists w'. split; [exact Hrun|].
  destruct (push_pop_accounting [Push 1; Push 2; Pop; Push 3; Pop; Pop]%positive
              initial_world w') as (_ & Hs & Hz).
  - unfold coordinator_inv, INT_MAX. simpl. split; [lia | intros H; by elim H].
  - exact Hrun.
  - split; [exact Hs|]. apply (Hz Hs).
Defined.

(** ** Holders of different types *)

Lemma construct_keeps_other T T' data ctor (h : InstanceSafetyHelper) :
  T <> T' ->
  preserves (fun v => the_helper T' v = h) ctor ->
  preserves (fun v => the_helper T' v = h) (construct T data ctor).
Proof.
  intros Hne Hctor w Hw. rewrite construct_eq.
  destruct (push data _) as [[] w1|w1|] eqn:Hpush; [| |done].
  2:{ rewrite push_eq in Hpush. by case_bool_decide. }
  apply push_helpers in Hpush.
  assert (H1 : the_helper T' w1 = h).
  { rewrite (the_helper_ext T' _ _ Hpush). unfold begin_construct.
    by rewrite the_helper_update_wrapper_ne. }
  specialize (Hctor w1 H1). cbv beta in Hctor.
  destruct (ctor w1) as [[] w2|w2|]; [|done..].
  pose proof (pop_helpers_all (end_construct T data w2)) as Hpop.
  destruct (pop _) as [[] w3|w3|]; [| |done];
    rewrite (the_helper_ext T' _ _ Hpop);
    by rewrite the_helper_end_construct_ne.
Qed.

Lemma locked_construct_keeps_other T T' data ctor (h : InstanceSafetyHelper) w :
  T <> T' ->
  preserves (fun v => the_helper T' v = h) ctor ->
  the_helper T' w = h ->
  match construct T data ctor (update_mutex T true (init_helper T w)) with
  | Ok _ w1 => the_helper T' (update_mutex T false w1) = h
  | AssertFail w1 => the_helper T' w1 = h
  | Undefined => True
  end.
Proof.
  intros Hne Hctor Hw.
  pose proof (construct_keeps_other T T' data ctor h Hne Hctor
                (update_mutex T true (init_helper T w))) as Hc.
  cbv beta in Hc.
  rewrite the_helper_update_mutex_ne, the_helper_init in Hc by done.
  specialize (Hc Hw).
  destruct (construct _ _ _ _) as [[] w1|w1|]; [|done..].
  by rewrite the_helper_update_mutex_ne.
Qed.

Lemma run_keeps_other T' (h : InstanceSafetyHelper) a :
  mentions T' a = false ->
  preserves (fun v => the_helper T' v = h) (run a).
Proof.
  induction a as [T data ctor IH|T data ctor IH|T|T|T dtor IH]
    using action_nested_ind; cbn [run mentions]; intros Hm.
  - apply orb_false_iff in Hm as [Hne Hm].
    apply bool_decide_eq_false in Hne.
    assert (Hctor : preserves (fun v => the_helper T' v = h) (for_each ctor run)).
    { apply preserves_for_each. rewrite Forall_forall in IH |- *.
      intros a Ha. apply IH; [done|].
      destruct (mentions T' a) eqn:E; [|done].
      assert (existsb (mentions T') ctor = true); [|congruence].
      apply existsb_exists. exists a. split; [by apply list_elem_of_In | done]. }
    intros w Hw. unfold bind. rewrite createInstance_eq.
    destruct (raw_pointer (the_wrapper T w));
      [cbv beta iota delta [ret]; by rewrite the_helper_init|].
    destruct (mutex (the_helper T w)); [done|].
    pose proof (locked_construct_keeps_other T T' data _ h w
                  ltac:(congruence) Hctor Hw) as Hc.
    destruct (construct _ _ _ _) as [[] w1|w1|]; [|done..].
    by destruct (mutex (the_helper T w1)); cbv beta iota delta [ret].
  - apply orb_false_iff in Hm as [Hne Hm].
    apply bool_decide_eq_false in Hne.
    assert (Hctor : preserves (fun v => the_helper T' v = h) (for_each ctor run)).
    { apply preserves_for_each. rewrite Forall_forall in IH |- *.
      intros a Ha. apply IH; [done|].
      destruct (mentions T' a) eqn:E; [|done].
      assert (existsb (mentions T') ctor = true); [|congruence].
      apply existsb_exists. exists a. split; [by apply list_elem_of_In | done]. }
    intros w Hw. unfold bind. rewrite Instance_eq.
    destruct (raw_pointer (the_wrapper T w));
      [cbv beta iota delta [ret]; by rewrite the_helper_init|].
    destruct (mutex (the_helper T w)); [done|].
    pose proof (locked_construct_keeps_other T T' data _ h w
                  ltac:(congruence) Hctor Hw) as Hc.
    destruct (construct _ _ _ _) as [[] w1|w1|]; [|done..].
    by destruct (mutex (the_helper T w1)); cbv beta iota delta [ret].
  - intros w Hw. unfold bind. rewrite getInstance_eq.
    destruct (_ && _); cbv beta iota delta [ret]; by rewrite the_helper_init.
  - intros w Hw. unfold bind. rewrite getInstanceDuringBuilding_eq.
    destruct (_ && _); cbv beta iota delta [ret]; by rewrite the_helper_init.
  - apply orb_false_iff in Hm as [Hne Hm].
    apply bool_decide_eq_false in Hne.
    assert (Hdtor : preserves (fun v => the_helper T' v = h) (for_each dtor run)).
    { apply preserves_for_each. rewrite Forall_forall in IH |- *.
      intros a Ha. apply IH; [done|].
      destruct (mentions T' a) eqn:E; [|done].
      assert (existsb (mentions T') dtor = true); [|congruence].
      apply existsb_exists. exists a. split; [by apply list_elem_of_In | done]. }
    intros w Hw. rewrite destructInstance_eq.
    destruct (_ && _); [|by rewrite the_helper_init].
    specialize (Hdtor (init_helper T w)). cbv beta in Hdtor.
    rewrite the_helper_init in Hdtor. specialize (Hdtor Hw).
    destruct (for_each dtor run _) as [[] w1|w1|]; [|done..].
    rewrite Singleton_dtor_eq.
    destruct (initialized (the_wrapper T w1)); [|by rewrite the_helper_init].
    destruct (mutex (the_helper T w1)); [done|].
    assert (T <> T') by congruence.
    cbv beta iota. rewrite the_helper_freed.
    rewrite the_helper_update_mutex_ne, !the_helper_update_wrapper_ne by done.
    by rewrite the_helper_update_mutex_ne, the_helper_init.
Qed.

(** X8: the holders of different types are independent.  A program in
    which no call, at any depth of its constructors and destructors, is on
    the type [T] leaves the holder of [T] as it was: its pointer, its
    initialized flag and its mutex, whether the program returns or is
    stopped by an assertion. *)
Theorem other_holders_untouched (T : tyid) (prog : list action) (w : World)
    (Hother : existsb (mentions T) prog = false) :
  match for_each prog run w with
  | Ok _ w' | AssertFail w' => the_helper T w' = the_helper T w
  | Undefined => True
  end.
Proof.
  apply (preserves_for_each (fun v => the_helper T v = the_helper T w) prog run);
    [|done].
  apply Forall_forall. intros a Ha. apply run_keeps_other.
  destruct (mentions T a) eqn:E; [|done].
  assert (existsb (mentions T) prog = true); [|congruence].
  apply existsb_exists. exists a. split; [by apply list_elem_of_In | done].
Qed.

Lemma other_holders_untouched_witness :
  exists r w1 w2,
    createInstance "Config" 7%positive (ret tt) initial_world = Ok r w1 /\
    for_each [CreateInstance "A" 1%positive [CreateInstance "B" 2%positive []];
              DestructInstance "B" []; GetInstance "B"] run w1 = AssertFail w2 /\
    the_helper "Config" w2 = the_helper "Config" w1.
Proof.
  assert (Hrun : exists r w1 w2,
    createInstance "Config" 7%positive (ret tt) initial_world = Ok r w1 /\
    for_each [CreateInstance "A" 1%positive [CreateInstance "B" 2%positive []];
              DestructInstance "B" []; GetInstance "B"] run w1 = AssertFail w2).
  { eexists _, _, _. split; [vm_compute; reflexivity | vm_compute; reflexivity]. }
  destruct Hrun as (r & w1 & w2 & Hc & Hp).
  exists r, w1, w2. split; [exact Hc|]. split; [exact Hp|].
  pose proof (other_holders_untouched "Config"
    [CreateInstance "A" 1%positive [CreateInstance "B" 2%positive []];
     DestructInstance "B" []; GetInstance "B"] w1 eq_refl) as H.
  rewrite Hp in H. exact H.
Defined.

(** ** The holder invariant and the storage *)

Lemma run_keeps_building T' (h : InstanceSafetyHelper) a :
  raw_pointer (wrapper h) <> None -> initialized (wrapper h) = false ->
  preserves (fun v => the_helper T' v = h) (run a).
Proof.
  intros Hp Hi.
  induction a as [T data ctor IH|T data ctor IH|T|T|T dtor IH]
    using action_nested_ind; cbn [run].
  - assert (Hctor : preserves (fun v => the_helper T' v = h) (for_each ctor run))
      by by apply preserves_for_each.
    intros w Hw. unfold bind. rewrite createInstance_eq.
    destruct (raw_pointer (the_wrapper T w)) eqn:E;
      [cbv beta iota delta [ret]; by rewrite the_helper_init|].
    destruct (mutex (the_helper T w)); [done|].
    assert (Hne : T <> T').
    { intros ->. unfold the_wrapper in E. rewrite Hw in E. done. }
    pose proof (locked_construct_keeps_other T T' data _ h w Hne Hctor Hw) as Hc.
    destruct (construct _ _ _ _) as [[] w1|w1|]; [|done..].
    by destruct (mutex (the_helper T w1)); cbv beta iota delta [ret].
  - assert (Hctor : preserves (fun v => the_helper T' v = h) (for_each ctor run))
      by by apply preserves_for_each.
    intros w Hw. unfold bind. rewrite Instance_eq.
    destruct (raw_pointer (the_wrapper T w)) eqn:E;
      [cbv beta iota delta [ret]; by rewrite the_helper_init|].
    destruct (mutex (the_helper T w)); [done|].
    assert (Hne : T <> T').
    { intros ->. unfold the_wrapper in E. rewrite Hw in E. done. }
    pose proof (locked_construct_keeps_other T T' data _ h w Hne Hctor Hw) as Hc.
    destruct (construct _ _ _ _) as [[] w1|w1|]; [|done..].
    by destruct (mutex (the_helper T w1)); cbv beta iota delta [ret].
  - intros w Hw. unfold bind. rewrite getInstance_eq.
    destruct (_ && _); cbv beta iota delta [ret]; by rewrite the_helper_init.
  - intros w Hw. unfold bind. rewrite getInstanceDuringBuilding_eq.
    destruct (_ && _); cbv beta iota delta [ret]; by rewrite the_helper_init.
  - assert (Hdtor : preserves (fun v => the_helper T' v = h) (for_each dtor run))
      by by apply preserves_for_each.
    intros w Hw. rewrite destructInstance_eq.
    destruct (_ && initialized _) eqn:Hcond; [|by rewrite the_helper_init].
    apply andb_true_iff in Hcond as [_ Hcond].
    assert (Hne : T <> T').
    { intros ->. unfold the_wrapper in Hcond. rewrite Hw in Hcond. congruence. }
    specialize (Hdtor (init_helper T w)). cbv beta in Hdtor.
    rewrite the_helper_init in Hdtor. specialize (Hdtor Hw).
    destruct (for_each dtor run _) as [[] w1|w1|]; [|done..].
    rewrite Singleton_dtor_eq.
    destruct (initialized (the_wrapper T w1)); [|by rewrite the_helper_init].
    destruct (mutex (the_helper T w1)); [done|].
    cbv beta iota. rewrite the_helper_freed.
    rewrite the_helper_update_mutex_ne, !the_helper_update_wrapper_ne by done.
    by rewrite the_helper_update_mutex_ne, the_helper_init.
Qed.

Lemma slot_inv_ext w w' :
  (forall T, the_wrapper T w' = the_wrapper T w) ->
  allocated w' = allocated w ->
  slot_inv w -> slot_inv w'.
Proof.
  intros Hw Ha [Hh Hs]. split.
  - intros T. rewrite Hw. apply Hh.
  - intros T. rewrite Hw, Ha. apply Hs.
Qed.

Lemma slot_inv_init T w : slot_inv w -> slot_inv (init_helper T w).
Proof.
  apply slot_inv_ext; [|done]. intros T'. apply the_wrapper_init.
Qed.

Lemma slot_inv_update_mutex T b w : slot_inv w -> slot_inv (update_mutex T b w).
Proof.
  apply slot_inv_ext; [|done]. intros T'. apply the_wrapper_update_mutex.
Qed.

Lemma pop_allocated w :
  match pop w with
  | Ok _ w' | AssertFail w' => allocated w' = allocated w
  | Undefined => True
  end.
Proof. rewrite pop_eq. by repeat case_bool_decide. Qed.

Lemma locked_construct_slot_inv T data ctor w :
  preserves slot_inv ctor ->
  preserves (fun v => the_helper T v
                      = mkHelper (mkPointerWrapper false (Some data)) true) ctor ->
  slot_inv w ->
  raw_pointer (the_wrapper T w) = None ->
  match construct T data ctor (update_mutex T true (init_helper T w)) with
  | Ok _ w1 => slot_inv (update_mutex T false w1)
  | AssertFail w1 => slot_inv w1
  | Undefined => True
  end.
Proof.
  intros Hctor Hkeep [Hh Hs] Hp.
  assert (Hi : initialized (the_wrapper T w) = false).
  { destruct (initialized (the_wrapper T w)) eqn:E; [|done].
    specialize (Hh T E). unfold occupied in Hh.
    apply bool_decide_eq_true in Hh. done. }
  set (w0 := update_mutex T true (init_helper T w)).
  assert (Hw0 : the_helper T w0 = mkHelper (mkPointerWrapper false None) true).
  { unfold w0. rewrite the_helper_update_mutex_eq, the_wrapper_init.
    by rewrite <- (PointerWrapper_eta (the_wrapper T w)), Hi, Hp. }
  assert (Hw0' : forall T', T <> T' -> the_wrapper T' w0 = the_wrapper T' w).
  { intros T' Hne. unfold w0.
    by rewrite the_wrapper_update_mutex, the_wrapper_init. }
  rewrite construct_eq, push_eq.
  case_bool_decide; [done|].
  set (w1 := pushed _ _).
  assert (Hw1 : the_helper T w1 = mkHelper (mkPointerWrapper false (Some data)) true).
  { unfold w1.
    change (the_helper T (pushed ?p ?v)) with (the_helper T v).
    unfold begin_construct. rewrite the_helper_update_wrapper_eq.
    unfold the_wrapper.
    change (the_helper T (set_allocated ?a ?v)) with (the_helper T v).
    by rewrite Hw0. }
  assert (Hw1' : forall T', T <> T' -> the_wrapper T' w1 = the_wrapper T' w).
  { intros T' Hne. unfold w1.
    change (the_wrapper T' (pushed ?p ?v)) with (the_wrapper T' v).
    unfold begin_construct.
    rewrite the_wrapper_update_ne by done.
    change (the_wrapper T' (set_allocated ?a ?v)) with (the_wrapper T' v).
    by apply Hw0'. }
  assert (Hs1 : slot_inv w1).
  { split.
    - intros T'. destruct (decide (T = T')) as [<-|Hne].
      + unfold the_wrapper. by rewrite Hw1.
      + rewrite (Hw1' _ Hne). apply Hh.
    - intros T'. change (allocated w1) with ({[T]} ∪ allocated w).
      rewrite elem_of_union, elem_of_singleton.
      destruct (decide (T = T')) as [<-|Hne].
      + unfold the_wrapper. rewrite Hw1. cbn. split; [done | by left].
      + rewrite (Hw1' _ Hne), <- (Hs T'). split; [|by right].
        by intros [?|?]. }
  specialize (Hctor w1 Hs1). specialize (Hkeep w1 Hw1). cbv beta in Hkeep.
  destruct (ctor w1) as [[] w2|w2|]; [|done..].
  destruct Hctor as [Hh2 Hs2].
  set (e := end_construct T data w2).
  assert (He : the_wrapper T e = mkPointerWrapper true (Some data)).
  { unfold e, end_construct. rewrite the_wrapper_update_eq.
    rewrite the_wrapper_set_stderr. by rewrite the_wrapper_update_eq. }
  assert (He' : forall T', T <> T' -> the_wrapper T' e = the_wrapper T' w2).
  { intros T' Hne. unfold e, end_construct.
    rewrite the_wrapper_update_ne, the_wrapper_set_stderr by done.
    by rewrite the_wrapper_update_ne. }
  assert (Hse : slot_inv e).
  { split.
    - intros T'. destruct (decide (T = T')) as [<-|Hne].
      + by rewrite He.
      + rewrite (He' _ Hne). apply Hh2.
    - intros T'. change (allocated e) with (allocated w2).
      destruct (decide (T = T')) as [<-|Hne].
      + rewrite He, (Hs2 T). unfold the_wrapper. by rewrite Hkeep.
      + rewrite (He' _ Hne). apply Hs2. }
  pose proof (pop_helpers_all e) as Hph.
  pose proof (pop_allocated e) as Hpa.
  destruct (pop e) as [[] w3|w3|]; [| |done].
  - apply slot_inv_update_mutex.
    eapply slot_inv_ext; [| |exact Hse]; [|done].
    intros T'. by apply the_wrapper_ext.
  - eapply slot_inv_ext; [| |exact Hse]; [|done].
    intros T'. by apply the_wrapper_ext.
Qed.

Lemma run_slot_inv a : preserves slot_inv (run a).
Proof.
  induction a as [T data ctor IH|T data ctor IH|T|T|T dtor IH]
    using action_nested_ind; cbn [run].
  - intros w Hw. unfold bind. rewrite createInstance_eq.
    destruct (raw_pointer (the_wrapper T w)) eqn:Hp;
      [by apply slot_inv_init|].
    destruct (mutex (the_helper T w)); [done|].
    pose proof (locked_construct_slot_inv T data (for_each ctor run) w) as Hc.
    specialize (Hc ltac:(by apply preserves_for_each)).
    specialize (Hc ltac:(apply preserves_for_each, Forall_forall;
                         intros a _; by apply run_keeps_building)).
    specialize (Hc Hw Hp).
    destruct (construct _ _ _ _) as [[] w1|w1|]; [|done..].
    by destruct (mutex (the_helper T w1)).
  - intros w Hw. unfold bind. rewrite Instance_eq.
    destruct (raw_pointer (the_wrapper T w)) eqn:Hp;
      [by apply slot_inv_init|].
    destruct (mutex (the_helper T w)); [done|].
    pose proof (locked_construct_slot_inv T data (for_each ctor run) w) as Hc.
    specialize (Hc ltac:(by apply preserves_for_each)).
    specialize (Hc ltac:(apply preserves_for_each, Forall_forall;
                         intros a _; by apply run_keeps_building)).
    specialize (Hc Hw Hp).
    destruct (construct _ _ _ _) as [[] w1|w1|]; [|done..].
    by destruct (mutex (the_helper T w1)).
  - intros w Hw. unfold bind. rewrite getInstance_eq.
    destruct (_ && _); by apply slot_inv_init.
  - intros w Hw. unfold bind. rewrite getInstanceDuringBuilding_eq.
    destruct (_ && _); by apply slot_inv_init.
  - intros w Hw. rewrite destructInstance_eq.
    destruct (_ && _); [|by apply slot_inv_init].
    pose proof (preserves_for_each slot_inv dtor run IH (init_helper T w)
                  (slot_inv_init T w Hw)) as Hd.
    destruct (for_each dtor run _) as [[] w1|w1|]; [|done..].
    rewrite Singleton_dtor_eq.
    destruct (initialized (the_wrapper T w1)); [|by apply slot_inv_init].
    destruct (mutex (the_helper T w1)); [done|].
    cbv beta iota.
    set (w2 := update_mutex T false _).
    assert (H2 : the_wrapper T w2 = mkPointerWrapper false None).
    { unfold w2. by rewrite the_wrapper_update_mutex, !the_wrapper_update_eq. }
    assert (H2' : forall T', T <> T' -> the_wrapper T' w2 = the_wrapper T' w1).
    { intros T' Hne. unfold w2.
      rewrite the_wrapper_update_mutex, !the_wrapper_update_ne by done.
      by rewrite the_wrapper_update_mutex, the_wrapper_init. }
    destruct Hd as [Hh1 Hs1]. split.
    + intros T'.
      change (the_wrapper T' (freed ?a ?b ?v)) with (the_wrapper T' v).
      destruct (decide (T = T')) as [<-|Hne].
      * by rewrite H2.
      * rewrite (H2' _ Hne). apply Hh1.
    + intros T'.
      change (the_wrapper T' (freed ?a ?b ?v)) with (the_wrapper T' v).
      change (allocated (freed T ?b w2)) with (allocated w1 ∖ {[T]}).
      rewrite elem_of_difference, elem_of_singleton.
      destruct (decide (T = T')) as [<-|Hne].
      * rewrite H2. cbn. split; [by intros [_ ?] | done].
      * rewrite (H2' _ Hne), <- (Hs1 T'). split; [by intros [? _] | done].
Qed.

Lemma initial_world_slot_inv : slot_inv initial_world.
Proof.
  split; [apply initial_world_holder_inv|].
  intros T. unfold the_wrapper, the_helper; cbn. rewrite lookup_empty; cbn.
  split; [by intros ?%elem_of_empty | done].
Qed.

(** C8: every sequence of [createInstance], [Instance], [getInstance],
    [getInstanceDuringBuilding] and [destructInstance] calls, with the
    calls their constructors and destructors make in turn, keeps the
    invariant of the holders.  From a state in which, for every type, a
    holder marked initialized holds a pointer, and a holder holds a
    pointer exactly while storage is allocated for its instance, the
    sequence ends, or is stopped by an assertion, in a state in which both
    hold again; so a holder marked initialized has its storage.  (The data
    model's [occupied] is the allocation of the storage, between [malloc]
    and the end of [delete]; the code tests the pointer.)  Nothing is said
    of a run that leaves defined behaviour. *)
Theorem holder_invariant_preserved (prog : list action) (w : World)
    (Hinv : holder_inv w) (Hstorage : storage_inv w) :
  match for_each prog run w with
  | Ok _ w' | AssertFail w' =>
      holder_inv w' /\ storage_inv w' /\
      (forall T, initialized (the_wrapper T w') = true -> T ∈ allocated w') /\
      (forall T, T ∈ allocated w' <-> occupied (the_wrapper T w') = true)
  | Undefined => True
  end.
Proof.
  pose proof (preserves_for_each slot_inv prog run) as Hp.
  specialize (Hp ltac:(apply Forall_forall; intros a _; apply run_slot_inv)
                 w (conj Hinv Hstorage)).
  assert (Hall : forall w', slot_inv w' ->
            holder_inv w' /\ storage_inv w' /\
            (forall T, initialized (the_wrapper T w') = true -> T ∈ allocated w') /\
            (forall T, T ∈ allocated w' <-> occupied (the_wrapper T w') = true)).
  { intros w' [Hh Hs]. split; [done|]. split; [done|]. split.
    - intros T Hi. apply Hs. specialize (Hh T Hi).
      by apply bool_decide_eq_true in Hh.
    - intros T. rewrite (Hs T). unfold occupied.
      by rewrite bool_decide_eq_true. }
  destruct (for_each prog run w) as [[] w'|w'|]; [by apply Hall..|done].
Qed.

Lemma holder_invariant_preserved_witness :
  exists w0 w',
    for_each [CreateInstance "Z" 9%positive []] run initial_world = Ok tt w0 /\
    holder_inv w0 /\ storage_inv w0 /\
    allocated w0 = {["Z"]} /\
    for_each sample_program run w0 = Ok tt w' /\
    holder_inv w' /\ storage_inv w' /\
    allocated w' = {["A"; "B"; "Z"]}.
Proof.
  destruct initial_world_slot_inv as [H0 H1].
  pose proof (holder_invariant_preserved [CreateInstance "Z" 9%positive []]
                initial_world H0 H1) as Hz.
  destruct (for_each [CreateInstance "Z" 9%positive []] run initial_world)
    as [[] w0|w0|] eqn:E0; [| vm_compute in E0; discriminate E0 ..].
  destruct Hz as (Hh0 & Hs0 & _).
  pose proof (holder_invariant_preserved sample_program w0 Hh0 Hs0) as H.
  vm_compute in E0. injection E0 as <-.
  destruct (for_each sample_program run _) as [[] w'|w'|] eqn:E;
    [| vm_compute in E; discriminate E ..].
  destruct H as (Hh & Hs & _).
  eexists _, w'. split; [reflexivity|]. split; [exact Hh0|]. split; [exact Hs0|].
  split; [vm_compute; reflexivity|].
  split; [exact E|]. split; [exact Hh|]. split; [exact Hs|].
  vm_compute in E. injection E as <-. vm_compute. reflexivity.
Defined.

(** ** The two checked accessors *)

(** X9: the two checked accessors divide the states of a holder between
    them.  [getInstance] returns exactly when the holder has a pointer and
    is marked initialized; [getInstanceDuringBuilding] returns exactly
    when the holder has a pointer and is not marked initialized.  So in no
    state do both return, and one of them returns exactly when the holder
    has a pointer.  The one that returns gives the pointer of the holder
    and leaves the state as it is. *)
Theorem accessors_exclusive (T : tyid) (w : World) :
  ((exists p w', getInstance T w = Ok p w') <->
   raw_pointer (the_wrapper T w) <> None /\
   initialized (the_wrapper T w) = true) /\
  ((exists p w', getInstanceDuringBuilding T w = Ok p w') <->
   raw_pointer (the_wrapper T w) <> None /\
   initialized (the_wrapper T w) = false) /\
  ~ ((exists p w', getInstance T w = Ok p w') /\
     (exists p w', getInstanceDuringBuilding T w = Ok p w')) /\
  (raw_pointer (the_wrapper T w) <> None <->
   (exists p w', getInstance T w = Ok p w') \/
   (exists p w', getInstanceDuringBuilding T w = Ok p w')) /\
  (forall p w', getInstance T w = Ok p w' \/
                getInstanceDuringBuilding T w = Ok p w' ->
     p = raw_pointer (the_wrapper T w) /\ w' = w).
Proof.
  rewrite getInstance_eq, getInstanceDuringBuilding_eq.
  destruct (raw_pointer (the_wrapper T w)) as [q|] eqn:Hp.
  - rewrite (init_helper_occupied _ _ _ Hp).
    rewrite bool_decide_eq_true_2 by done.
    destruct (initialized (the_wrapper T w)); cbn.
    + split; [split; [done | eauto]|].
      split; [split; [by intros (? & ? & ?) | by intros [_ ?]]|].
      split; [by intros [_ (? & ? & ?)]|]. split.
      * split; [intros _; left; eauto | done].
      * intros p w' [[= <- <-] | ?]; done.
    + split; [split; [by intros (? & ? & ?) | by intros [_ ?]]|].
      split; [split; [done | eauto]|].
      split; [by intros [(? & ? & ?) _]|]. split.
      * split; [intros _; right; eauto | done].
      * intros p w' [? | [= <- <-]]; done.
  - rewrite bool_decide_eq_false_2 by (intros H; by apply H). cbn.
    split; [split; [by intros (? & ? & ?) | by intros [? _]]|].
    split; [split; [by intros (? & ? & ?) | by intros [? _]]|].
    split; [by intros [(? & ? & ?) _]|]. split.
    + split; [done | by intros [(? & ? & ?) | (? & ? & ?)]].
    + by intros p w' [? | ?].
Qed.

(** ** Constructions that return *)

Lemma good_empty_holder T w :
  good w -> raw_pointer (the_wrapper T w) = None ->
  the_helper T w = InstanceSafetyHelper_ctor.
Proof.
  intros (_ & Hhi & Hli) Hp.
  assert (Hm : mutex (the_helper T w) = false).
  { destruct (mutex (the_helper T w)) eqn:E; [|done].
    by destruct (Hli T E) as [? _]. }
  assert (Hi : initialized (the_wrapper T w) = false).
  { destruct (initialized (the_wrapper T w)) eqn:E; [|done].
    specialize (Hhi T E). unfold occupied in Hhi.
    by apply bool_decide_eq_true in Hhi. }
  unfold the_wrapper in *.
  destruct (the_helper T w) as [[i p] m]; cbn in *. by subst.
Qed.

Lemma good_ctor_state T data w :
  good w -> raw_pointer (the_wrapper T w) = None ->
  s_construct_stack_size w < INT_MAX ->
  good (ctor_state T data w).
Proof.
  intros Hg Hp Hlt. pose proof (good_empty_holder T w Hg Hp) as He.
  destruct Hg as ([Hr Hq] & Hhi & Hli).
  assert (H1 : the_helper T (ctor_state T data w)
               = mkHelper (mkPointerWrapper false (Some data)) true).
  { rewrite the_helper_ctor_state_eq. unfold the_wrapper. by rewrite He. }
  split; [|split].
  - unfold coordinator_inv, ctor_state; cbn. split; [lia | intros _; lia].
  - intros T'. unfold the_wrapper. destruct (decide (T = T')) as [<-|Hne].
    + by rewrite H1.
    + rewrite the_helper_ctor_state_ne by done. apply Hhi.
  - intros T'. unfold under_construction, the_wrapper.
    destruct (decide (T = T')) as [<-|Hne].
    + by rewrite H1.
    + rewrite the_helper_ctor_state_ne by done. apply Hli.
Qed.

Lemma traced_queue F m w w' :
  traced F m -> coordinator_inv w -> s_construct_stack_size w > 0 ->
  m w = Ok tt w' ->
  coordinator_inv w' /\
  s_construct_stack_size w' = s_construct_stack_size w /\
  exists l, s_classes_under_construction w'
            = s_classes_under_construction w ++ l.
Proof.
  intros Hm Hinv Hpos Hrun.
  destruct (Hm _ _ Hinv Hrun) as (f & _ & I & S & _ & P & Q).
  split; [done|]. split; [done|]. exists (flat_map preorder f).
  rewrite (Q Hpos) in P. by apply app_inv_head in P.
Qed.

Lemma run_all_traced l : traced (constructions_all l) (for_each l run).
Proof. apply traced_for_each, Forall_forall. intros a _. apply run_traced. Qed.






Lemma balanced_for_each (l : list action) :
  Forall (fun a => balanced (height a) (run a)) l ->
  balanced (heights l) (for_each l run).
Proof.
  induction 1 as [|a l Ha Hl IH]; intros w w' Hg Hb.
  - rewrite for_each_nil. by intros [= <-].
  - rewrite for_each_cons. unfold bind. cbn [heights foldr] in Hb.
    pose proof (run_defined a w Hg ltac:(lia)) as Hd.
    destruct (run a w) as [[] w1|w1|] eqn:E1; [|done..].
    destruct Hd as (Hg1 & Hs1 & _). intros E2 T.
    rewrite (IH w1 w' Hg1 ltac:(unfold heights; lia) E2 T).
    apply (Ha w w1 Hg ltac:(lia) E1 T).
Qed.

Lemma locked_construct_balanced h T data ctor w r w' :
  defined_run h ctor -> balanced h ctor -> good w ->
  raw_pointer (the_wrapper T w) = None ->
  s_construct_stack_size w + Z.of_nat (S h) <= INT_MAX ->
  createInstance T data ctor w = Ok r w' ->
  forall T', mutex (the_helper T' w') = mutex (the_helper T' w).
Proof.
  intros Hd Hb Hg Hp Hroom.
  pose proof (good_empty_holder T w Hg Hp) as He.
  rewrite createInstance_runs_ctor by first [done | by rewrite He | lia].
  pose proof (good_ctor_state T data w Hg Hp ltac:(lia)) as Hg1.
  assert (Hs1 : s_construct_stack_size (ctor_state T data w)
                = s_construct_stack_size w + 1) by reflexivity.
  destruct (ctor (ctor_state T data w)) as [[] w2|w2|] eqn:Ec; [|done..].
  pose proof (Hb _ _ Hg1 ltac:(lia) Ec) as Hb2.
  pose proof (pop_helpers_all (end_construct T data w2)) as Hpop.
  destruct (pop _) as [[] w3|w3|]; [|done..].
  destruct (mutex (the_helper T w3)); [|done]. intros [= _ <-] T'.
  destruct (decide (T = T')) as [<-|Hne].
  - by rewrite mutex_update_mutex_eq, He.
  - rewrite mutex_update_mutex_ne by done.
    rewrite (the_helper_ext T' _ _ Hpop), the_helper_end_construct_ne by done.
    rewrite Hb2. by rewrite the_helper_ctor_state_ne.
Qed.

Lemma run_balanced a : balanced (height a) (run a).
Proof.
  induction a as [T data ctor IH|T data ctor IH|T|T|T dtor IH]
    using action_nested_ind; cbn [run height]; intros w w' Hg Hroom.
  - unfold bind.
    destruct (createInstance _ _ _ _) as [r w1|w1|] eqn:Ec; [|done..].
    intros [= <-].
    destruct (raw_pointer (the_wrapper T w)) eqn:Hp.
    { by rewrite createInstance_eq, Hp in Ec. }
    eapply (locked_construct_balanced (heights ctor));
      [apply run_all_defined | by apply balanced_for_each | done..].
  - unfold bind.
    destruct (Instance _ _ _ _) as [r w1|w1|] eqn:Ec; [|done..].
    intros [= <-].
    destruct (raw_pointer (the_wrapper T w)) eqn:Hp.
    { rewrite Instance_eq, Hp in Ec. injection Ec as _ <-.
      intros T'. by rewrite the_helper_init. }
    rewrite Instance_on_empty in Ec by done.
    eapply (locked_construct_balanced (heights ctor));
      [apply run_all_defined | by apply balanced_for_each | done..].
  - unfold bind. rewrite getInstance_eq. destruct (_ && _); [|done].
    intros [= <-] T'. by rewrite the_helper_init.
  - unfold bind. rewrite getInstanceDuringBuilding_eq. destruct (_ && _); [|done].
    intros [= <-] T'. by rewrite the_helper_init.
  - rewrite destructInstance_eq.
    destruct (bool_decide _ && _) eqn:Hcond; [|done].
    apply andb_true_iff in Hcond as [_ Hi].
    pose proof (run_all_defined dtor (init_helper T w) (good_init T w Hg) Hroom)
      as Hd.
    destruct (for_each dtor run _) as [[] w1|w1|] eqn:Ed; [|done..].
    destruct Hd as ((_ & _ & Hli1) & _ & _).
    pose proof (balanced_for_each dtor IH _ _ (good_init T w Hg) Hroom Ed) as Hb.
    rewrite Singleton_dtor_eq.
    destruct (initialized (the_wrapper T w1)) eqn:Hi1; [|done].
    destruct (mutex (the_helper T w1)) eqn:Hm1; [done|].
    cbv beta iota. intros Hf T'.
    assert (Hw' : the_helper T' w' = the_helper T'
              (update_mutex T false
                 (update_wrapper T (with_raw_pointer None)
                    (update_wrapper T (with_initialized false)
                       (update_mutex T true (init_helper T w1))))))
      by (injection Hf as <-; reflexivity).
    rewrite Hw'. clear Hw' Hf.
    destruct (decide (T = T')) as [<-|Hne].
    + rewrite mutex_update_mutex_eq. rewrite <- Hm1, Hb.
      by rewrite the_helper_init.
    + rewrite mutex_update_mutex_ne, !mutex_update_wrapper by done.
      rewrite mutex_update_mutex_ne, the_helper_init, Hb by done.
      by rewrite the_helper_init.
Qed.

(** X11: every call gives back the mutex it took.  After a program that
    returns, run from a good state with room in the counter for its
    nesting, the mutex of every holder is as it was before; from a state
    in which no mutex is held, none is held afterwards. *)
Theorem guards_released (prog : list action) (w w' : World)
    (Hgood : good w)
    (Hroom : s_construct_stack_size w + Z.of_nat (heights prog) <= INT_MAX)
    (Hrun : for_each prog run w = Ok tt w') :
  (forall T, mutex (the_helper T w') = mutex (the_helper T w)) /\
  ((forall T, mutex (the_helper T w) = false) ->
   forall T, mutex (the_helper T w') = false).
Proof.
  assert (Hb : forall T, mutex (the_helper T w') = mutex (the_helper T w)).
  { eapply (balanced_for_each prog); [|done..].
    apply Forall_forall. intros a _. apply run_balanced. }
  split; [done|]. intros Hfree T. by rewrite Hb.
Qed.

Lemma guards_released_witness :
  exists w',
    for_each sample_program run initial_world = Ok tt w' /\
    forall T, mutex (the_helper T w') = false.
Proof.
  assert (Hrun : exists w', for_each sample_program run initial_world = Ok tt w').
  { eexists. vm_compute. reflexivity. }
  destruct Hrun as [w' Hrun]. exists w'. split; [exact Hrun|].
  destruct (guards_released sample_program initial_world w' initial_world_good)
    as [_ H].
  - vm_compute. discriminate.
  - exact Hrun.
  - apply H. intros T. unfold the_helper. simpl. rewrite lookup_empty. reflexivity.
Defined.

(** ** Hooks and completed constructions *)

Lemma preorder_postorder t : preorder t ≡ₚ postorder t.
Proof.
  induction t as [data nested IH] using ctree_nested_ind. cbn.
  rewrite <- Permutation_cons_append. constructor.
  induction IH as [|t l Ht _ IHl]; [done|]. cbn. by rewrite Ht, IHl.
Qed.

Lemma forest_preorder_postorder f :
  flat_map preorder f ≡ₚ flat_map postorder f.
Proof.
  induction f as [|t f IH]; [done|]. cbn.
  by rewrite preorder_postorder, IH.
Qed.

(** X12: after any program run at depth zero that returns, the depth is
    zero again and the queue is empty, and the hooks called during the
    program are exactly those of the objects whose constructor completed
    during it (the lines written to [stderr]), each called once, in the
    order in which the constructions began. *)
Theorem hooks_called_once (prog : list action) (w w' : World)
    (Hinv : coordinator_inv w)
    (Hzero : s_construct_stack_size w = 0)
    (Hrun : for_each prog run w = Ok tt w') :
  s_construct_stack_size w' = 0 /\
  s_classes_under_construction w' = [] /\
  exists f : list ctree,
    constructions_all prog f /\
    postConstruction_calls w' = postConstruction_calls w ++ flat_map preorder f /\
    stderr w' = stderr w ++ (Some <$> flat_map postorder f) /\
    flat_map preorder f ≡ₚ flat_map postorder f.
Proof.
  destruct (traced_for_each prog) with (w := w) (w' := w')
    as (f & HF & I' & S' & E' & P' & _); [|done..|].
  { apply Forall_forall. intros a _. apply run_traced. }
  assert (Hq : forall v, coordinator_inv v -> s_construct_stack_size v = 0 ->
                 s_classes_under_construction v = []).
  { intros v [_ Hv] Hv0. destruct (s_classes_under_construction v); [done|].
    specialize (Hv ltac:(done)). lia. }
  rewrite (Hq w), (Hq w'), app_nil_r in P' by (done || lia).
  split; [lia|]. split; [apply Hq; [done|lia]|].
  exists f. split; [done|]. split; [done|]. split; [done|].
  apply forest_preorder_postorder.
Qed.

Lemma hooks_called_once_witness :
  exists w',
    for_each sample_program run initial_world = Ok tt w' /\
    s_construct_stack_size w' = 0 /\
    s_classes_under_construction w' = [] /\
    exists f : list ctree,
      constructions_all sample_program f /\
      postConstruction_calls w' = flat_map preorder f /\
      stderr w' = (Some <$> flat_map postorder f).
Proof.
  assert (Hrun : exists w', for_each sample_program run initial_world = Ok tt w').
  { eexists. vm_compute. reflexivity. }
  destruct Hrun as [w' Hrun]. exists w'. split; [exact Hrun|].
  destruct (hooks_called_once sample_program initial_world w')
    as (Hs & Hc & f & HF & Hp & He & _).
  - unfold coordinator_inv, INT_MAX. simpl. split; [lia | intros H; by elim H].
  - reflexivity.
  - exact Hrun.
  - split; [exact Hs|]. split; [exact Hc|]. exists f.
    split; [exact HF|]. split; [exact Hp | exact He].
Defined.

(** A queued pointer that dangles is not made good again: inside a
    constructor chain the entries of the queue stay, and the live ones
    among them can only become fewer. *)
Lemma construct_dead_stay F T data ctor w w' :
  traced F ctor ->
  (forall v v', coordinator_inv v -> s_construct_stack_size v > 0 ->
     ctor v = Ok tt v' ->
     forall i, (i < length (s_classes_under_construction v))%nat ->
               i ∈ live_entries v' -> i ∈ live_entries v) ->
  coordinator_inv w -> s_construct_stack_size w > 0 ->
  construct T data ctor w = Ok tt w' ->
  forall i, (i < length (s_classes_under_construction w))%nat ->
            i ∈ live_entries w' -> i ∈ live_entries w.
Proof.
  intros Htr Hctor Hinv Hpos. rewrite construct_eq, push_eq.
  case_bool_decide as Hmax; [done|].
  set (w1 := pushed _ _).
  destruct (ctor w1) as [[] w2|?|] eqn:Ec; [|done..].
  assert (Hinv1 : coordinator_inv w1).
  { destruct Hinv as [Hr Hq].
    unfold coordinator_inv, w1; cbn in *. split; [lia | intros _; lia]. }
  assert (Hpos1 : s_construct_stack_size w1 = s_construct_stack_size w + 1)
    by reflexivity.
  destruct (traced_queue F ctor w1 w2 Htr Hinv1 ltac:(lia) Ec) as (_ & Hs2 & _).
  specialize (Hctor w1 w2 Hinv1 ltac:(lia) Ec).
  rewrite pop_eq.
  change (s_construct_stack_size (end_construct T data w2))
    with (s_construct_stack_size w2).
  rewrite bool_decide_eq_true_2, bool_decide_eq_false_2 by lia.
  intros [= <-] i Hi.
  change (live_entries (set_stack_size ?n (end_construct T data w2)))
    with (live_entries w2).
  intros Hl. apply Hctor in Hl.
  - change (live_entries w1)
      with ({[length (s_classes_under_construction w)]} ∪ live_entries w) in Hl.
    apply elem_of_union in Hl as [Hl%elem_of_singleton|Hl]; [lia | done].
  - change (s_classes_under_construction w1)
      with (s_classes_under_construction w ++ [data]).
    rewrite length_app. lia.
Qed.

Lemma for_each_dead_stay (l : list action) :
  Forall (fun a => forall v v', coordinator_inv v ->
            s_construct_stack_size v > 0 -> run a v = Ok tt v' ->
            forall i, (i < length (s_classes_under_construction v))%nat ->
                      i ∈ live_entries v' -> i ∈ live_entries v) l ->
  forall v v', coordinator_inv v -> s_construct_stack_size v > 0 ->
    for_each l run v = Ok tt v' ->
    forall i, (i < length (s_classes_under_construction v))%nat ->
              i ∈ live_entries v' -> i ∈ live_entries v.
Proof.
  induction 1 as [|a l Ha Hl IH]; intros v v' Hi Hp.
  - rewrite for_each_nil. by intros [= <-].
  - rewrite for_each_cons. unfold bind.
    destruct (run a v) as [[] v1|v1|] eqn:E1; [|done..]. intros E2 i Hlt Hin.
    destruct (traced_queue _ _ _ _ (run_traced a) Hi Hp E1)
      as (Hi1 & Hs1 & q & Hq).
    apply (Ha v v1 Hi Hp E1 i Hlt).
    apply (IH v1 v' Hi1 ltac:(lia) E2 i); [|done].
    rewrite Hq, length_app. lia.
Qed.

Lemma run_dead_stay a :
  forall w w', coordinator_inv w -> s_construct_stack_size w > 0 ->
    run a w = Ok tt w' ->
    forall i, (i < length (s_classes_under_construction w))%nat ->
              i ∈ live_entries w' -> i ∈ live_entries w.
Proof.
  induction a as [T data ctor IH|T data ctor IH|T|T|T dtor IH]
    using action_nested_ind; cbn [run]; intros w w' Hinv Hpos.
  - unfold bind. rewrite createInstance_eq.
    destruct (raw_pointer (the_wrapper T w)); [done|].
    destruct (mutex (the_helper T w)); [done|].
    destruct (construct _ _ _ _) as [[] w1|w1|] eqn:Ec; [|done..].
    destruct (mutex (the_helper T w1)); [|done]. intros [= <-] i Hlt Hin.
    apply (construct_dead_stay _ T data _
             (update_mutex T true (init_helper T w)) w1
             (run_all_traced ctor) (for_each_dead_stay ctor IH));
      [|done|exact Ec|exact Hlt|exact Hin].
    eapply coordinator_inv_same; [|exact Hinv].
    eapply same_coord_trans;
      [apply same_coord_init | apply same_coord_update_mutex].
  - unfold bind. rewrite Instance_eq.
    destruct (raw_pointer (the_wrapper T w)); [by intros [= <-]|].
    destruct (mutex (the_helper T w)); [done|].
    destruct (construct _ _ _ _) as [[] w1|w1|] eqn:Ec; [|done..].
    destruct (mutex (the_helper T w1)); [|done]. intros [= <-] i Hlt Hin.
    apply (construct_dead_stay _ T data _
             (update_mutex T true (init_helper T w)) w1
             (run_all_traced ctor) (for_each_dead_stay ctor IH));
      [|done|exact Ec|exact Hlt|exact Hin].
    eapply coordinator_inv_same; [|exact Hinv].
    eapply same_coord_trans;
      [apply same_coord_init | apply same_coord_update_mutex].
  - unfold bind. rewrite getInstance_eq.
    destruct (_ && _); [|done]. by intros [= <-].
  - unfold bind. rewrite getInstanceDuringBuilding_eq.
    destruct (_ && _); [|done]. by intros [= <-].
  - rewrite destructInstance_eq. destruct (_ && _); [|done].
    destruct (for_each dtor run _) as [[] w1|w1|] eqn:Ed; [|done..].
    rewrite Singleton_dtor_eq.
    destruct (initialized (the_wrapper T w1)); [|done].
    destruct (mutex (the_helper T w1)); [done|].
    cbv beta iota. intros Hf i Hlt Hin.
    assert (Hin1 : i ∈ live_entries w1).
    { injection Hf as <-. cbn in Hin. by apply elem_of_filter in Hin as [_ ?]. }
    apply (for_each_dead_stay dtor IH (init_helper T w) w1); done.
Qed.

(** The entries of the queue that point to the object [destructInstance]
    deletes dangle afterwards. *)
Lemma destructInstance_kills T (dtor : list action) w w' p i :
  coordinator_inv w -> s_construct_stack_size w > 0 ->
  destructInstance T (for_each dtor run) w = Ok tt w' ->
  raw_pointer (the_wrapper T w) = Some p ->
  s_classes_under_construction w !! i = Some p ->
  i ∉ live_entries w'.
Proof.
  intros Hinv Hpos Hrun Hp Hi. revert Hrun.
  rewrite destructInstance_eq. destruct (_ && _); [|done].
  destruct (for_each dtor run _) as [[] w1|w1|] eqn:Ed; [|done..].
  destruct (traced_queue _ _ (init_helper T w) w1 (run_all_traced dtor))
    as (_ & _ & q & Hq); [|done|done|].
  { eapply coordinator_inv_same; [apply same_coord_init | done]. }
  change (s_classes_under_construction (init_helper T w))
    with (s_classes_under_construction w) in Hq.
  rewrite Singleton_dtor_eq.
  destruct (initialized (the_wrapper T w1)); [|done].
  destruct (mutex (the_helper T w1)); [done|].
  cbv beta iota. intros Hf Hin. injection Hf as <-. cbn in Hin.
  apply elem_of_filter in Hin as [Hne _]. apply Hne.
  rewrite Hp, Hq. by apply lookup_app_l_Some.
Qed.

(** X13: destroying an object inside the constructor chain that queued
    it is undefined behaviour.  The queue is not updated when an object is
    destroyed: if the constructor of [A], run at depth zero, creates [B]
    and then destroys it, the pointer to [B] stays in the queue, whatever
    the constructor does afterwards; when the constructor returns and the
    depth is back at zero, [pop] calls the hook through that pointer, on
    storage that has been freed, and [createInstance] leaves defined
    behaviour. *)
Theorem destroyed_while_queued (A B : tyid) (dA dB : addr)
    (pb qb rest : list action) (w w2 : World)
    (Hinv : coordinator_inv w)
    (Hzero : s_construct_stack_size w = 0)
    (Hempty : raw_pointer (the_wrapper A w) = None)
    (Hfree : mutex (the_helper A w) = false)
    (Hctor : for_each (CreateInstance B dB pb :: DestructInstance B qb :: rest)
               run (ctor_state A dA w) = Ok tt w2) :
  s_classes_under_construction w2 !! 1%nat = Some dB /\
  (1%nat ∉ live_entries w2) /\
  dangling w2 <> [] /\
  createInstance A dA
    (for_each (CreateInstance B dB pb :: DestructInstance B qb :: rest) run) w
  = Undefined.
Proof.
  set (cs := ctor_state A dA w) in *.
  assert (Hq : s_classes_under_construction w = []).
  { destruct Hinv as [_ Hv]. destruct (s_classes_under_construction w); [done|].
    specialize (Hv ltac:(done)). lia. }
  assert (Hcs : coordinator_inv cs).
  { destruct Hinv as [Hr _]. unfold coordinator_inv, cs, ctor_state, INT_MAX in *.
    cbn. split; [lia | intros _; lia]. }
  assert (Hcs1 : s_construct_stack_size cs = 1)
    by (unfold cs, ctor_state; cbn; lia).
  assert (Hcsq : s_classes_under_construction cs = [dA])
    by (unfold cs, ctor_state; cbn; by rewrite Hq).
  pose proof Hctor as Hrun.
  rewrite !for_each_cons in Hrun. unfold bind at 1 in Hrun.
  destruct (run (CreateInstance B dB pb) cs) as [[] v1|?|] eqn:E1; [|done..].
  unfold bind at 1 in Hrun.
  destruct (run (DestructInstance B qb) v1) as [[] v2|?|] eqn:E2; [|done..].
  (* after the construction of B *)
  destruct (traced_queue _ _ _ _ (run_traced _) Hcs ltac:(lia) E1)
    as (Hi1 & Hs1 & _).
  assert (H1 : s_classes_under_construction v1 !! 1%nat = Some dB /\
               raw_pointer (the_wrapper B v1) = Some dB).
  { cbn [run] in E1. unfold bind in E1.
    destruct (createInstance B dB _ cs) as [r v|?|] eqn:Ec; [|done..].
    injection E1 as ->.
    destruct (createInstance_wrapper _ _ _ _ _ _ Ec) as [_ Hw].
    apply (createInstance_traced (constructions_all pb)) in Ec
      as (f & _ & _ & _ & _ & P & Q); [|apply run_all_traced|done].
    rewrite (Q ltac:(lia)), Hcsq in P. apply app_inv_head in P.
    rewrite P, Hw. by rewrite flat_map_preorder_singleton. }
  destruct H1 as [Hq1 Hp1].
  (* after the destruction of B *)
  destruct (traced_queue _ _ _ _ (run_traced _) Hi1 ltac:(lia) E2)
    as (Hi2 & Hs2 & q2 & Hq2).
  assert (Hdead2 : 1%nat ∉ live_entries v2).
  { cbn [run] in E2.
    by apply (destructInstance_kills B qb v1 v2 dB 1 Hi1 ltac:(lia) E2). }
  (* after the rest of the constructor *)
  destruct (traced_queue _ _ _ _ (run_all_traced rest) Hi2 ltac:(lia) Hrun)
    as (Hi3 & Hs3 & q3 & Hq3).
  assert (Hq12 : s_classes_under_construction v2 !! 1%nat = Some dB).
  { rewrite Hq2. by apply lookup_app_l_Some. }
  assert (Hlook : s_classes_under_construction w2 !! 1%nat = Some dB).
  { rewrite Hq3. by apply lookup_app_l_Some. }
  assert (Hdead : 1%nat ∉ live_entries w2).
  { intros Hin. apply Hdead2.
    apply (for_each_dead_stay rest
             ltac:(apply Forall_forall; intros a _; apply run_dead_stay)
             v2 w2 Hi2 ltac:(lia) Hrun 1%nat); [|done].
    by apply lookup_lt_Some in Hq12. }
  assert (Hdg : dangling w2 <> []).
  { intros Hn. apply Hdead. apply (proj1 (dangling_nil w2) Hn).
    by apply lookup_lt_Some in Hlook. }
  split; [done|]. split; [done|]. split; [done|].
  rewrite createInstance_runs_ctor by (done || unfold INT_MAX; lia).
  fold cs. rewrite Hctor, pop_eq.
  change (s_construct_stack_size (end_construct A dA w2))
    with (s_construct_stack_size w2).
  rewrite (dangling_ext w2 (end_construct A dA w2)) by done.
  rewrite !bool_decide_eq_true_2 by lia.
  by rewrite bool_decide_eq_false_2.
Qed.

Lemma destroyed_while_queued_witness :
  exists w2,
    for_each [CreateInstance "B" 2%positive []; DestructInstance "B" []]
      run (ctor_state "A" 1%positive initial_world) = Ok tt w2 /\
    dangling w2 = [1%nat] /\
    createInstance "A" 1%positive
      (for_each [CreateInstance "B" 2%positive []; DestructInstance "B" []] run)
      initial_world = Undefined.
Proof.
  assert (Hrun : exists w2,
    for_each [CreateInstance "B" 2%positive []; DestructInstance "B" []]
      run (ctor_state "A" 1%positive initial_world) = Ok tt w2 /\
    dangling w2 = [1%nat]).
  { eexists. split; [vm_compute; reflexivity | vm_compute; reflexivity]. }
  destruct Hrun as (w2 & Hrun & Hd). exists w2.
  split; [exact Hrun|]. split; [exact Hd|].
  destruct (destroyed_while_queued "A" "B" 1%positive 2%positive [] [] []
              initial_world w2) as (_ & _ & _ & Hu).
  - apply initial_world_coordinator_inv.
  - reflexivity.
  - reflexivity.
  - reflexivity.
  - exact Hrun.
  - exact Hu.
Defined.

(** ** The registry over the life of the program *)

(** X14: arrays of instances compose, and allocating and deleting an
    array is a round trip for the registry.  On a registry that already
    has members, constructing instances at distinct addresses that are not
    alive adds exactly those addresses, and the count grows by their
    number; [delete[]] of the same array then leaves the registry exactly
    as it was before the allocation. *)
Theorem array_round_trip (Ty : tyid) (cdata : addr) (objs : list addr)
    (w : World)
    (Hinv : collector_inv Ty w)
    (Hdistinct : NoDup objs)
    (Hfresh : forall x, x ∈ objs -> ~ alive Ty w x) :
  exists w1 w2,
    new_array Ty cdata objs w = Ok tt w1 /\
    registry Ty w1 = list_to_set objs ∪ registry Ty w /\
    size (registry Ty w1) = (length objs + size (registry Ty w))%nat /\
    delete_array Ty cdata objs w1 = Ok tt w2 /\
    registry Ty w2 = registry Ty w /\
    collector_inv Ty w2.
Proof.
  destruct (new_array_spec Ty cdata objs w Hinv Hdistinct Hfresh)
    as (w1 & Hnew & Hinv1 & Hreg1).
  assert (Hdisj : (list_to_set objs : gset positive) ## registry Ty w).
  { apply elem_of_disjoint. intros y Hy Hr.
    apply elem_of_list_to_set in Hy. apply (Hfresh y Hy).
    destruct Hinv as (_ & _ & Hreg). by apply Hreg. }
  destruct (delete_each_spec Ty cdata (reverse objs) w1 Hinv1)
    as (w2 & Hdel & Hinv2 & Hreg2).
  { by rewrite reverse_Permutation. }
  { intros x Hx. rewrite elem_of_reverse in Hx.
    destruct Hinv1 as (_ & _ & Hreg). rewrite <- Hreg, Hreg1.
    rewrite elem_of_union, elem_of_list_to_set. by left. }
  exists w1, w2. split; [done|]. split; [done|]. split.
  { rewrite Hreg1, size_union by done. by rewrite size_list_to_set. }
  split; [done|]. split; [|done].
  rewrite Hreg2, Hreg1. apply set_eq. intros y.
  rewrite elem_of_difference, elem_of_union, !elem_of_list_to_set, elem_of_reverse.
  split; [tauto|]. intros Hy. split; [by right|]. intros Hin.
  apply (Hfresh y Hin). destruct Hinv as (_ & _ & Hreg). by apply Hreg.
Qed.

Lemma array_round_trip_witness :
  exists w w1 w2,
    AutoCollectable_ctor "CollectableData" 100%positive 7%positive initial_world
    = Ok tt w /\
    registry "CollectableData" w = {[7%positive]} /\
    new_array "CollectableData" 100%positive [1; 2; 3]%positive w = Ok tt w1 /\
    registry "CollectableData" w1
    = list_to_set [1; 2; 3]%positive ∪ {[7%positive]} /\
    size (registry "CollectableData" w1) = 4%nat /\
    delete_array "CollectableData" 100%positive [1; 2; 3]%positive w1 = Ok tt w2 /\
    registry "CollectableData" w2 = {[7%positive]}.
Proof.
  destruct (AutoCollectable_ctor_spec "CollectableData" 100%positive 7%positive
              initial_world) as (w & Hrun & Hinv & Hreg & Hal).
  { apply initial_world_collector_inv. }
  { intros [b Hb]. vm_compute in Hb. discriminate Hb. }
  assert (Hreg7 : registry "CollectableData" w = {[7%positive]}).
  { rewrite Hreg.
    change (registry "CollectableData" initial_world) with (∅ : gset positive).
    apply union_empty_r_L. }
  destruct (array_round_trip "CollectableData" 100%positive [1; 2; 3]%positive w)
    as (w1 & w2 & Hn & Hr1 & Hs & Hd & Hr2 & _).
  - exact Hinv.
  - apply (bool_decide_unpack _). vm_compute. exact I.
  - intros x Hx Ha. apply Hal in Ha as [->|[b Hb]].
    + repeat (apply elem_of_cons in Hx as [Hx|Hx]; [discriminate Hx|]).
      by apply elem_of_nil in Hx.
    + vm_compute in Hb. discriminate Hb.
  - exists w, w1, w2. split; [exact Hrun|]. split; [exact Hreg7|].
    split; [exact Hn|]. split; [by rewrite Hr1, Hreg7|].
    split; [by rewrite Hs, Hreg7, size_singleton|].
    split; [exact Hd | by rewrite Hr2, Hreg7].
Defined.

Lemma teardown_initialized T v :
  initialized (the_wrapper T v) = true ->
  InstanceSafetyHelper_dtor T v = AssertFail v.
Proof.
  unfold the_wrapper, the_helper. intros Hi.
  cbv [InstanceSafetyHelper_dtor bind gets cassert modify].
  destruct (helpers v !! T) as [h|]; [|done]. cbn in Hi. by rewrite Hi.
Qed.

Lemma teardown_after_destructInstance T dtor v v' :
  destructInstance T dtor v = Ok tt v' ->
  InstanceSafetyHelper_dtor T v' = Ok tt (set_helpers (delete T) v').
Proof.
  intros [Hh [h Hl]]%destructInstance_leaves.
  cbv [InstanceSafetyHelper_dtor bind gets cassert modify]. rewrite Hl.
  unfold the_helper in Hh. rewrite Hl in Hh. cbn in Hh. by subst h.
Qed.

Lemma destructInstance_Collector Ty c v :
  initialized (the_wrapper (CollectorOf Ty) v) = true ->
  raw_pointer (the_wrapper (CollectorOf Ty) v) <> None ->
  mutex (the_helper (CollectorOf Ty) v) = false ->
  exists v',
    destructInstance (CollectorOf Ty) (Collector_dtor c) v = Ok tt v' /\
    same_coord v v' /\
    m_registered_in_collector v' = m_registered_in_collector v /\
    the_helper (CollectorOf Ty) v' = InstanceSafetyHelper_ctor.
Proof.
  intros Hi Hp Hm. rewrite destructInstance_eq, Hi.
  rewrite bool_decide_eq_true_2 by done. cbv [Collector_dtor modify andb].
  rewrite Singleton_dtor_eq.
  change (the_wrapper (CollectorOf Ty) (set_containers ?f ?u))
    with (the_wrapper (CollectorOf Ty) u).
  change (the_helper (CollectorOf Ty) (set_containers ?f ?u))
    with (the_helper (CollectorOf Ty) u).
  rewrite the_wrapper_init, the_helper_init, Hi, Hm.
  eexists. split; [reflexivity|]. split; [by repeat split|]. split; [done|].
  rewrite the_helper_freed, the_helper_update_mutex_eq.
  by rewrite !the_wrapper_update_eq.
Qed.

(** X15: the registry does not survive its collector.  If the collector
    of [Ty] is destroyed while an instance is alive, the destructor of
    that instance does not find the old registry: it builds a new, empty
    collector through [Instance] and is stopped by the assertion of
    [erase]. *)
Theorem instance_outlives_collector (Ty : tyid) (cdata c x : addr)
    (w w1 : World)
    (Hinv : collector_inv Ty w)
    (Halive : alive Ty w x)
    (Hgone : destructInstance (CollectorOf Ty) (Collector_dtor c) w = Ok tt w1) :
  exists w2,
    AutoCollectable_dtor Ty cdata x w1 = AssertFail w2 /\
    initialized (the_wrapper (CollectorOf Ty) w2) = true /\
    registry Ty w2 = ∅ /\
    alive Ty w2 x.
Proof.
  destruct Hinv as (Hready & Hflags & Hreg).
  destruct Halive as [b Hb]. pose proof (Hflags _ _ Hb) as ->.
  assert (Hx : x ∈ registry Ty w) by (apply Hreg; by exists true).
  destruct Hready as (Hci & Hlt & Hm & Hp).
  destruct (raw_pointer (the_wrapper (CollectorOf Ty) w)) as [c0|] eqn:Hc0.
  2:{ unfold registry in Hx. rewrite Hc0 in Hx. by apply not_elem_of_empty in Hx. }
  destruct (Hp c0 eq_refl) as [Hi _].
  destruct (destructInstance_Collector Ty c w Hi ltac:(by rewrite Hc0) Hm)
    as (v' & Hd & Hsame & Hmr & Hh).
  rewrite Hd in Hgone. injection Hgone as <-.
  assert (Hready1 : collector_ready Ty v').
  { pose proof Hsame as (_ & Hs & _).
    split; [by eapply coordinator_inv_same|]. split; [by rewrite Hs|].
    split; [by rewrite Hh|]. intros c'. unfold the_wrapper. by rewrite Hh. }
  assert (Hr1 : registry Ty v' = ∅).
  { unfold registry, the_wrapper. by rewrite Hh. }
  destruct (through_Instance_eq Ty cdata (fun c' => Collector_erase c' x) v' Hready1)
    as (c' & Heq & Hw & Hc).
  rewrite Hr1 in Hc.
  cbv [AutoCollectable_dtor bind gets]. rewrite Hmr, Hb, Heq.
  rewrite (Collector_erase_absent _ _ _ _ Hc) by apply not_elem_of_empty.
  eexists. split; [reflexivity|]. split; [by rewrite Hw|].
  split; [by apply (registry_eq Ty _ c')|].
  destruct (Instance_state_collector Ty cdata v' Hready1)
    as (? & _ & _ & _ & _ & _ & Hm').
  unfold alive. rewrite Hm', Hmr, Hb. by exists true.
Qed.

Lemma instance_outlives_collector_witness :
  exists w w1 w2,
    AutoCollectable_ctor "IntItem" 100%positive 1%positive initial_world = Ok tt w /\
    destructInstance (CollectorOf "IntItem") (Collector_dtor 100%positive) w
    = Ok tt w1 /\
    AutoCollectable_dtor "IntItem" 200%positive 1%positive w1 = AssertFail w2 /\
    registry "IntItem" w2 = ∅.
Proof.
  destruct (AutoCollectable_ctor_spec "IntItem" 100%positive 1%positive initial_world)
    as (w & Hrun & Hinv & _ & Hal).
  { apply initial_world_collector_inv. }
  { intros [b Hb]. vm_compute in Hb. discriminate Hb. }
  assert (Hd : exists w1,
     destructInstance (CollectorOf "IntItem") (Collector_dtor 100%positive) w
     = Ok tt w1).
  { vm_compute in Hrun. injection Hrun as <-. eexists. vm_compute. reflexivity. }
  destruct Hd as [w1 Hd].
  destruct (instance_outlives_collector "IntItem" 200%positive 100%positive
              1%positive w w1 Hinv) as (w2 & Hf & _ & Hr & _).
  - apply Hal. left. reflexivity.
  - exact Hd.
  - exists w, w1, w2. split; [exact Hrun|]. split; [exact Hd|].
    split; [exact Hf | exact Hr].
Defined.

Lemma registry_member_built Ty v y :
  collector_inv Ty v -> y ∈ registry Ty v ->
  raw_pointer (the_wrapper (CollectorOf Ty) v) <> None /\
  initialized (the_wrapper (CollectorOf Ty) v) = true /\
  mutex (the_helper (CollectorOf Ty) v) = false.
Proof.
  intros ((_ & _ & Hm & Hp) & _ & _) Hy. unfold registry in Hy.
  destruct (raw_pointer (the_wrapper (CollectorOf Ty) v)) as [c0|] eqn:Hc0.
  - destruct (Hp c0 eq_refl) as [Hi _]. by split.
  - by apply not_elem_of_empty in Hy.
Qed.

Lemma AutoCollectable_dtor_helpers Ty cdata x w w' :
  collector_ready Ty w ->
  raw_pointer (the_wrapper (CollectorOf Ty) w) <> None ->
  AutoCollectable_dtor Ty cdata x w = Ok tt w' ->
  helpers w' = helpers w.
Proof.
  intros Hready Hp.
  destruct (through_Instance_eq Ty cdata (fun c => Collector_erase c x) w Hready)
    as (c & Heq & _ & _).
  assert (Hs : Instance_state Ty cdata w = w).
  { unfold Instance_state.
    by destruct (raw_pointer (the_wrapper (CollectorOf Ty) w)). }
  rewrite Hs in Heq.
  cbv [AutoCollectable_dtor bind gets].
  destruct (m_registered_in_collector w !! (Ty, x)) as [[|]|]; [| |done].
  - rewrite Heq. cbv [Collector_erase bind gets cassert modify ret].
    destruct (m_container w !! c) as [s|]; [|done].
    destruct (bool_decide (x ∈ s)); [|done]. by intros [= <-].
  - cbv [ret modify]. by intros [= <-].
Qed.

(** X16: a program that has constructed a collectable instance cannot
    exit cleanly without destroying the collector.  After the constructor
    of an instance the destructor of the collector's holder fails its
    assertion, and it still fails after the instance is destroyed and the
    registry is empty again; after [destructInstance] on the collector it
    returns. *)
Theorem exit_needs_collector_destroyed (Ty : tyid) (cdata c x : addr)
    (w : World)
    (Hinv : collector_inv Ty w)
    (Hfresh : ~ alive Ty w x) :
  exists w1 w2 w3,
    AutoCollectable_ctor Ty cdata x w = Ok tt w1 /\
    InstanceSafetyHelper_dtor (CollectorOf Ty) w1 = AssertFail w1 /\
    AutoCollectable_dtor Ty cdata x w1 = Ok tt w2 /\
    registry Ty w2 = registry Ty w /\
    InstanceSafetyHelper_dtor (CollectorOf Ty) w2 = AssertFail w2 /\
    destructInstance (CollectorOf Ty) (Collector_dtor c) w2 = Ok tt w3 /\
    InstanceSafetyHelper_dtor (CollectorOf Ty) w3
    = Ok tt (set_helpers (delete (CollectorOf Ty)) w3).
Proof.
  destruct (AutoCollectable_ctor_spec Ty cdata x w Hinv Hfresh)
    as (w1 & Hrun1 & Hinv1 & Hreg1 & Hal1).
  assert (Hx1 : x ∈ registry Ty w1).
  { rewrite Hreg1, elem_of_union, elem_of_singleton. by left. }
  destruct (registry_member_built Ty w1 x Hinv1 Hx1) as (Hp1 & Hi1 & Hm1).
  destruct (AutoCollectable_dtor_spec Ty cdata x w1 Hinv1)
    as (w2 & Hrun2 & Hinv2 & Hreg2 & _).
  { apply Hal1. by left. }
  pose proof (AutoCollectable_dtor_helpers Ty cdata x w1 w2 (proj1 Hinv1) Hp1 Hrun2)
    as Hh2.
  assert (Hw2 : the_helper (CollectorOf Ty) w2 = the_helper (CollectorOf Ty) w1)
    by by apply the_helper_ext.
  destruct (destructInstance_Collector Ty c w2) as (w3 & Hd & _ & _ & _).
  { unfold the_wrapper. by rewrite Hw2. }
  { unfold the_wrapper. by rewrite Hw2. }
  { by rewrite Hw2. }
  exists w1, w2, w3.
  split; [done|]. split; [by apply teardown_initialized|].
  split; [done|]. split.
  { rewrite Hreg2, Hreg1. apply set_eq. intros y.
    rewrite elem_of_difference, elem_of_union, elem_of_singleton.
    split; [tauto|]. intros Hy. split; [by right|]. intros ->.
    apply Hfresh. destruct Hinv as (_ & _ & Hreg). by apply Hreg. }
  split. { apply teardown_initialized. unfold the_wrapper. by rewrite Hw2. }
  split; [done|]. by eapply teardown_after_destructInstance.
Qed.

Lemma exit_needs_collector_destroyed_witness :
  exists w1 w2 w3,
    AutoCollectable_ctor "IntItem" 100%positive 1%positive initial_world = Ok tt w1 /\
    InstanceSafetyHelper_dtor (CollectorOf "IntItem") w1 = AssertFail w1 /\
    AutoCollectable_dtor "IntItem" 100%positive 1%positive w1 = Ok tt w2 /\
    InstanceSafetyHelper_dtor (CollectorOf "IntItem") w2 = AssertFail w2 /\
    destructInstance (CollectorOf "IntItem") (Collector_dtor 100%positive) w2
    = Ok tt w3 /\
    InstanceSafetyHelper_dtor (CollectorOf "IntItem") w3
    = Ok tt (set_helpers (delete (CollectorOf "IntItem")) w3).
Proof.
  destruct (exit_needs_collector_destroyed "IntItem" 100%positive 100%positive
              1%positive initial_world)
    as (w1 & w2 & w3 & H1 & H2 & H3 & _ & H4 & H5 & H6).
  - apply initial_world_collector_inv.
  - intros [b Hb]. vm_compute in Hb. discriminate Hb.
  - exists w1, w2, w3. split; [exact H1|]. split; [exact H2|].
    split; [exact H3|]. split; [exact H4|]. split; [exact H5 | exact H6].
Defined.

(** ** More on the collector and the hooks *)

(** X17: [insert] and [erase] undo each other.  On a collector whose set
    does not hold [c], [insert] of [c] followed by [erase] of [c] returns
    and leaves the whole state as it was; on a collector whose set holds
    [c], [erase] followed by [insert] does. *)
Theorem Collector_insert_erase_round_trip (this c : addr) (s : gset positive)
    (w : World) (Hs : m_container w !! this = Some s) :
  (c ∉ s ->
   (Collector_insert this c ;; Collector_erase this c) w = Ok true w) /\
  (c ∈ s ->
   (Collector_erase this c ;; Collector_insert this c) w = Ok true w).
Proof.
  split; intros Hc; unfold bind.
  - rewrite (Collector_insert_fresh _ _ _ _ Hs Hc).
    rewrite (Collector_erase_member this c ({[c]} ∪ s)).
    + f_equal. unfold set_containers; cbn. rewrite insert_insert_eq.
      replace (({[c]} ∪ s) ∖ {[c]}) with s.
      * rewrite insert_id by done. apply World_eta.
      * apply set_eq. intros y.
        rewrite elem_of_difference, elem_of_union, elem_of_singleton.
        split; [|tauto]. intros Hy. split; [by right|]. by intros ->.
    + cbn. by rewrite lookup_insert_eq.
    + rewrite elem_of_union, elem_of_singleton. by left.
  - rewrite (Collector_erase_member _ _ _ _ Hs Hc).
    rewrite (Collector_insert_fresh this c (s ∖ {[c]})).
    + f_equal. unfold set_containers; cbn. rewrite insert_insert_eq.
      replace ({[c]} ∪ s ∖ {[c]}) with s.
      * rewrite insert_id by done. apply World_eta.
      * apply set_eq. intros y.
        rewrite elem_of_union, elem_of_difference, elem_of_singleton.
        split; [|by intros [->|[? _]]].
        intros Hy. destruct (decide (y = c)); [by left | by right].
    + cbn. by rewrite lookup_insert_eq.
    + rewrite elem_of_difference, elem_of_singleton. by intros [_ ?].
Qed.

Lemma Collector_insert_erase_round_trip_witness :
  let w := set_containers (insert 1%positive {[5%positive]}) initial_world in
  (Collector_insert 1%positive 6%positive ;; Collector_erase 1%positive 6%positive) w
  = Ok true w /\
  (Collector_erase 1%positive 5%positive ;; Collector_insert 1%positive 5%positive) w
  = Ok true w.
Proof.
  intros w.
  destruct (Collector_insert_erase_round_trip 1%positive 6%positive
              {[5%positive]} w eq_refl) as [H1 _].
  destruct (Collector_insert_erase_round_trip 1%positive 5%positive
              {[5%positive]} w eq_refl) as [_ H2].
  split; [apply H1 | apply H2].
  - apply (bool_decide_unpack _). vm_compute. exact I.
  - apply (bool_decide_unpack _). vm_compute. exact I.
Defined.

(** X18: hooks are deferred.  A program run at a positive depth, that
    is, inside the constructor of some singleton, calls no hook, whatever
    it constructs and destroys: what it constructs is added to the queue
    in the order the constructions began, and the depth is the same when
    it returns. *)
Theorem hooks_deferred (prog : list action) (w w' : World)
    (Hinv : coordinator_inv w)
    (Hinside : s_construct_stack_size w > 0)
    (Hrun : for_each prog run w = Ok tt w') :
  postConstruction_calls w' = postConstruction_calls w /\
  s_construct_stack_size w' = s_construct_stack_size w /\
  exists f : list ctree,
    constructions_all prog f /\
    s_classes_under_construction w' =
      s_classes_under_construction w ++ flat_map preorder f.
Proof.
  destruct (traced_for_each prog) with (w := w) (w' := w')
    as (f & HF & I' & S' & E' & P' & Q'); [|done..|].
  { apply Forall_forall. intros a _. apply run_traced. }
  specialize (Q' Hinside). split; [done|]. split; [done|].
  exists f. split; [done|]. rewrite Q' in P'. by apply app_inv_head in P'.
Qed.

Lemma hooks_deferred_witness :
  exists w',
    for_each [CreateInstance "B" 2%positive [CreateInstance "C" 3%positive []];
              DestructInstance "C" []] run
      (ctor_state "A" 1%positive initial_world) = Ok tt w' /\
    postConstruction_calls w' = [] /\
    s_classes_under_construction w' = [1; 2; 3]%positive.
Proof.
  assert (Hrun : exists w',
    for_each [CreateInstance "B" 2%positive [CreateInstance "C" 3%positive []];
              DestructInstance "C" []] run
      (ctor_state "A" 1%positive initial_world) = Ok tt w' /\
    s_classes_under_construction w' = [1; 2; 3]%positive).
  { eexists. split; [vm_compute; reflexivity | reflexivity]. }
  destruct Hrun as (w' & Hrun & Hq). exists w'. split; [exact Hrun|].
  destruct (hooks_deferred
              [CreateInstance "B" 2%positive [CreateInstance "C" 3%positive []];
               DestructInstance "C" []]
              (ctor_state "A" 1%positive initial_world) w')
    as (Hc & _ & _); [| |exact Hrun|].
  - unfold coordinator_inv, INT_MAX. simpl. split; [lia | intros _; lia].
  - reflexivity.
  - split; [exact Hc | exact Hq].
Defined.

(** ** Registries of different types *)

Lemma append_suffix_inj (a b : string) (c : Ascii.ascii) :
  a +:+ String c "" = b +:+ String c "" -> a = b.
Proof.
  revert b. induction a as [|x a IH]; intros [|y b]; cbn; intros H.
  - done.
  - injection H as _ H. by destruct b.
  - injection H as _ H. by destruct a.
  - injection H as -> H. f_equal. by apply IH.
Qed.

Lemma CollectorOf_inj Ty1 Ty2 : CollectorOf Ty1 = CollectorOf Ty2 -> Ty1 = Ty2.
Proof.
  unfold CollectorOf. cbn. intros H.
  repeat (injection H as H). by apply append_suffix_inj in H.
Qed.

Lemma Instance_state_pointer Ty cdata v :
  collector_ready Ty v ->
  raw_pointer (the_wrapper (CollectorOf Ty) (Instance_state Ty cdata v)) =
  Some (default cdata (raw_pointer (the_wrapper (CollectorOf Ty) v))).
Proof.
  intros Hready. unfold Instance_state.
  destruct (raw_pointer (the_wrapper (CollectorOf Ty) v)) as [c|] eqn:Hc; [done|].
  rewrite the_wrapper_update_mutex. cbn [default].
  set (e := end_construct _ _ _).
  assert (He : the_wrapper (CollectorOf Ty) e = mkPointerWrapper true (Some cdata)).
  { unfold e, end_construct. rewrite the_wrapper_update_eq.
    rewrite the_wrapper_set_stderr. by rewrite the_wrapper_update_eq. }
  case_bool_decide; exact (f_equal raw_pointer He).
Qed.

Lemma Instance_state_other Ty K' cdata v :
  CollectorOf Ty <> K' ->
  the_helper K' (Instance_state Ty cdata v) = the_helper K' v.
Proof.
  intros Hne. unfold Instance_state.
  destruct (raw_pointer (the_wrapper (CollectorOf Ty) v)); [done|].
  rewrite the_helper_update_mutex_ne by done.
  set (e := end_construct _ _ _).
  assert (He : the_helper K' e = the_helper K' v).
  { unfold e. rewrite the_helper_end_construct_ne by done.
    change (the_helper K' (set_containers ?f (pushed ?p ?u)))
      with (the_helper K' u).
    rewrite the_helper_begin_construct_ne, the_helper_update_mutex_ne by done.
    apply the_helper_init. }
  case_bool_decide; exact He.
Qed.

Lemma Instance_state_container Ty cdata v c' :
  c' <> cdata ->
  m_container (Instance_state Ty cdata v) !! c' = m_container v !! c'.
Proof.
  intros Hne. unfold Instance_state.
  destruct (raw_pointer (the_wrapper (CollectorOf Ty) v)); [done|].
  case_bool_decide; cbn; by rewrite lookup_insert_ne.
Qed.

Lemma Instance_state_registered Ty cdata v :
  m_registered_in_collector (Instance_state Ty cdata v)
  = m_registered_in_collector v.
Proof.
  unfold Instance_state.
  destruct (raw_pointer (the_wrapper (CollectorOf Ty) v)); [done|].
  by case_bool_decide.
Qed.

Lemma AutoCollectable_ctor_final Ty cdata x w w' :
  collector_ready Ty w ->
  AutoCollectable_ctor Ty cdata x w = Ok tt w' ->
  exists s,
    w' = set_registered (insert (Ty, x) true)
           (set_containers
              (insert (default cdata (raw_pointer (the_wrapper (CollectorOf Ty) w))) s)
              (Instance_state Ty cdata
                 (set_registered (insert (Ty, x) false) w))).
Proof.
  intros Hready.
  set (w0 := set_registered (insert (Ty, x) false) w).
  assert (Hready0 : collector_ready Ty w0).
  { eapply collector_ready_same; [apply same_coord_refl| | |exact Hready]; done. }
  destruct (through_Instance_eq Ty cdata (fun c => Collector_insert c x) w0 Hready0)
    as (c & Heq & Hw & Hc).
  pose proof (Instance_state_pointer Ty cdata w0 Hready0) as Hp.
  rewrite Hw in Hp. cbn in Hp. injection Hp as ->.
  cbv [AutoCollectable_ctor bind modify]. fold w0. rewrite Heq.
  cbv [Collector_insert bind gets modify cassert ret]. rewrite Hc.
  destruct (bool_decide _); [|done]. intros [= <-]. eauto.
Qed.

Lemma AutoCollectable_dtor_final Ty cdata x w w' :
  collector_ready Ty w ->
  AutoCollectable_dtor Ty cdata x w = Ok tt w' ->
  w' = set_registered (delete (Ty, x)) w \/
  exists s,
    w' = set_registered (delete (Ty, x))
           (set_registered (insert (Ty, x) true)
              (set_containers
                 (insert (default cdata (raw_pointer (the_wrapper (CollectorOf Ty) w))) s)
                 (Instance_state Ty cdata w))).
Proof.
  intros Hready.
  destruct (through_Instance_eq Ty cdata (fun c => Collector_erase c x) w Hready)
    as (c & Heq & Hw & Hc).
  pose proof (Instance_state_pointer Ty cdata w Hready) as Hp.
  rewrite Hw in Hp. cbn in Hp. injection Hp as ->.
  cbv [AutoCollectable_dtor bind gets].
  destruct (m_registered_in_collector w !! (Ty, x)) as [[|]|]; [| |done].
  - rewrite Heq. cbv [Collector_erase bind gets modify cassert ret]. rewrite Hc.
    destruct (bool_decide _); [|done]. intros [= <-]. right. eauto.
  - cbv [ret modify]. intros [= <-]. by left.
Qed.

(** X19: the registries of different types are independent.  The
    constructor or destructor of an instance of [Ty1] leaves the holder of
    the collector of another type [Ty2], its registry and its live
    instances as they were, provided the collector of [Ty2] is not at the
    address of the collector of [Ty1] nor at the address [malloc] gives
    for a new one. *)
Theorem registries_independent (Ty1 Ty2 : tyid) (cdata x : addr) (w w' : World)
    (Hdiff : Ty1 <> Ty2)
    (Hready : collector_ready Ty1 w)
    (Hsep : forall c2,
       raw_pointer (the_wrapper (CollectorOf Ty2) w) = Some c2 ->
       c2 <> cdata /\
       raw_pointer (the_wrapper (CollectorOf Ty1) w) <> Some c2)
    (Hrun : AutoCollectable_ctor Ty1 cdata x w = Ok tt w' \/
            AutoCollectable_dtor Ty1 cdata x w = Ok tt w') :
  the_helper (CollectorOf Ty2) w' = the_helper (CollectorOf Ty2) w /\
  registry Ty2 w' = registry Ty2 w /\
  (forall y, alive Ty2 w' y <-> alive Ty2 w y).
Proof.
  assert (HK : CollectorOf Ty1 <> CollectorOf Ty2)
    by (intros H; by apply CollectorOf_inj in H).
  assert (Hkey : forall y, (Ty1, x) <> (Ty2, y)) by (intros y [= ? _]; done).
  set (c1 := default cdata (raw_pointer (the_wrapper (CollectorOf Ty1) w))).
  assert (Hc1 : forall c2,
            raw_pointer (the_wrapper (CollectorOf Ty2) w) = Some c2 -> c1 <> c2).
  { intros c2 H2. destruct (Hsep c2 H2) as [Hn1 Hn2]. unfold c1.
    destruct (raw_pointer (the_wrapper (CollectorOf Ty1) w)); cbn; congruence. }
  assert (Hmain : forall v s,
    (forall T, the_helper T v = the_helper T w) ->
    (forall y, m_registered_in_collector v !! (Ty2, y)
               = m_registered_in_collector w !! (Ty2, y)) ->
    m_container v = m_container w ->
    forall u,
    helpers u = helpers (Instance_state Ty1 cdata v) ->
    m_container u = <[c1 := s]> (m_container (Instance_state Ty1 cdata v)) ->
    (forall y, m_registered_in_collector u !! (Ty2, y)
               = m_registered_in_collector (Instance_state Ty1 cdata v) !! (Ty2, y)) ->
    the_helper (CollectorOf Ty2) u = the_helper (CollectorOf Ty2) w /\
    registry Ty2 u = registry Ty2 w /\
    (forall y, alive Ty2 u y <-> alive Ty2 w y)).
  { intros v s Hv Hrv Hcv u Hu Hcu Hru.
    assert (H2 : the_helper (CollectorOf Ty2) u = the_helper (CollectorOf Ty2) w).
    { rewrite (the_helper_ext _ _ _ Hu), Instance_state_other by done. apply Hv. }
    split; [done|]. split.
    - unfold registry, the_wrapper. rewrite H2.
      destruct (raw_pointer (wrapper (the_helper (CollectorOf Ty2) w)))
        as [c2|] eqn:E2; [|done].
      destruct (Hsep c2 E2) as [Hn _].
      rewrite Hcu, lookup_insert_ne by by apply Hc1.
      by rewrite Instance_state_container, Hcv.
    - intros y. unfold alive.
      by rewrite Hru, Instance_state_registered, Hrv. }
  destruct Hrun as [Hrun | Hrun].
  - apply AutoCollectable_ctor_final in Hrun as [s ->]; [|done].
    apply (Hmain (set_registered (insert (Ty1, x) false) w) s); try done.
    + intros y. cbn. by rewrite lookup_insert_ne.
    + intros y. cbn. by rewrite lookup_insert_ne.
  - apply AutoCollectable_dtor_final in Hrun as [-> | [s ->]]; [| |done].
    + split; [done|]. split; [done|]. intros y. unfold alive. cbn.
      by rewrite lookup_delete_ne.
    + apply (Hmain w s); try done.
      intros y. cbn. by rewrite lookup_delete_ne, lookup_insert_ne.
Qed.

Lemma registries_independent_witness :
  exists w w',
    AutoCollectable_ctor "IntItem" 100%positive 1%positive initial_world = Ok tt w /\
    AutoCollectable_ctor "Other" 200%positive 2%positive w = Ok tt w' /\
    registry "IntItem" w' = registry "IntItem" w.
Proof.
  destruct (AutoCollectable_ctor_spec "IntItem" 100%positive 1%positive initial_world)
    as (w & Hrun & Hinv & _ & _).
  { apply initial_world_collector_inv. }
  { intros [b Hb]. vm_compute in Hb. discriminate Hb. }
  assert (Hw : w = set_registered (insert ("IntItem", 1%positive) true)
                 (set_containers (insert 100%positive {[1%positive]})
                    (Instance_state "IntItem" 100%positive
                       (set_registered (insert ("IntItem", 1%positive) false)
                          initial_world)))).
  { vm_compute in Hrun. injection Hrun as <-. vm_compute. reflexivity. }
  assert (Hrun2 : exists w',
            AutoCollectable_ctor "Other" 200%positive 2%positive w = Ok tt w').
  { rewrite Hw. eexists. vm_compute. reflexivity. }
  destruct Hrun2 as [w' Hrun2]. exists w, w'.
  split; [exact Hrun|]. split; [exact Hrun2|].
  destruct (registries_independent "Other" "IntItem" 200%positive 2%positive w w')
    as (_ & Hr & _).
  - discriminate.
  - destruct Hinv as [(Hci & Hlt & _) _].
    split; [exact Hci|]. split; [exact Hlt|]. rewrite Hw.
    split; [vm_compute; reflexivity|].
    intros c H. vm_compute in H. discriminate H.
  - intros c2. rewrite Hw. vm_compute. intros [= <-]. split; discriminate.
  - left. exact Hrun2.
  - exact Hr.
Defined.
